(** * FreeNodes: a model of [hb/runner.py]

    The node processor of the repository reads the text files of a
    [nodes] directory, merges them into [output/hb.txt], splits the
    merged document by URI scheme into one file per protocol, and writes
    a report.  This development embeds the methods of [NodeProcessor]
    that do this work (calculate_hash, check_changes, merge_files,
    split_by_protocol, generate_report, run) and [main] and proves
    the properties the specification states about them, and further
    properties of the code.  The constructor (load_config,
    init_directories) is embedded apart from them, in [init].

    Conventions of the embedding:
    - a Python [str] is a list of Unicode code points ([text]); a byte
      string is a list of numbers below 256 ([bytes]);
    - the file system is a finite map from lexical paths to nodes; a file
      carries its bytes and two permission bits;
    - a method is a function from the state (file system and log) to an
      outcome (a value or a raised exception) and a new state;
    - what the Python runtime supplies and the repository does not
      contain is a parameter: SHA-256, the lowercase table of non-ASCII
      characters, and the clock; for the constructor also the YAML
      loader, [Path.mkdir] and the set-up of the logging module. *)

From Stdlib Require Import NArith List Lia String Ascii.
From stdpp Require Import base option list sorting gmap pretty.

Set Default Proof Using "Type".

(** ** Text *)

Abbreviation text := (list N) (only parsing).
Abbreviation bytes := (list N) (only parsing).

(** The code points of an ASCII literal of the source. *)
Definition txt (s : string) : text := N_of_ascii <$> list_ascii_of_string s.

Module Str.

Local Open Scope N_scope.

(** [str.isspace] on one character: the white-space table of CPython. *)
Definition isspace (c : N) : bool :=
  ((0x09 <=? c) && (c <=? 0x0D)) || ((0x1C <=? c) && (c <=? 0x20))
  || (c =? 0x85) || (c =? 0xA0) || (c =? 0x1680)
  || ((0x2000 <=? c) && (c <=? 0x200A))
  || (c =? 0x2028) || (c =? 0x2029) || (c =? 0x202F) || (c =? 0x205F)
  || (c =? 0x3000).

Fixpoint lstrip (s : text) : text :=
  match s with
  | c :: r => if isspace c then lstrip r else s
  | [] => []
  end.

Definition rstrip (s : text) : text :=
  foldr (fun c acc => match acc with
                      | [] => if isspace c then [] else [c]
                      | _ :: _ => c :: acc
                      end) [] s.

(** [s.strip()] *)
Definition strip (s : text) : text := rstrip (lstrip s).

(** [s.startswith(p)] *)
Fixpoint startswith (s p : text) {struct p} : bool :=
  match p, s with
  | [], _ => true
  | c :: p', d :: s' => (c =? d) && startswith s' p'
  | _ :: _, [] => false
  end.

(** [sep.join(l)] *)
Fixpoint join (sep : text) (l : list text) : text :=
  match l with
  | [] => []
  | [x] => x
  | x :: r => x ++ sep ++ join sep r
  end.

(** Iterating over a file opened in text mode: universal newlines, every
    line keeps its terminator, which reads as a line feed. *)
Fixpoint readlines_from (cur : text) (s : text) : list text :=
  match s with
  | [] => match cur with [] => [] | _ :: _ => [cur] end
  | c :: r =>
      if c =? 10 then (cur ++ [10]) :: readlines_from [] r
      else if c =? 13 then
        (cur ++ [10]) :: readlines_from [] (match r with
                                            | 10 :: r' => r'
                                            | _ => r
                                            end)
      else readlines_from (cur ++ [c]) r
  end.

Definition readlines (s : text) : list text := readlines_from [] s.

Definition ascii_lower (c : N) : N :=
  if (0x41 <=? c) && (c <=? 0x5A) then c + 32 else c.

(** Lexicographic order of code points, the order of [str] and of the
    names of paths in one directory. *)
Fixpoint leb (a b : text) : bool :=
  match a, b with
  | [], _ => true
  | _ :: _, [] => false
  | x :: a', y :: b' => (x <? y) || ((x =? y) && leb a' b')
  end.

Definition endswith (s p : text) : bool := startswith (rev s) (rev p).

End Str.

Definition NL : text := [10%N].

(** ** UTF-8

    Files hold bytes; the program reads and writes them as UTF-8 text.
    Decoding is strict (it fails on an ill-formed sequence, as
    [UnicodeDecodeError]), so a text read from a file is a sequence of
    Unicode scalar values.  A [str] can hold other code points: [pathlib]
    gives a file name that is not UTF-8 lone surrogates.  [encode] is the
    encoding of a text of scalar values; the encoder of Python is strict
    and raises on any other text, see [str_encode] below. *)

Module Utf8.

Local Open Scope N_scope.

Definition encode_char (c : N) : bytes :=
  if c <? 0x80 then [c]
  else if c <? 0x800 then [0xC0 + c / 64; 0x80 + c mod 64]
  else if c <? 0x10000 then
    [0xE0 + c / 4096; 0x80 + (c / 64) mod 64; 0x80 + c mod 64]
  else
    [0xF0 + c / 262144; 0x80 + (c / 4096) mod 64;
     0x80 + (c / 64) mod 64; 0x80 + c mod 64].

Definition encode (s : text) : bytes := flat_map encode_char s.

Definition cont (b : N) : bool := (0x80 <=? b) && (b <=? 0xBF).

Definition scalar (lo c : N) : option N :=
  if (lo <=? c) && (c <=? 0x10FFFF) && negb ((0xD800 <=? c) && (c <=? 0xDFFF))
  then Some c else None.

Fixpoint decode (bs : bytes) : option text :=
  match bs with
  | [] => Some []
  | b0 :: r0 =>
      if b0 <? 0x80 then cons b0 <$> decode r0
      else if (0xC2 <=? b0) && (b0 <=? 0xDF) then
        match r0 with
        | b1 :: r1 =>
            if cont b1 then
              c ← scalar 0x80 ((b0 - 0xC0) * 64 + (b1 - 0x80));
              cons c <$> decode r1
            else None
        | _ => None
        end
      else if (0xE0 <=? b0) && (b0 <=? 0xEF) then
        match r0 with
        | b1 :: b2 :: r2 =>
            if cont b1 && cont b2 then
              c ← scalar 0x800
                    ((b0 - 0xE0) * 4096 + (b1 - 0x80) * 64 + (b2 - 0x80));
              cons c <$> decode r2
            else None
        | _ => None
        end
      else if (0xF0 <=? b0) && (b0 <=? 0xF4) then
        match r0 with
        | b1 :: b2 :: b3 :: r3 =>
            if cont b1 && cont b2 && cont b3 then
              c ← scalar 0x10000
                    ((b0 - 0xF0) * 262144 + (b1 - 0x80) * 4096
                     + (b2 - 0x80) * 64 + (b3 - 0x80));
              cons c <$> decode r3
            else None
        | _ => None
        end
      else None
  end.

End Utf8.

(** A Unicode scalar value: a code point a [str] read from a file holds. *)
Definition scalar_value (c : N) : bool :=
  (c <=? 0x10FFFF)%N && negb ((0xD800 <=? c)%N && (c <=? 0xDFFF)%N).

(** Whether [t.encode('utf-8')] succeeds. *)
Definition encodable (t : text) : bool := forallb scalar_value t.

(** ** The file system *)

(** A path is the list of its components, as [pathlib] keeps them; the
    empty list is the current directory, which always exists. *)
Abbreviation path := (list (list N)) (only parsing).

(** [p.parent] *)
Definition parent (p : path) : path := removelast p.

Inductive node : Type :=
| Dir
| File (data : bytes) (readable writable : bool).

Inductive exn : Type :=
| FileNotFoundError
| PermissionError
| IsADirectoryError
| NotADirectoryError
| UnicodeDecodeError
| UnicodeEncodeError.

Inductive outcome (A : Type) : Type :=
| Ok (a : A)
| Raise (e : exn).
Arguments Ok {A} a.
Arguments Raise {A} e.

(** [t.encode('utf-8')], and what [f.write(t)] does to [t] on a file
    opened with that encoding: strict. *)
Definition str_encode (t : text) : outcome bytes :=
  if encodable t then Ok (Utf8.encode t) else Raise UnicodeEncodeError.

Module FS.

Definition is_dir (fs : gmap path node) (p : path) : bool :=
  match p with
  | [] => true
  | _ :: _ => match fs !! p with Some Dir => true | _ => false end
  end.

(** [p.exists()] *)
Definition exists_ (fs : gmap path node) (p : path) : bool :=
  match p with
  | [] => true
  | _ :: _ => match fs !! p with Some _ => true | None => false end
  end.

(** [open(p, 'rb').read()] *)
Definition read_bytes (fs : gmap path node) (p : path) : outcome bytes :=
  match p with
  | [] => Raise IsADirectoryError
  | _ :: _ =>
      match fs !! p with
      | None => Raise FileNotFoundError
      | Some Dir => Raise IsADirectoryError
      | Some (File d r _) => if r then Ok d else Raise PermissionError
      end
  end.

(** Opening a file in text mode and decoding all of it; the characters
    are those before newline translation. *)
Definition read_decoded (fs : gmap path node) (p : path) : outcome text :=
  match read_bytes fs p with
  | Ok d => match Utf8.decode d with
            | Some t => Ok t
            | None => Raise UnicodeDecodeError
            end
  | Raise e => Raise e
  end.

(** [open(p, 'w')]: the node the path holds once the file is open and
    [d] is written to it, or the exception of [open]. *)
Definition open_w (fs : gmap path node) (p : path) (d : bytes) : outcome node :=
  match p with
  | [] => Raise IsADirectoryError
  | _ :: _ =>
      match fs !! p with
      | Some Dir => Raise IsADirectoryError
      | Some (File _ r w) => if w then Ok (File d r w) else Raise PermissionError
      | None =>
          if is_dir fs (parent p) then Ok (File d true true)
          else if exists_ fs (parent p) then Raise NotADirectoryError
          else Raise FileNotFoundError
      end
  end.

Definition child_name (d p : path) : option text :=
  match reverse p with
  | n :: r => if decide (reverse r = d) then Some n else None
  | [] => None
  end.

(** The names of the entries of directory [d], in no particular order. *)
Definition listdir (fs : gmap path node) (d : path) : list text :=
  if is_dir fs d then omap (child_name d) (map_to_list fs).*1 else [].

(** [d.glob('*' + ext)], as names *)
Definition glob (fs : gmap path node) (d : path) (ext : text) : list text :=
  filter (fun n => Is_true (Str.endswith n ext)) (listdir fs d).

Definition name_le (a b : text) : Prop := Is_true (Str.leb a b).

Global Instance name_le_dec a b : Decision (name_le a b).
Proof. unfold name_le. apply _. Defined.

(** [sorted(d.glob('*' + ext))], as paths *)
Definition sorted_glob (fs : gmap path node) (d : path) (ext : text) : list path :=
  (fun n => d ++ [n]) <$> merge_sort name_le (glob fs d ext).

End FS.


(** A literal of the source with characters outside ASCII: the file is
    UTF-8, so the literal reads as its decoded bytes. *)
Definition utxt (s : string) : text :=
  default [] (Utf8.decode (N_of_ascii <$> list_ascii_of_string s)).

(** ** State, exceptions and the log *)

Inductive level : Type := INFO | ERROR.

(** The messages the program logs, one constructor per call of the logger,
    with the values the message is formatted from. *)
Inductive message : Type :=
| MsgHashReadFailed (file : path) (e : exn)
| MsgChanged
| MsgUnchanged
| MsgMergeStart
| MsgMergeReadFailed (file : path) (e : exn)
| MsgMerged (output_file : path)
| MsgSplitStart
| MsgProtoFile (output_file : path) (n : nat)
| MsgOtherFile (other_file : path) (n : nat)
| MsgSplitFailed (e : exn)
| MsgBanner
| MsgStarted
| MsgTime (now : text)
| MsgSkip
| MsgProcessing
| MsgDone
| MsgRunFailed (e : exn)
| MsgReport (report_file : path).

(** The state: the file system, and the lines logged so far.  The
    handlers [setup_logging] installs print each line and append it to the
    log file; [st_log] stands for that file, and [st_fs] is the file
    system apart from it. *)
Record state : Type := State {
  st_fs : gmap path node;
  st_log : list (level * message)
}.

Definition M (A : Type) : Type := state -> outcome A * state.

Definition ret {A} (a : A) : M A := fun s => (Ok a, s).

Definition bind {A B} (m : M A) (k : A -> M B) : M B :=
  fun s => match m s with
           | (Ok a, s') => k a s'
           | (Raise e, s') => (Raise e, s')
           end.

(** [try: m except Exception as e: h e] *)
Definition try_except {A} (m : M A) (h : exn -> M A) : M A :=
  fun s => match m s with
           | (Ok a, s') => (Ok a, s')
           | (Raise e, s') => h e s'
           end.

Declare Scope run_scope.
Delimit Scope run_scope with run.
Notation "x <- m ;; k" := (bind m (fun x => k))
  (at level 100, m at next level, right associativity) : run_scope.
Notation "m ;; k" := (bind m (fun _ => k))
  (at level 100, right associativity) : run_scope.
Local Open Scope run_scope.

(** [self.logger.info(...)] and [self.logger.error(...)].  The line goes
    to the log; the file the handler appends it to is not part of [st_fs]
    (see [state]), so what is said of [st_fs] is said of the file system
    apart from the log file. *)
Definition logger (l : level) (m : message) : M unit :=
  fun s => (Ok tt, State (st_fs s) (st_log s ++ [(l, m)])).

Definition lift {A} (f : gmap path node -> outcome A) : M A :=
  fun s => (f (st_fs s), s).

(** What a node holds once [d] has been written to it. *)
Definition set_data (n : node) (d : bytes) : node :=
  match n with
  | File _ r w => File d r w
  | Dir => Dir
  end.

(** [with open(p, 'w', encoding='utf-8') as f: f.write(t)].  Opening
    creates or truncates the file; [f.write] encodes the text before any
    of it reaches the file, so a text that cannot be encoded raises and
    leaves the file empty. *)
Definition write_text (p : path) (t : text) : M unit :=
  fun s => match FS.open_w (st_fs s) p [] with
           | Ok opened =>
               match str_encode t with
               | Ok d => (Ok tt, State (<[p := set_data opened d]> (st_fs s))
                                      (st_log s))
               | Raise e => (Raise e, State (<[p := opened]> (st_fs s)) (st_log s))
               end
           | Raise e => (Raise e, s)
           end.

(** [f.read()] on a file opened in text mode: newlines are translated. *)
Definition read_text (p : path) : M text :=
  fun s => match FS.read_decoded (st_fs s) p with
           | Ok t => (Ok (concat (Str.readlines t)), s)
           | Raise e => (Raise e, s)
           end.

(** [list(f)] on a file opened in text mode: its lines. *)
Definition read_lines (p : path) : M (list text) :=
  fun s => match FS.read_decoded (st_fs s) p with
           | Ok t => (Ok (Str.readlines t), s)
           | Raise e => (Raise e, s)
           end.

(** [p.name] *)
Definition name (p : path) : text := default [] (last p).

(** [hash_obj.hexdigest()] renders the digest, two digits a byte. *)
Definition hexdigit (n : N) : N :=
  (if n mod 16 <? 10 then 48 + n mod 16 else 87 + n mod 16)%N.

Definition hexlify (d : bytes) : text :=
  flat_map (fun b => [hexdigit (b / 16); hexdigit b]%N) d.

(** The table of [split_by_protocol], in the order it is declared. *)
Definition protocols : list (text * text) :=
  [ (txt "vless", txt "vless://");
    (txt "vmess", txt "vmess://");
    (txt "trojan", txt "trojan://");
    (txt "ss", txt "ss://");
    (txt "ssr", txt "ssr://");
    (txt "http", txt "http://");
    (txt "https", txt "https://");
    (txt "socks5", txt "socks5://") ].

Definition is_nil {A} (l : list A) : bool :=
  match l with [] => true | _ :: _ => false end.

Definition get_fs : M (gmap path node) := fun s => (Ok (st_fs s), s).

(** ** The processor *)

(** [NodeProcessor]: the field the methods below read.  Loading the
    configuration files and setting up the directories and the logger is
    the constructor's work and is not part of the model of these methods
    (see [init] for the constructor). *)
Record NodeProcessor : Type := { base_dir : path }.

Global Instance level_eq_dec : EqDecision level.
Proof. solve_decision. Defined.
Global Instance exn_eq_dec : EqDecision exn.
Proof. solve_decision. Defined.
Global Instance message_eq_dec : EqDecision message.
Proof. solve_decision. Defined.

(** ** Sample file systems

    A processor on the directory [hb], next to a [nodes] directory with
    two files, as in the scenario of the specification. *)

Definition hb : NodeProcessor := {| base_dir := [txt "hb"] |}.

Definition sample_fs : gmap path node :=
  list_to_map
    [ ([txt "nodes"], Dir);
      ([txt "hb"], Dir);
      ([txt "hb"; txt "output"], Dir);
      ([txt "nodes"; txt "a.txt"],
       File (Utf8.encode (txt "VMESS://abc
# comment
")) true true);
      ([txt "nodes"; txt "b.txt"],
       File (Utf8.encode (txt "ss://def
junkline
")) true true);
      ([txt "nodes"; txt "empty.txt"], File (Utf8.encode (txt "
  ")) true true) ].

(** The same, with a vless.txt that a previous run left in the output
    directory and that cannot be written. *)
Definition locked_fs : gmap path node :=
  <[ [txt "hb"; txt "output"; txt "vless.txt"] :=
       File (Utf8.encode (txt "vless://old")) true false ]>
  (<[ [txt "nodes"; txt "c.txt"] :=
        File (Utf8.encode (txt "vless://new")) true true ]> sample_fs).

(** The same as [sample_fs], with an hb.txt that can be written and
    cannot be read. *)
Definition unreadable_fs : gmap path node :=
  <[ [txt "hb"; txt "output"; txt "hb.txt"] := File [] false true ]> sample_fs.

(** The state of the output directory after the merger has run on
    [sample_fs], with a vless.txt of a previous run. *)
Definition merged_fs : gmap path node :=
  <[ [txt "hb"; txt "output"; txt "vless.txt"] :=
       File (Utf8.encode (txt "vless://old")) true true ]>
  (<[ [txt "hb"; txt "output"; txt "hb.txt"] :=
        File (Utf8.encode (txt "# === a.txt ===
VMESS://abc
# comment

# === b.txt ===
ss://def
junkline
")) true true ]> sample_fs).

(** Stand-ins for what the runtime supplies, to run the model: a digest
    of two bytes, a lowercase table that leaves characters outside ASCII
    alone, and a reading of the clock. *)
Definition sample_digest (fed : bytes) : bytes :=
  [(N.of_nat (length fed) mod 256)%N; (foldr N.add 0%N fed mod 256)%N].

Definition ascii_only (before : text) (c : N) (rest : text) : text := [c].

Definition sample_now : text := txt "2024-01-01 00:00:00".

(** The log file when the configuration names none. *)
Definition sample_log_file (self : NodeProcessor) : path :=
  base_dir self ++ [txt "hb_processing.log"].

(** A nodes directory where the text of a.txt holds a line that reads as
    the header of b.txt. *)
Definition header_fs : gmap path node :=
  list_to_map
    [ ([txt "nodes"], Dir);
      ([txt "hb"], Dir);
      ([txt "hb"; txt "output"], Dir);
      ([txt "nodes"; txt "a.txt"],
       File (Utf8.encode (txt "ss://x
# === b.txt ===
")) true true);
      ([txt "nodes"; txt "b.txt"],
       File (Utf8.encode (txt "vmess://y
")) true true) ].

(** A file name that is not UTF-8 on disk: Python reads the byte 0xFF of
    the name as the lone surrogate U+DCFF. *)
Definition surrogate_name : text := [0xDCFF%N] ++ txt ".txt".

(** A nodes directory whose one file has that name. *)
Definition surrogate_fs : gmap path node :=
  list_to_map
    [ ([txt "nodes"], Dir);
      ([txt "hb"], Dir);
      ([txt "hb"; txt "output"], Dir);
      ([txt "nodes"; surrogate_name],
       File (Utf8.encode (txt "ss://x
")) true true) ].

(** A file system where the path of the nodes directory holds a regular
    file. *)
Definition file_fs : gmap path node :=
  list_to_map
    [ ([txt "hb"], Dir);
      ([txt "nodes"], File (Utf8.encode (txt "ss://x")) true true) ].

(** A processor directory without an output directory. *)
Definition bare_fs : gmap path node :=
  list_to_map
    [ ([txt "nodes"], Dir);
      ([txt "hb"], Dir);
      ([txt "nodes"; txt "a.txt"],
       File (Utf8.encode (txt "trojan://pw@host:443")) true true) ].

(** ** What the constructor works on

    A value the safe loader of PyYAML builds, as far as the constructor
    tells values apart: a mapping (a dict, given by its items in insertion
    order), a str, a bytes object, or a value of another type (None, a
    number, a list, a set, a date), which has none of the attributes
    [get], [items] and [startswith]. *)
#[warnings="-register-all"]
Inductive yaml : Type :=
| YMap (items : list (yaml * yaml))
| YStr (s : text)
| YBytes (b : bytes)
| YOther.

(** What stops the constructor: an exception of the file system or of the
    decoder, one of the YAML loader, FileExistsError (of mkdir), or
    AttributeError and TypeError, which the interpreter raises on a value
    of the wrong type. *)
Inductive failure : Type :=
| Os (e : exn)
| YamlFailure
| FileExistsError
| AttributeError
| TypeError.

Inductive result (A : Type) : Type :=
| Returned (a : A)
| Raised (f : failure).
Arguments Returned {A} a.
Arguments Raised {A} f.

(** The dict [load_config] returns. *)
Record config : Type := Config {
  cfg_main : yaml;
  cfg_tasks : yaml;
  cfg_triggers : yaml;
  cfg_secrets : yaml
}.

(** Stand-ins to run the constructor: a loader that knows three documents,
    a mkdir that creates the one directory, and a logging set-up that
    always succeeds. *)
Definition sample_safe_load (t : text) : option yaml :=
  if bool_decide (t = txt "directories:
  out: ./output
")
  then Some (YMap [(YStr (txt "directories"),
                    YMap [(YStr (txt "out"), YStr (txt "./output"))])])
  else if bool_decide (t = txt "logging:
  level: INFO
")
  then Some (YMap [(YStr (txt "logging"),
                    YMap [(YStr (txt "level"), YStr (txt "INFO"))])])
  else if bool_decide (t = []) then Some YOther
  else None.

Definition sample_mkdir (anchor : path) (rel : text) (s : state)
  : option failure * state :=
  (None, State (<[anchor ++ [rel] := Dir]> (st_fs s)) (st_log s)).

Definition sample_setup_logging (base : path) (c : config) (s : state)
  : option failure * state := (None, s).

(** [sample_fs] with a config.yml that lists a directory, with an empty
    config.yml, and with one that configures logging only. *)
Definition configured_fs : gmap path node :=
  <[ [txt "hb"; txt "config.yml"] :=
       File (Utf8.encode (txt "directories:
  out: ./output
")) true true ]> sample_fs.

Definition empty_config_fs : gmap path node :=
  <[ [txt "hb"; txt "config.yml"] := File [] true true ]> sample_fs.

Definition logging_config_fs : gmap path node :=
  <[ [txt "hb"; txt "config.yml"] :=
       File (Utf8.encode (txt "logging:
  level: INFO
")) true true ]> sample_fs.

Section Runner.

(** What the Python runtime supplies: [hashlib.sha256] as a function of
    all the bytes fed to it, [str.lower] on a character that is not ASCII
    (given the characters before and after it), and the rendered clock. *)
Variable sha256 : bytes -> bytes.
Variable lower_nonascii : text -> N -> text -> text.
Variable now : text.

(** The path of the log file, which [setup_logging] takes from the
    configuration ([hb_processing.log] in the base directory when it
    names none).  Every line logged is appended to it; statements on what
    a stage leaves unchanged set this path apart. *)
Variable log_file : NodeProcessor -> path.

Fixpoint lower_from (before s : text) : text :=
  match s with
  | [] => []
  | c :: r =>
      (if (c <? 128)%N then [Str.ascii_lower c] else lower_nonascii before c r)
      ++ lower_from (before ++ [c]) r
  end.

(** [s.lower()] *)
Definition lower (s : text) : text := lower_from [] s.

(** *** calculate_hash

    [fed] is what the hash object has been fed so far.  The object is
    updated in place: when the encoding of a name raises, the bytes of
    the file, fed just before, stay fed, and the handler logs the
    exception as it does for a file that cannot be read. *)

Fixpoint hash_files (files : list path) (fed : bytes) : M bytes :=
  match files with
  | [] => ret fed
  | file :: rest =>
      fed' <- (fun s =>
                 match FS.read_bytes (st_fs s) file with
                 | Ok data =>
                     match str_encode (name file) with
                     | Ok encoded => (Ok (fed ++ data ++ encoded), s)
                     | Raise e =>
                         (logger ERROR (MsgHashReadFailed file e) ;;
                          ret (fed ++ data)) s
                     end
                 | Raise e =>
                     (logger ERROR (MsgHashReadFailed file e) ;; ret fed) s
                 end) ;;
      hash_files rest fed'
  end.

Definition calculate_hash (directory : path) : M text :=
  fs <- get_fs ;;
  if negb (FS.exists_ fs directory) then ret (txt "empty")
  else
    let files :=
      flat_map (FS.sorted_glob fs directory) [txt ".txt"; txt ".yaml"; txt ".yml"] in
    fed <- hash_files files [] ;;
    ret (hexlify (sha256 fed)).

(** *** check_changes *)

Definition nodes_dir (self : NodeProcessor) : path :=
  parent (base_dir self) ++ [txt "nodes"].
Definition hash_file (self : NodeProcessor) : path :=
  base_dir self ++ [txt ".last_hash"].
Definition output_dir (self : NodeProcessor) : path :=
  base_dir self ++ [txt "output"].

Definition check_changes (self : NodeProcessor) : M (bool * text) :=
  current_hash <- calculate_hash (nodes_dir self) ;;
  fs <- get_fs ;;
  last_hash <- (if FS.exists_ fs (hash_file self)
                then (t <- read_text (hash_file self) ;; ret (Some (Str.strip t)))
                else ret None) ;;
  write_text (hash_file self) current_hash ;;
  let has_changes :=
    match last_hash with
    | None => true
    | Some h => negb (bool_decide (h = current_hash))
    end in
  (if has_changes then logger INFO MsgChanged else logger INFO MsgUnchanged) ;;
  ret (has_changes, current_hash).

(** *** merge_files *)

Definition provenance (file_name : text) : text :=
  txt "# === " ++ file_name ++ txt " ===".

Fixpoint merge_loop (txt_files : list path) (merged_content : list text)
  : M (list text) :=
  match txt_files with
  | [] => ret merged_content
  | txt_file :: rest =>
      merged_content' <-
        try_except
          (t <- read_text txt_file ;;
           let content := Str.strip t in
           ret (if is_nil content then merged_content
                else merged_content ++ [provenance (name txt_file); content; []]))
          (fun e => logger ERROR (MsgMergeReadFailed txt_file e) ;;
                    ret merged_content) ;;
      merge_loop rest merged_content'
  end.

Definition merge_files (self : NodeProcessor) : M path :=
  logger INFO MsgMergeStart ;;
  fs <- get_fs ;;
  let txt_files := FS.sorted_glob fs (nodes_dir self) (txt ".txt") in
  merged_content <- merge_loop txt_files [] ;;
  let output_file := output_dir self ++ [txt "hb.txt"] in
  write_text output_file (Str.join NL merged_content) ;;
  logger INFO (MsgMerged output_file) ;;
  ret output_file.

(** *** split_by_protocol *)

(** The inner loop: the first entry of the table whose prefix the
    lowercased line starts with. *)
Definition match_protocol (line : text) : option text :=
  fst <$> List.find (fun e => Str.startswith (lower line) (snd e)) protocols.

(** [{key: [] for key in protocols.keys()}] *)
Definition empty_content : gmap text (list text) :=
  list_to_map ((fun e => (fst e, [])) <$> protocols).

(** The body of the loop over the lines of the file. *)
Definition classify_line (acc : gmap text (list text) * list text) (raw : text)
  : gmap text (list text) * list text :=
  let line := Str.strip raw in
  if is_nil line || Str.startswith line (txt "#") then acc
  else match match_protocol line with
       | Some proto => (alter (fun l => l ++ [line]) proto (fst acc), snd acc)
       | None => (fst acc, snd acc ++ [line])
       end.

Definition classify (lines : list text) : gmap text (list text) * list text :=
  foldl classify_line (empty_content, []) lines.

(** The loop over [protocol_content.items()]; a dict keeps the order its
    keys were inserted in, which is the order of the table. *)
Fixpoint write_protocols (out : path) (protocol_content : gmap text (list text))
  (protos : list text) : M unit :=
  match protos with
  | [] => ret tt
  | proto :: rest =>
      let lines := default [] (protocol_content !! proto) in
      (if is_nil lines then ret tt
       else
         let output_file := out ++ [proto ++ txt ".txt"] in
         write_text output_file (Str.join NL lines) ;;
         logger INFO (MsgProtoFile output_file (length lines))) ;;
      write_protocols out protocol_content rest
  end.

(** The second half of the [try] block: one file for each protocol that
    has lines, then [other.txt] if any line matched no protocol. *)
Definition write_buckets (self : NodeProcessor)
  (protocol_content : gmap text (list text)) (others : list text) : M unit :=
  write_protocols (output_dir self) protocol_content (fst <$> protocols) ;;
  if is_nil others then ret tt
  else
    let other_file := output_dir self ++ [txt "other.txt"] in
    write_text other_file (Str.join NL others) ;;
    logger INFO (MsgOtherFile other_file (length others)).

Definition split_by_protocol (self : NodeProcessor) (input_file : path) : M unit :=
  logger INFO MsgSplitStart ;;
  try_except
    (lines <- read_lines input_file ;;
     write_buckets self (fst (classify lines)) (snd (classify lines)))
    (fun e => logger ERROR (MsgSplitFailed e)).

(** *** generate_report *)

Definition decimal (n : nat) : text := txt (pretty (N.of_nat n)).

Definition report_header (n_input n_output : nat) : text :=
  utxt "# 节点处理报告

## 基本信息
- 生成时间: " ++ now ++ utxt "
- 系统版本: 1.0.0
- 状态: 完成

## 文件统计
| 文件类型 | 数量 | 说明 |
|---------|------|------|
| 输入文件 | " ++ decimal n_input ++ utxt " | 节点文件 |
| 输出文件 | " ++ decimal n_output ++ utxt " | 处理结果 |

## 输出文件列表
".

Definition report_entry (file : path) (line_count : nat) : text :=
  utxt "- `" ++ name file ++ utxt "`: " ++ decimal line_count ++ utxt " 行
".

(** The loop over the output files: what has been written to the report
    when the loop ends, and the exception that ended it, if any.  The
    line of a file is made of literals, a decimal number and the name of
    the file: [f.write] raises on it when the name cannot be encoded. *)
Fixpoint report_files (fs : gmap path node) (files : list path) (written : text)
  : text * option exn :=
  match files with
  | [] => (written, None)
  | file :: rest =>
      match FS.read_decoded fs file with
      | Ok t =>
          let line_count :=
            length (List.filter (fun l => negb (is_nil (Str.strip l)))
                                (Str.readlines t)) in
          if encodable (name file)
          then report_files fs rest (written ++ report_entry file line_count)
          else (written, Some UnicodeEncodeError)
      | Raise e => (written, Some e)
      end
  end.

(** The report is opened first, so it is created or truncated before
    anything is counted; what [f.write] has accepted when the loop ends or
    raises reaches the file when [with] closes it.  The header is made of
    literals, two decimal numbers and the rendered clock (digits and
    punctuation), which [f.write] encodes without fail. *)
Definition generate_report (self : NodeProcessor) : M unit :=
  fun s =>
    let report_file := output_dir self ++ [txt "REPORT.md"] in
    match FS.open_w (st_fs s) report_file [] with
    | Raise e => (Raise e, s)
    | Ok opened =>
        let fs1 := <[report_file := opened]> (st_fs s) in
        let header :=
          report_header (length (FS.glob fs1 (nodes_dir self) (txt ".txt")))
                        (length (FS.glob fs1 (output_dir self) (txt ".txt"))) in
        let files := FS.sorted_glob fs1 (output_dir self) (txt ".txt") in
        let result := report_files fs1 files header in
        let closed :=
          State (<[report_file := set_data opened (Utf8.encode (fst result))]> fs1)
                (st_log s) in
        match snd result with
        | Some e => (Raise e, closed)
        | None => logger INFO (MsgReport report_file) closed
        end
    end.

(** *** run *)

Definition run (self : NodeProcessor) (force : bool) : M bool :=
  logger INFO MsgBanner ;;
  logger INFO MsgStarted ;;
  logger INFO (MsgTime now) ;;
  logger INFO MsgBanner ;;
  changes <- check_changes self ;;
  if negb (fst changes) && negb force then
    logger INFO MsgSkip ;;
    ret false
  else
    logger INFO MsgProcessing ;;
    try_except
      (merged_file <- merge_files self ;;
       split_by_protocol self merged_file ;;
       generate_report self ;;
       logger INFO MsgDone ;;
       ret true)
      (fun e => logger ERROR (MsgRunFailed e) ;; ret false).

(** *** main

    The arguments are those [argparse] has parsed.  The result is the exit
    status of the process: [sys.exit(0 if success else 1)], and status 1 as
    well when an exception leaves [run], which ends the interpreter. *)
Definition main (force : bool) (config : path) : state -> N * state :=
  fun s =>
    let processor := {| base_dir := config |} in
    match run processor force s with
    | (Ok success, s') => (if success then 0%N else 1%N, s')
    | (Raise _, s') => (1%N, s')
    end.

(** *** The buckets of the classifier

    The classifier keeps nine lists: one for each protocol of the table,
    held in [protocol_content], and [others].  [bucket lines (Some proto)]
    and [bucket lines None] name them. *)

(** A trimmed line the loop does not skip: not blank and not a comment. *)
Definition kept (line : text) : bool :=
  negb (is_nil line || Str.startswith line (txt "#")).

Definition bucket (lines : list text) (b : option text) : list text :=
  match b with
  | Some proto => default [] (fst (classify lines) !! proto)
  | None => snd (classify lines)
  end.

Definition bucket_ids : list (option text) :=
  ((fun e => Some (fst e)) <$> protocols) ++ [None].

(** The trimmed lines of a document that the loop does not skip, in the
    order of the document. *)
Definition entries (lines : list text) : list text :=
  filter (fun l => kept l = true) (Str.strip <$> lines).

(** *** The value of the fingerprint

    [calculate_hash] reads the file system and changes only the log; the
    definitions below give the value it returns as a function of the file
    system. *)

Definition file_data (fs : gmap path node) (p : path) : option bytes :=
  match fs !! p with
  | Some (File d _ _) => Some d
  | _ => None
  end.

(** What the loop of [calculate_hash] feeds to the hash for a list of
    files: the bytes of each file that can be read, and its name when the
    name can be encoded. *)
Definition hash_input (fs : gmap path node) (files : list path) : bytes :=
  flat_map (fun file => match FS.read_bytes fs file with
                        | Ok d => d ++ match str_encode (name file) with
                                       | Ok encoded => encoded
                                       | Raise _ => []
                                       end
                        | Raise _ => []
                        end) files.

Definition hashed_files (fs : gmap path node) (directory : path) : list path :=
  flat_map (FS.sorted_glob fs directory) [txt ".txt"; txt ".yaml"; txt ".yml"].

Definition fingerprint (fs : gmap path node) (directory : path) : text :=
  if FS.exists_ fs directory
  then hexlify (sha256 (hash_input fs (hashed_files fs directory)))
  else txt "empty".

(** A text of ASCII characters none of which is white space, such as a
    fingerprint. *)
Definition plain (t : text) : Prop :=
  Forall (fun c => (c < 128)%N /\ Str.isspace c = false) t.

(** Whether the marker differs from the fingerprint: the comparison of
    [check_changes]. *)
Definition differs (last_hash : option text) (current_hash : text) : bool :=
  match last_hash with
  | None => true
  | Some h => negb (bool_decide (h = current_hash))
  end.

Definition is_ok {A} (o : outcome A) : bool :=
  match o with Ok _ => true | Raise _ => false end.

(** What [check_changes] reads from the marker: nothing when the path does
    not exist, the trimmed text of the file otherwise. *)
Definition read_marker (fs : gmap path node) (p : path) : outcome (option text) :=
  if FS.exists_ fs p then
    match FS.read_decoded fs p with
    | Ok t => Ok (Some (Str.strip (concat (Str.readlines t))))
    | Raise e => Raise e
    end
  else Ok None.

(** *** The blocks of the merged document *)

(** The trimmed text [merge_files] gets from a file it can read. *)
Definition trimmed_content (fs : gmap path node) (file : path) : option text :=
  match FS.read_decoded fs file with
  | Ok t => Some (Str.strip (concat (Str.readlines t)))
  | Raise _ => None
  end.

(** A file adds a block to the merged document when it can be read and its
    trimmed text is not empty. *)
Definition contributes (fs : gmap path node) (file : path) : bool :=
  match trimmed_content fs file with
  | Some (_ :: _) => true
  | _ => false
  end.

(** The three items a file adds to [merged_content]. *)
Definition block (fs : gmap path node) (file : path) : list text :=
  [provenance (name file); default [] (trimmed_content fs file); []].

Definition merged_files (fs : gmap path node) (self : NodeProcessor) : list path :=
  filter (fun file => contributes fs file = true)
         (FS.sorted_glob fs (nodes_dir self) (txt ".txt")).

Definition hb_file (self : NodeProcessor) : path := output_dir self ++ [txt "hb.txt"].

(** The file of a bucket in the output directory. *)
Definition bucket_file (self : NodeProcessor) (b : option text) : path :=
  output_dir self ++ [match b with
                      | Some proto => proto ++ txt ".txt"
                      | None => txt "other.txt"
                      end].

(** *** The stages of a run *)

Definition log_entry (s : state) (l : level) (m : message) : state :=
  State (st_fs s) (st_log s ++ [(l, m)]).

(** The state in which [run] calls [check_changes]: the four lines of the
    banner are in the log. *)
Definition started (s : state) : state :=
  State (st_fs s)
        (st_log s ++ [(INFO, MsgBanner); (INFO, MsgStarted);
                      (INFO, MsgTime now); (INFO, MsgBanner)]).

(** *** The files a run writes *)

Definition report_file (self : NodeProcessor) : path :=
  output_dir self ++ [txt "REPORT.md"].

(** The marker, the merged document, the report and the nine files of the
    buckets. *)
Definition run_files (self : NodeProcessor) : list path :=
  hash_file self :: hb_file self :: report_file self
  :: (bucket_file self <$> bucket_ids).

(** The text [merge_files] writes, as a function of the file system. *)
Definition merged_document (fs : gmap path node) (self : NodeProcessor) : text :=
  Str.join NL (flat_map (block fs) (merged_files fs self)).

(** The number [generate_report] prints for a file: its lines that are not
    blank. *)
Definition line_count (t : text) : nat :=
  length (List.filter (fun l => negb (is_nil (Str.strip l))) (Str.readlines t)).

(** What [generate_report] has written when it closes the report, and the
    exception that ended the loop over the output files, if any. *)
Definition report_result (fs : gmap path node) (self : NodeProcessor)
  : text * option exn :=
  report_files fs (FS.sorted_glob fs (output_dir self) (txt ".txt"))
    (report_header (length (FS.glob fs (nodes_dir self) (txt ".txt")))
                   (length (FS.glob fs (output_dir self) (txt ".txt")))).

(** The count the report prints for a file of the output directory. *)
Definition counted (fs : gmap path node) (file : path) : nat :=
  match FS.read_decoded fs file with
  | Ok t => line_count t
  | Raise _ => 0
  end.

(** What [calculate_hash] can see of an entry of the directory: nothing
    when there is no entry, an entry it cannot read (a directory, a file
    without read permission), or the bytes of a file. *)
Definition hash_view (entry : option node) : option (option bytes) :=
  match entry with
  | None => None
  | Some Dir => Some None
  | Some (File d r _) => Some (if r then Some d else None)
  end.

(** Whether a path exists and whether it is a directory. *)
Definition kind_of (entry : option node) : option bool :=
  match entry with
  | None => None
  | Some Dir => Some true
  | Some (File _ _ _) => Some false
  end.

(** A character that ends a line when a file is read. *)
Definition is_break (c : N) : bool := (c =? 10)%N || (c =? 13)%N.

(** A text on one line. *)
Definition one_line (t : text) : Prop := Forall (fun c => is_break c = false) t.

(** A text made of white space only. *)
Definition blank (t : text) : Prop := Forall (fun c => Str.isspace c = true) t.

(** A text in which no carriage return is left, as [f.read()] returns it. *)
Definition translated (t : text) : Prop := Forall (fun c => c <> 13%N) t.

(** The lines a loop over a file opened as text would get; none when the
    file cannot be read. *)
Definition file_lines (fs : gmap path node) (file : path) : list text :=
  match FS.read_decoded fs file with
  | Ok t => Str.readlines t
  | Raise _ => []
  end.

(** *** The constructor

    [__init__] loads the configuration, creates the configured
    directories, sets up logging and only then binds [self.logger].  The
    YAML loader, [Path.mkdir] and the set-up of the logging module are
    supplied from outside: [safe_load] gives the value of a document (none
    when the loader raises), [mkdir anchor rel] is
    [(anchor / rel).mkdir(parents=True, exist_ok=True)], and
    [setup_logging] is the method of that name. *)
Variable safe_load : text -> option yaml.
Variable mkdir : path -> text -> state -> option failure * state.
Variable setup_logging : path -> config -> state -> option failure * state.

Definition C (A : Type) : Type := state -> result A * state.

Definition and_then {A B} (m : C A) (k : A -> C B) : C B :=
  fun s => match m s with
           | (Returned a, s') => k a s'
           | (Raised f, s') => (Raised f, s')
           end.

(** One round of the loop of [load_config]. *)
Definition load_file (base_dir : path) (filename : text) : C yaml :=
  fun s =>
    let filepath := base_dir ++ [filename] in
    if FS.exists_ (st_fs s) filepath then
      match read_text filepath s with
      | (Ok t, s') =>
          match safe_load t with
          | Some v => (Returned v, s')
          | None => (Raised YamlFailure, s')
          end
      | (Raise e, s') => (Raised (Os e), s')
      end
    else (Returned (YMap []), s).

Definition load_config (base_dir : path) : C config :=
  and_then (load_file base_dir (txt "config.yml")) (fun main =>
  and_then (load_file base_dir (txt "tasks.yml")) (fun tasks =>
  and_then (load_file base_dir (txt "triggers.yml")) (fun triggers =>
  and_then (load_file base_dir (txt "secrets.yml")) (fun secrets =>
  fun s => (Returned (Config main tasks triggers secrets), s))))).

(** [d.get(key, default)] on the items of a dict, for a key that is a
    str. *)
Definition dict_get (items : list (yaml * yaml)) (key : text) (default : yaml)
  : yaml :=
  match List.find (fun e => match fst e with
                            | YStr k => bool_decide (k = key)
                            | _ => false
                            end) items with
  | Some e => snd e
  | None => default
  end.

(** The path of a configured directory: the anchor, and the text joined
    to it. *)
Definition full_path (base_dir : path) (rel_path : text) : path * text :=
  if Str.startswith rel_path (txt "./") then (base_dir, drop 2 rel_path)
  else if Str.startswith rel_path (txt "../") then (parent base_dir, drop 3 rel_path)
  else (base_dir, rel_path).

(** The loop of [init_directories].  [logger] is the attribute
    [self.logger]: nothing while it is not bound, and otherwise what its
    [info] method does with the path it is given. *)
Fixpoint make_directories (base_dir : path)
    (logger : option (path * text -> state -> state))
    (dirs : list (yaml * yaml)) : C unit :=
  match dirs with
  | [] => fun s => (Returned tt, s)
  | (key, rel_path) :: rest =>
      fun s =>
        match rel_path with
        | YStr r =>
            let target := full_path base_dir r in
            match mkdir (fst target) (snd target) s with
            | (Some f, s1) => (Raised f, s1)
            | (None, s1) =>
                match logger with
                | None => (Raised AttributeError, s1)
                | Some info => make_directories base_dir logger rest (info target s1)
                end
            end
        | YBytes _ => (Raised TypeError, s)
        | YMap _ | YOther => (Raised AttributeError, s)
        end
  end.

Definition init_directories (base_dir : path) (c : config)
    (logger : option (path * text -> state -> state)) : C unit :=
  fun s =>
    match cfg_main c with
    | YMap main =>
        match dict_get main (txt "directories") (YMap []) with
        | YMap dirs => make_directories base_dir logger dirs s
        | YStr _ | YBytes _ | YOther => (Raised AttributeError, s)
        end
    | YStr _ | YBytes _ | YOther => (Raised AttributeError, s)
    end.

(** [NodeProcessor(config_dir)]: [init_directories] runs before
    [self.logger] is bound. *)
Definition init (config_dir : path) : C NodeProcessor :=
  and_then (load_config config_dir) (fun c =>
  and_then (init_directories config_dir c None) (fun _ =>
  fun s => match setup_logging config_dir c s with
           | (Some f, s') => (Raised f, s')
           | (None, s') => (Returned {| base_dir := config_dir |}, s')
           end)).

(** The program from the parsed arguments on, constructor included: an
    exception that leaves the constructor ends the process with
    status 1. *)
Definition start (force : bool) (config_dir : path) : state -> N * state :=
  fun s =>
    match init config_dir s with
    | (Returned processor, s') => main force (base_dir processor) s'
    | (Raised _, s') => (1%N, s')
    end.

(** What line 51 binds [dirs] to: the items of the mapping under
    [directories] of the main configuration, none without that key; and
    nothing when the line raises, the main configuration or the entry
    being no mapping. *)
Definition directories (main : yaml) : option (list (yaml * yaml)) :=
  match main with
  | YMap m =>
      match dict_get m (txt "directories") (YMap []) with
      | YMap dirs => Some dirs
      | _ => None
      end
  | _ => None
  end.

(** *** Running again

    The writes of the classifier, as a list of paths and contents in the
    order of the buckets, and what performing them in order does: the
    first that fails ends the list. *)
Fixpoint write_all (writes : list (path * bytes)) (fs : gmap path node)
  : option exn * gmap path node :=
  match writes with
  | [] => (None, fs)
  | (p, d) :: rest =>
      match FS.open_w fs p d with
      | Ok n => write_all rest (<[p := n]> fs)
      | Raise e => (Some e, fs)
      end
  end.

Definition writes_of (self : NodeProcessor) (lines : list text)
    (ids : list (option text)) : list (path * bytes) :=
  flat_map (fun b => if is_nil (bucket lines b) then []
                     else [(bucket_file self b,
                            Utf8.encode (Str.join NL (bucket lines b)))])
           ids.

Definition bucket_writes (self : NodeProcessor) (lines : list text)
  : list (path * bytes) := writes_of self lines bucket_ids.

(** How the reporter ends on a file system, whatever the clock reads. *)
Definition report_outcome (fs : gmap path node) (self : NodeProcessor)
  : outcome unit :=
  match FS.open_w fs (report_file self) [] with
  | Raise e => Raise e
  | Ok opened =>
      let fs1 := <[report_file self := opened]> fs in
      match snd (report_files fs1
                   (FS.sorted_glob fs1 (output_dir self) (txt ".txt")) []) with
      | Some e => Raise e
      | None => Ok tt
      end
  end.

(** *** The log of the merger

    The lines the merger logs for the files it cannot read. *)
Definition read_errors (fs : gmap path node) (files : list path)
  : list (level * message) :=
  flat_map (fun file => match FS.read_decoded fs file with
                        | Ok _ => []
                        | Raise e => [(ERROR, MsgMergeReadFailed file e)]
                        end) files.

(** *** The lines of the merged document

    [t.split('\n')]: the lines of a text, without their terminators. *)
Fixpoint split_from (cur s : text) : list text :=
  match s with
  | [] => [cur]
  | c :: r => if (c =? 10)%N then cur :: split_from [] r
              else split_from (cur ++ [c]) r
  end.

Definition split_nl (t : text) : list text := split_from [] t.

(** How many lines of a document are the provenance header of a file. *)
Definition header_count (document : text) (file : path) : nat :=
  length (filter (fun l => l = provenance (name file)) (split_nl document)).

(** ** Lists *)

Lemma filter_none {A} (P : A -> Prop) `{!forall x, Decision (P x)} (l : list A) :
  (forall x, x ∈ l -> ~ P x) -> filter P l = [].
Proof.
  induction l as [|x l IH]; intros Hall; [done|].
  rewrite filter_cons_False by (apply Hall; left).
  apply IH. intros y Hy. apply Hall. by right.
Qed.

(** Filtering a list by the value of a function, once for each value of a
    list without repeats that covers the values taken, splits the list. *)
Lemma concat_filter_by {A B} `{EqDecision B} (h : A -> B) (ids : list B) :
  NoDup ids ->
  forall l : list A,
    (forall x, x ∈ l -> h x ∈ ids) ->
    concat ((fun b => filter (fun x => h x = b) l) <$> ids) ≡ₚ l.
Proof.
  induction 1 as [|b ids Hb Hnd IH]; intros l Hl.
  - destruct l as [|x l]; [done|]. specialize (Hl x (list_elem_of_here _ _)).
    by apply elem_of_nil in Hl.
  - rewrite fmap_cons. simpl.
    etrans; [|apply (filter_app_complement (fun x => h x = b) l)].
    apply Permutation_app_head.
    etrans; [|apply (IH (filter (fun x => ~ h x = b) l))].
    + apply reflexive_eq. f_equal. apply list_fmap_ext.
      intros i b' Hb'%list_elem_of_lookup_2.
      rewrite list_filter_filter. apply list_filter_iff. intros x. split.
      * intros ->. split; [done|]. by intros ->.
      * by intros [? _].
    + intros x Hx. apply list_elem_of_filter in Hx as [Hne Hx].
      specialize (Hl x Hx). apply elem_of_cons in Hl as [?|?]; [done|done].
Qed.

Lemma flat_map_ext_elem {A B} (f g : A -> list B) (l : list A) :
  (forall x, x ∈ l -> f x = g x) -> flat_map f l = flat_map g l.
Proof.
  induction l as [|x l IH]; intros Hfg; [done|]. simpl.
  rewrite (Hfg x) by left. rewrite IH; [done|].
  intros y Hy. apply Hfg. by right.
Qed.

Lemma NoDup_omap {A B} (f : A -> option B) (l : list A) :
  NoDup l ->
  (forall x y z, x ∈ l -> y ∈ l -> f x = Some z -> f y = Some z -> x = y) ->
  NoDup (omap f l).
Proof.
  induction 1 as [|x l Hx Hnd IH]; intros Hinj; [constructor|].
  simpl. destruct (f x) as [z|] eqn:Hfx.
  - constructor.
    + intros Hz. apply list_elem_of_omap in Hz as [y [Hy Hfy]].
      assert (x = y) as -> by (eapply Hinj; [left|by right|done|done]). done.
    + apply IH. intros a b c Ha Hb. apply Hinj; by right.
  - apply IH. intros a b c Ha Hb. apply Hinj; by right.
Qed.

(** ** The order of names *)

Lemma leb_total a : forall b, Str.leb a b = true \/ Str.leb b a = true.
Proof.
  induction a as [|x a IH]; intros [|y b]; simpl; auto.
  destruct (N.ltb_spec x y); [by left|].
  destruct (N.ltb_spec y x); [by right|].
  assert (x = y) as -> by lia. rewrite N.eqb_refl. simpl. apply IH.
Qed.

Lemma leb_trans a : forall b c,
  Str.leb a b = true -> Str.leb b c = true -> Str.leb a c = true.
Proof.
  induction a as [|x a IH]; intros [|y b] [|z c]; simpl; try done.
  intros Hab Hbc.
  apply orb_true_iff in Hab as [Hab|Hab], Hbc as [Hbc|Hbc];
    try apply andb_true_iff in Hab as [Hxy Hab];
    try apply andb_true_iff in Hbc as [Hyz Hbc];
    repeat match goal with
           | H : (_ <? _)%N = true |- _ => apply N.ltb_lt in H
           | H : (_ =? _)%N = true |- _ => apply N.eqb_eq in H
           end; subst.
  - apply orb_true_iff. left. apply N.ltb_lt. lia.
  - apply orb_true_iff. left. by apply N.ltb_lt.
  - apply orb_true_iff. left. by apply N.ltb_lt.
  - apply orb_true_iff. right. rewrite N.eqb_refl. simpl. by eapply IH.
Qed.

Lemma leb_antisym a : forall b,
  Str.leb a b = true -> Str.leb b a = true -> a = b.
Proof.
  induction a as [|x a IH]; intros [|y b]; simpl; try done.
  intros Hab Hba.
  apply orb_true_iff in Hab as [Hab|Hab], Hba as [Hba|Hba];
    try apply andb_true_iff in Hab as [Hxy Hab];
    try apply andb_true_iff in Hba as [Hyx Hba];
    repeat match goal with
           | H : (_ <? _)%N = true |- _ => apply N.ltb_lt in H
           | H : (_ =? _)%N = true |- _ => apply N.eqb_eq in H
           end; subst; try lia.
  f_equal. by apply IH.
Qed.

Global Instance name_le_total : Total FS.name_le.
Proof.
  intros a b. unfold FS.name_le.
  destruct (leb_total a b) as [->| ->]; [by left|by right].
Qed.

Global Instance name_le_trans : Transitive FS.name_le.
Proof.
  intros a b c. unfold FS.name_le. rewrite !Is_true_true. apply leb_trans.
Qed.

Global Instance name_le_antisym : AntiSymm (=) FS.name_le.
Proof.
  intros a b. unfold FS.name_le. rewrite !Is_true_true. apply leb_antisym.
Qed.

(** ** Sequencing *)

Lemma bind_Ok {A B} (m : M A) (k : A -> M B) s a s' :
  m s = (Ok a, s') -> bind m k s = k a s'.
Proof. intros H. unfold bind. by rewrite H. Qed.

Lemma bind_Raise {A B} (m : M A) (k : A -> M B) s e s' :
  m s = (Raise e, s') -> bind m k s = (Raise e, s').
Proof. intros H. unfold bind. by rewrite H. Qed.

Lemma try_except_Ok {A} (m : M A) (h : exn -> M A) s a s' :
  m s = (Ok a, s') -> try_except m h s = (Ok a, s').
Proof. intros H. unfold try_except. by rewrite H. Qed.

Lemma try_except_Raise {A} (m : M A) (h : exn -> M A) s e s' :
  m s = (Raise e, s') -> try_except m h s = h e s'.
Proof. intros H. unfold try_except. by rewrite H. Qed.

(** ** Strings *)

Lemma startswith_comparable s : forall p q,
  Str.startswith s p = true -> Str.startswith s q = true ->
  Str.startswith p q = true \/ Str.startswith q p = true.
Proof.
  induction s as [|d s IH]; intros [|c p] [|c' q] Hp Hq; simpl in *;
    try discriminate; auto.
  apply andb_true_iff in Hp as [Hc Hp]. apply andb_true_iff in Hq as [Hc' Hq].
  apply N.eqb_eq in Hc, Hc'. subst.
  rewrite !N.eqb_refl. simpl. by apply IH.
Qed.

Lemma startswith_app p : forall r, Str.startswith (p ++ r) p = true.
Proof.
  induction p as [|c p IH]; intros r; [done|]. simpl.
  by rewrite N.eqb_refl, IH.
Qed.

Lemma rstrip_cons_nonspace c r :
  Str.isspace c = false -> Str.rstrip (c :: r) = c :: Str.rstrip r.
Proof.
  intros Hc. unfold Str.rstrip. simpl.
  destruct (foldr _ [] r); [by rewrite Hc|done].
Qed.

(** ** Properties of the classifier *)

Lemma classify_line_skip acc raw :
  kept (Str.strip raw) = false -> classify_line acc raw = acc.
Proof.
  unfold kept, classify_line. intros H.
  destruct (is_nil (Str.strip raw) || Str.startswith (Str.strip raw) (txt "#")); [done|discriminate].
Qed.

Lemma classify_line_keep acc raw :
  kept (Str.strip raw) = true ->
  classify_line acc raw =
    match match_protocol (Str.strip raw) with
    | Some proto => (alter (fun l => l ++ [Str.strip raw]) proto (fst acc), snd acc)
    | None => (fst acc, snd acc ++ [Str.strip raw])
    end.
Proof.
  unfold kept, classify_line. intros H.
  destruct (is_nil (Str.strip raw) || Str.startswith (Str.strip raw) (txt "#")); [discriminate|done].
Qed.

Lemma entries_cons raw lines :
  entries (raw :: lines) =
    if kept (Str.strip raw) then Str.strip raw :: entries lines else entries lines.
Proof.
  unfold entries. rewrite fmap_cons, filter_cons.
  destruct (kept (Str.strip raw)); case_decide; congruence.
Qed.

Lemma foldl_classify_line lines : forall acc,
  (forall p, fst (foldl classify_line acc lines) !! p =
     (fun old => old ++ filter (fun l => match_protocol l = Some p) (entries lines))
       <$> fst acc !! p)
  /\ snd (foldl classify_line acc lines) =
       snd acc ++ filter (fun l => match_protocol l = None) (entries lines).
Proof.
  induction lines as [|raw lines IH]; intros acc; simpl.
  - split.
    + intros p. unfold entries. simpl. rewrite filter_nil.
      destruct (fst acc !! p); simpl; [by rewrite app_nil_r|done].
    + unfold entries. simpl. by rewrite filter_nil, app_nil_r.
  - destruct (IH (classify_line acc raw)) as [IH1 IH2].
    rewrite entries_cons.
    destruct (kept (Str.strip raw)) eqn:Hk.
    + rewrite classify_line_keep in * by done.
      destruct (match_protocol (Str.strip raw)) as [proto|] eqn:Hm; simpl in *.
      * split.
        -- intros p. rewrite IH1, lookup_alter.
           rewrite filter_cons. case_decide as Hp; case_decide as Hq; subst; simplify_eq.
           ++ destruct (fst acc !! p); simpl; [|done]. by rewrite <- app_assoc.
           ++ done.
        -- rewrite IH2. rewrite filter_cons_False by congruence. done.
      * split.
        -- intros p. rewrite IH1. rewrite filter_cons_False by congruence. done.
        -- rewrite IH2. rewrite filter_cons_True by done. by rewrite <- app_assoc.
    + rewrite classify_line_skip in * by done. by split.
Qed.

Lemma match_protocol_Some line proto :
  match_protocol line = Some proto ->
  exists prefix, (proto, prefix) ∈ protocols
                 /\ Str.startswith (lower line) prefix = true.
Proof.
  unfold match_protocol. generalize protocols as tbl. intros tbl H.
  destruct (List.find _ tbl) as [[p q]|] eqn:Hf; [|discriminate].
  injection H as ->. apply find_some in Hf as [Hin Hs]. exists q.
  split; [|done]. by apply list_elem_of_In.
Qed.

Lemma empty_content_lookup p :
  empty_content !! p = None \/ empty_content !! p = Some [].
Proof.
  unfold empty_content. generalize protocols as tbl. intros tbl.
  destruct (_ !! p) as [l|] eqn:H; [right|by left].
  apply elem_of_list_to_map_2 in H.
  apply list_elem_of_fmap in H as [e [He _]]. by simplify_eq.
Qed.

Lemma empty_content_None p line :
  empty_content !! p = None -> match_protocol line <> Some p.
Proof.
  intros Hn Hm. apply match_protocol_Some in Hm as [prefix [Hin _]].
  revert Hn Hin. unfold empty_content. generalize protocols as tbl.
  intros tbl Hn Hin.
  apply not_elem_of_list_to_map in Hn. apply Hn.
  rewrite <- list_fmap_compose. apply list_elem_of_fmap.
  exists (p, prefix). by split.
Qed.

(** Each bucket holds the kept lines the inner loop sends to it, in the
    order of the document. *)
Lemma bucket_filter lines b :
  bucket lines b = filter (fun l => match_protocol l = b) (entries lines).
Proof.
  destruct (foldl_classify_line lines (empty_content, [])) as [H1 H2].
  destruct b as [p|]; unfold bucket, classify; cbn [fst snd] in *.
  - rewrite H1. destruct (empty_content_lookup p) as [Hn|Hs].
    + rewrite Hn. simpl. symmetry. apply filter_none.
      intros l _. by apply empty_content_None.
    + rewrite Hs. reflexivity.
  - rewrite H2. simpl. by apply list_filter_iff.
Qed.

Lemma bucket_ids_NoDup : NoDup bucket_ids.
Proof. apply (bool_decide_unpack _). by vm_compute. Qed.

Lemma match_protocol_bucket_id line : match_protocol line ∈ bucket_ids.
Proof.
  unfold bucket_ids. apply elem_of_app.
  destruct (match_protocol line) as [p|] eqn:Hm.
  - left. apply match_protocol_Some in Hm as [prefix [Hin _]].
    apply list_elem_of_fmap. by exists (p, prefix).
  - right. apply list_elem_of_singleton. done.
Qed.

Lemma elem_of_entries lines l :
  l ∈ entries lines <-> kept l = true /\ exists raw, raw ∈ lines /\ l = Str.strip raw.
Proof.
  unfold entries. rewrite list_elem_of_filter, list_elem_of_fmap.
  split; intros [Hk [raw [H1 H2]]]; (split; [done|]); exists raw; by split.
Qed.

Lemma elem_of_bucket lines b l :
  l ∈ bucket lines b <-> match_protocol l = b /\ l ∈ entries lines.
Proof.
  rewrite bucket_filter.
  apply (list_elem_of_filter (fun l => match_protocol l = b)).
Qed.

(** C1. For every merged document, every line that is not blank after
    trimming and is not a comment is placed in exactly one of the nine
    buckets (eight protocols and others); a line that is blank after
    trimming or a comment is placed in none; each bucket keeps the order of
    the document; and the buckets together hold each kept line as often as
    the document has it. *)
Theorem split_by_protocol_partition (doc : text) :
  let lines := Str.readlines doc in
  (forall raw, raw ∈ lines -> kept (Str.strip raw) = true ->
     exists b, b ∈ bucket_ids /\ Str.strip raw ∈ bucket lines b
               /\ forall b', Str.strip raw ∈ bucket lines b' -> b' = b)
  /\ (forall raw, raw ∈ lines -> kept (Str.strip raw) = false ->
        forall b, Str.strip raw ∉ bucket lines b)
  /\ (forall b, bucket lines b `sublist_of` (Str.strip <$> lines))
  /\ concat (bucket lines <$> bucket_ids) ≡ₚ entries lines.
Proof.
  intros lines. repeat split.
  - intros raw Hraw Hk. exists (match_protocol (Str.strip raw)).
    split; [apply match_protocol_bucket_id|]. split.
    + apply elem_of_bucket. split; [done|].
      apply elem_of_entries. split; [done|]. by exists raw.
    + intros b' Hb'. apply elem_of_bucket in Hb' as [Hm _]. done.
  - intros raw Hraw Hk b Hb.
    apply elem_of_bucket in Hb as [_ He]. apply elem_of_entries in He as [He _].
    congruence.
  - intros b. rewrite bucket_filter. etrans; [apply sublist_filter|].
    apply sublist_filter.
  - etrans; [|apply (concat_filter_by match_protocol bucket_ids bucket_ids_NoDup)].
    + apply reflexive_eq. f_equal. apply list_fmap_ext. intros i b _.
      apply bucket_filter.
    + intros l _. apply match_protocol_bucket_id.
Qed.

(** C10. What a bucket stores is a line of the input with the white
    space around it removed and nothing else changed: the lowercased form is
    used for matching only. *)
Theorem buckets_store_trimmed_lines :
  (forall lines b l, l ∈ bucket lines b ->
     exists raw, raw ∈ lines /\ l = Str.strip raw)
  /\ bucket [txt "  VLESS://HoSt:443#Tag  "; txt "Junk Line"] (Some (txt "vless"))
       = [txt "VLESS://HoSt:443#Tag"]
  /\ bucket [txt "  VLESS://HoSt:443#Tag  "; txt "Junk Line"] None
       = [txt "Junk Line"].
Proof.
  split; [|split; by vm_compute].
  intros lines b l Hl. apply elem_of_bucket in Hl as [_ He].
  by apply elem_of_entries in He as [_ He].
Qed.

(** A run of ASCII characters is lowercased character by character,
    whatever precedes and follows it. *)
Lemma lower_from_ascii a : forall before rest,
  Forall (fun c => (c < 128)%N) a ->
  lower_from before (a ++ rest)
  = (Str.ascii_lower <$> a) ++ lower_from (before ++ a) rest.
Proof.
  induction a as [|c a IH]; intros before rest Ha; simpl.
  - by rewrite app_nil_r.
  - inversion Ha as [|? ? Hc Ha']; subst.
    apply N.ltb_lt in Hc. rewrite Hc. simpl. f_equal.
    rewrite IH by done. by rewrite <- app_assoc.
Qed.

(** No prefix of the table is a prefix of another: a line matches at most
    one entry, so the order of the table decides nothing. *)
Lemma protocols_exclusive e1 e2 :
  e1 ∈ protocols -> e2 ∈ protocols ->
  Str.startswith (snd e1) (snd e2) = true -> e1 = e2.
Proof.
  assert (Forall (fun e1 => Forall (fun e2 =>
            Str.startswith (snd e1) (snd e2) = true -> e1 = e2) protocols)
          protocols) as Hall.
  { apply (bool_decide_unpack _). by vm_compute. }
  intros H1 H2. rewrite Forall_forall in Hall.
  specialize (Hall e1 H1). rewrite Forall_forall in Hall. by apply Hall.
Qed.

Lemma match_protocol_prefix line proto prefix :
  (proto, prefix) ∈ protocols ->
  Str.startswith (lower line) prefix = true ->
  match_protocol line = Some proto.
Proof.
  intros Hin Hs. unfold match_protocol.
  destruct (List.find _ protocols) as [e|] eqn:Hf.
  - apply find_some in Hf as [He Hes]. apply list_elem_of_In in He.
    destruct (startswith_comparable _ _ _ Hs Hes) as [Hc|Hc].
    + by rewrite <- (protocols_exclusive _ _ Hin He Hc).
    + by rewrite (protocols_exclusive _ _ He Hin Hc).
  - pose proof (find_none _ _ Hf (proto, prefix)) as Hn. cbn [snd] in Hn.
    rewrite Hn in Hs; [done|]. by apply list_elem_of_In.
Qed.

Lemma prefix_head proto prefix :
  (proto, prefix) ∈ protocols ->
  exists c rest, prefix = c :: rest /\ (c <> 35)%N.
Proof.
  assert (Forall (fun e => match snd e with
                           | c :: _ => negb (c =? 35)%N
                           | [] => false
                           end = true) protocols) as Hall.
  { apply (bool_decide_unpack _). by vm_compute. }
  intros Hin. rewrite Forall_forall in Hall. specialize (Hall _ Hin).
  cbn [snd] in Hall. destruct prefix as [|c rest]; [done|]. exists c, rest.
  split; [done|]. intros ->. done.
Qed.

(** A line whose lowercased form starts with a prefix of the table is not
    blank and is not a comment. *)
Lemma prefix_kept line proto prefix :
  (proto, prefix) ∈ protocols ->
  Str.startswith (lower line) prefix = true -> kept line = true.
Proof.
  intros Hin Hs. destruct (prefix_head _ _ Hin) as [c [rest [-> Hc]]].
  destruct line as [|d line]; [discriminate|].
  unfold kept. cbn [is_nil orb].
  change (Str.startswith (d :: line) (txt "#")) with ((35 =? d)%N && true).
  destruct (35 =? d)%N eqn:Hd; [|done].
  apply N.eqb_eq in Hd. subst d. exfalso.
  change (lower (35%N :: line)) with (35%N :: lower_from [35%N] line) in Hs.
  cbn [Str.startswith] in Hs.
  apply andb_true_iff in Hs as [Hs _]. apply N.eqb_eq in Hs. done.
Qed.

Lemma scheme_line (scheme x : text) :
  Forall (fun c => (c < 128)%N /\ Str.isspace c = false) scheme ->
  scheme <> [] ->
  Str.strip (scheme ++ x) = scheme ++ Str.rstrip x.
Proof.
  intros Hall Hne. unfold Str.strip.
  destruct scheme as [|c scheme]; [done|].
  assert (Str.lstrip ((c :: scheme) ++ x) = (c :: scheme) ++ x) as ->.
  { inversion Hall as [|? ? [_ Hc] _]; subst. simpl. by rewrite Hc. }
  clear Hne. induction Hall as [|d l [_ Hd] _ IH]; [done|].
  rewrite <- !app_comm_cons. rewrite rstrip_cons_nonspace by done. by f_equal.
Qed.

(** C8. Matching a prefix ignores the case of the scheme: the lines
    VLESS://x and vless://x both go to the vless bucket, whatever the suffix
    x, and a line goes to the bucket of a protocol, and to no other bucket,
    whenever its lowercased form starts with the prefix of that protocol. *)
Theorem prefix_match_ignores_case :
  (forall lines x, txt "VLESS://" ++ x ∈ lines ->
     Str.strip (txt "VLESS://" ++ x) ∈ bucket lines (Some (txt "vless")))
  /\ (forall lines x, txt "vless://" ++ x ∈ lines ->
        Str.strip (txt "vless://" ++ x) ∈ bucket lines (Some (txt "vless")))
  /\ (forall lines raw proto prefix,
        raw ∈ lines -> (proto, prefix) ∈ protocols ->
        Str.startswith (lower (Str.strip raw)) prefix = true ->
        Str.strip raw ∈ bucket lines (Some proto)
        /\ forall b, Str.strip raw ∈ bucket lines b -> b = Some proto).
Proof.
  assert (forall lines raw proto prefix,
        raw ∈ lines -> (proto, prefix) ∈ protocols ->
        Str.startswith (lower (Str.strip raw)) prefix = true ->
        Str.strip raw ∈ bucket lines (Some proto)
        /\ forall b, Str.strip raw ∈ bucket lines b -> b = Some proto) as Hgen.
  { intros lines raw proto prefix Hraw Hin Hs.
    pose proof (match_protocol_prefix _ _ _ Hin Hs) as Hm. split.
    - apply elem_of_bucket. split; [done|]. apply elem_of_entries.
      split; [by eapply prefix_kept|]. by exists raw.
    - intros b Hb. apply elem_of_bucket in Hb as [Hb _]. congruence. }
  assert (forall scheme x,
            Forall (fun c => (c < 128)%N /\ Str.isspace c = false) scheme ->
            scheme <> [] ->
            Str.ascii_lower <$> scheme = txt "vless://" ->
            Str.startswith (lower (Str.strip (scheme ++ x))) (txt "vless://") = true)
    as Hlow.
  { intros scheme x Hall Hne Heq. rewrite scheme_line by done.
    unfold lower. rewrite lower_from_ascii, Heq.
    - apply startswith_app.
    - eapply Forall_impl; [done|]. by intros c [? _]. }
  split; [|split; [|done]].
  - intros lines x Hx.
    apply (Hgen lines _ (txt "vless") (txt "vless://") Hx).
    + apply (bool_decide_unpack _). by vm_compute.
    + apply Hlow; [|done|done]. apply (bool_decide_unpack _). by vm_compute.
  - intros lines x Hx.
    apply (Hgen lines _ (txt "vless") (txt "vless://") Hx).
    + apply (bool_decide_unpack _). by vm_compute.
    + apply Hlow; [|done|done]. apply (bool_decide_unpack _). by vm_compute.
Qed.

(** ** Properties of the fingerprint *)

Lemma hash_files_spec files : forall fed s,
  exists s', hash_files files fed s = (Ok (fed ++ hash_input (st_fs s) files), s')
             /\ st_fs s' = st_fs s.
Proof.
  induction files as [|file files IH]; intros fed s.
  - exists s. simpl. unfold ret. by rewrite app_nil_r.
  - simpl. unfold bind, ret, logger.
    destruct (FS.read_bytes (st_fs s) file) as [d|e] eqn:Hr.
    + destruct (str_encode (name file)) as [encoded|e].
      * destruct (IH (fed ++ d ++ encoded) s) as [s' [H1 H2]].
        exists s'. rewrite H1. split; [|done]. by rewrite <- !app_assoc.
      * destruct (IH (fed ++ d) (State (st_fs s)
                    (st_log s ++ [(ERROR, MsgHashReadFailed file e)])))
          as [s' [H1 H2]].
        exists s'. rewrite H1. cbn [st_fs] in *. split; [|done].
        by rewrite app_nil_r, <- !app_assoc.
    + simpl.
      destruct (IH fed (State (st_fs s)
                  (st_log s ++ [(ERROR, MsgHashReadFailed file e)])))
        as [s' [H1 H2]].
      exists s'. rewrite H1. simpl. done.
Qed.

Lemma calculate_hash_spec directory s :
  exists s', calculate_hash directory s = (Ok (fingerprint (st_fs s) directory), s')
             /\ st_fs s' = st_fs s.
Proof.
  unfold calculate_hash, fingerprint, bind, get_fs, ret. cbv beta iota zeta.
  fold (hashed_files (st_fs s) directory).
  destruct (FS.exists_ (st_fs s) directory); cbn [negb].
  - destruct (hash_files_spec (hashed_files (st_fs s) directory) [] s)
      as [s' [H1 H2]].
    exists s'. rewrite H1. done.
  - by exists s.
Qed.

Lemma length_hexlify d : length (hexlify d) = 2 * length d.
Proof. induction d as [|b d IH]; simpl; lia. Qed.

(** A path that is not a directory lists nothing. *)
Lemma hashed_files_not_dir fs directory :
  FS.is_dir fs directory = false -> hashed_files fs directory = [].
Proof.
  intros Hdir. unfold hashed_files, FS.sorted_glob, FS.glob, FS.listdir.
  by rewrite Hdir.
Qed.

(** C5, as the code has it.  [calculate_hash] returns for every path, and
    what it returns is the text "empty" exactly when nothing exists at the
    path ([Path.exists] is false), which is not the same as there being
    no directory: when the path exists the result is the digest, in
    hexadecimal, of what was fed to the hash, and a path that exists and
    is no directory (a regular file) gives the digest of no input, not
    "empty".  No hexadecimal rendering of a byte string is the text
    "empty". *)
Theorem calculate_hash_empty (directory : path) (s : state) :
  (exists h s',
      calculate_hash directory s = (Ok h, s')
      /\ (h = txt "empty" <-> FS.exists_ (st_fs s) directory = false)
      /\ (FS.exists_ (st_fs s) directory = true ->
          h = hexlify (sha256 (hash_input (st_fs s)
                                 (hashed_files (st_fs s) directory))))
      /\ (FS.exists_ (st_fs s) directory = true ->
          FS.is_dir (st_fs s) directory = false ->
          h = hexlify (sha256 []) /\ h <> txt "empty"))
  /\ (forall d : bytes, hexlify d <> txt "empty").
Proof.
  assert (forall d : bytes, hexlify d <> txt "empty") as Hne.
  { intros d Hd. apply (f_equal length) in Hd.
    rewrite length_hexlify in Hd. simpl in Hd. lia. }
  split; [|done].
  destruct (calculate_hash_spec directory s) as [s' [H1 H2]].
  exists (fingerprint (st_fs s) directory), s'.
  split; [done|]. unfold fingerprint.
  destruct (FS.exists_ (st_fs s) directory); (split; [|split]); try done.
  - split; [|done]. intros Hd. by apply Hne in Hd.
  - intros _ Hdir. rewrite (hashed_files_not_dir _ _ Hdir). by split.
Qed.

(** ** The file system: listings *)

Lemma child_name_Some d p n : FS.child_name d p = Some n <-> p = d ++ [n].
Proof.
  unfold FS.child_name. split.
  - destruct (reverse p) as [|m r] eqn:Hr; [done|].
    case_decide as Hd; [|done]. intros [= ->]. subst d.
    rewrite <- (reverse_involutive p), Hr. by rewrite reverse_cons.
  - intros ->. rewrite reverse_snoc. rewrite decide_True; [done|].
    apply reverse_involutive.
Qed.

Lemma elem_of_listdir fs d n :
  n ∈ FS.listdir fs d <-> FS.is_dir fs d = true /\ is_Some (fs !! (d ++ [n])).
Proof.
  unfold FS.listdir. destruct (FS.is_dir fs d).
  - rewrite list_elem_of_omap. split.
    + intros [p [Hp Hc]]. apply child_name_Some in Hc as ->. split; [done|].
      apply list_elem_of_fmap in Hp as [[q x] [-> Hq]].
      apply elem_of_map_to_list in Hq. by exists x.
    + intros [_ [x Hx]]. exists (d ++ [n]). split; [|by apply child_name_Some].
      apply list_elem_of_fmap. exists (d ++ [n], x). split; [done|].
      by apply elem_of_map_to_list.
  - split; [by intros ?%elem_of_nil|by intros [? _]].
Qed.

Lemma NoDup_listdir fs d : NoDup (FS.listdir fs d).
Proof.
  unfold FS.listdir. destruct (FS.is_dir fs d); [|constructor].
  apply NoDup_omap; [apply NoDup_fst_map_to_list|].
  intros p q n _ _ Hp Hq. apply child_name_Some in Hp, Hq. congruence.
Qed.

Lemma elem_of_glob fs d ext n :
  n ∈ FS.glob fs d ext <->
  Str.endswith n ext = true /\ FS.is_dir fs d = true /\ is_Some (fs !! (d ++ [n])).
Proof.
  unfold FS.glob.
  rewrite (list_elem_of_filter (fun n => Is_true (Str.endswith n ext))).
  by rewrite elem_of_listdir, Is_true_true.
Qed.

Lemma NoDup_glob fs d ext : NoDup (FS.glob fs d ext).
Proof. apply NoDup_filter, NoDup_listdir. Qed.

(** Two listings with the same names sort to the same list. *)
Lemma sorted_glob_ext fs1 fs2 d ext :
  (forall n, n ∈ FS.glob fs1 d ext <-> n ∈ FS.glob fs2 d ext) ->
  FS.sorted_glob fs1 d ext = FS.sorted_glob fs2 d ext.
Proof.
  intros Hext. unfold FS.sorted_glob. f_equal.
  apply (Sorted_unique FS.name_le); try apply Sorted_merge_sort; try apply _.
  rewrite !merge_sort_Permutation.
  apply NoDup_Permutation; [apply NoDup_glob|apply NoDup_glob|done].
Qed.

Lemma elem_of_sorted_glob fs d ext p :
  p ∈ FS.sorted_glob fs d ext <->
  exists n, p = d ++ [n] /\ Str.endswith n ext = true
            /\ FS.is_dir fs d = true /\ is_Some (fs !! p).
Proof.
  unfold FS.sorted_glob. rewrite list_elem_of_fmap. split.
  - intros [n [-> Hn]]. rewrite merge_sort_Permutation in Hn.
    apply elem_of_glob in Hn. by exists n.
  - intros [n [-> Hn]]. exists n. split; [done|].
    rewrite merge_sort_Permutation. by apply elem_of_glob.
Qed.

Lemma parent_snoc (d : path) n : parent (d ++ [n]) = d.
Proof. apply removelast_last. Qed.

Lemma name_snoc d n : name (d ++ [n]) = n.
Proof. unfold name. by rewrite last_snoc. Qed.

Lemma is_dir_insert fs p v d :
  p <> d -> FS.is_dir (<[p:=v]> fs) d = FS.is_dir fs d.
Proof.
  intros Hne. unfold FS.is_dir. destruct d; [done|].
  by rewrite lookup_insert_ne.
Qed.

Lemma exists_insert fs p v d :
  p <> d -> FS.exists_ (<[p:=v]> fs) d = FS.exists_ fs d.
Proof.
  intros Hne. unfold FS.exists_. destruct d; [done|].
  by rewrite lookup_insert_ne.
Qed.

Lemma read_bytes_insert fs p v q :
  p <> q -> FS.read_bytes (<[p:=v]> fs) q = FS.read_bytes fs q.
Proof.
  intros Hne. unfold FS.read_bytes. destruct q; [done|].
  by rewrite lookup_insert_ne.
Qed.

(** Writing a file whose name does not end in [ext] leaves the listing of
    the files that do unchanged. *)
Lemma sorted_glob_insert fs p v d ext :
  p <> d -> Str.endswith (name p) ext = false ->
  FS.sorted_glob (<[p:=v]> fs) d ext = FS.sorted_glob fs d ext.
Proof.
  intros Hne Hext. apply sorted_glob_ext. intros n.
  rewrite !elem_of_glob, is_dir_insert by done.
  destruct (decide (p = d ++ [n])) as [->|Hp].
  - rewrite name_snoc in Hext. rewrite Hext. by split; intros [? _].
  - by rewrite lookup_insert_ne.
Qed.

(** The fingerprint of a directory depends on the directory and its
    entries only. *)
Lemma fingerprint_ext fs1 fs2 d :
  (forall p, p = d \/ (p <> [] /\ parent p = d) -> fs1 !! p = fs2 !! p) ->
  fingerprint fs1 d = fingerprint fs2 d.
Proof.
  intros Hsame. unfold fingerprint.
  assert (FS.exists_ fs1 d = FS.exists_ fs2 d) as ->.
  { unfold FS.exists_. destruct d; [done|]. by rewrite Hsame by by left. }
  destruct (FS.exists_ fs2 d); [|done]. do 2 f_equal.
  assert (FS.is_dir fs1 d = FS.is_dir fs2 d) as Hdir.
  { unfold FS.is_dir. destruct d; [done|]. by rewrite Hsame by by left. }
  assert (forall n, fs1 !! (d ++ [n]) = fs2 !! (d ++ [n])) as Hentry.
  { intros n. apply Hsame. right. split; [by destruct d|apply parent_snoc]. }
  assert (hashed_files fs1 d = hashed_files fs2 d) as ->.
  { unfold hashed_files. apply flat_map_ext_elem. intros ext _.
    apply sorted_glob_ext. intros n. by rewrite !elem_of_glob, Hdir, Hentry. }
  unfold hash_input. apply flat_map_ext_elem. intros file Hfile.
  unfold hashed_files in Hfile. apply list_elem_of_In, in_flat_map in Hfile.
  destruct Hfile as [ext [_ Hfile]]. apply list_elem_of_In in Hfile.
  apply elem_of_sorted_glob in Hfile as [n [-> _]].
  unfold FS.read_bytes. destruct (d ++ [n]) eqn:Hp; [done|].
  by rewrite <- Hp, Hentry.
Qed.

Lemma fingerprint_insert fs p v d :
  p <> d ->
  Forall (fun ext => Str.endswith (name p) ext = false)
         [txt ".txt"; txt ".yaml"; txt ".yml"] ->
  fingerprint (<[p:=v]> fs) d = fingerprint fs d.
Proof.
  intros Hne Hext. unfold fingerprint. rewrite exists_insert by done.
  destruct (FS.exists_ fs d); [|done]. do 2 f_equal.
  assert (hashed_files (<[p:=v]> fs) d = hashed_files fs d) as ->.
  { unfold hashed_files. apply flat_map_ext_elem. intros ext Hin.
    apply sorted_glob_insert; [done|].
    rewrite Forall_forall in Hext. by apply Hext. }
  unfold hash_input. apply flat_map_ext_elem. intros file Hfile.
  rewrite read_bytes_insert; [done|]. intros ->.
  unfold hashed_files in Hfile. apply list_elem_of_In, in_flat_map in Hfile.
  destruct Hfile as [ext [Hin Hfile]]. apply list_elem_of_In in Hin, Hfile.
  apply elem_of_sorted_glob in Hfile as [n [-> [Hn _]]].
  rewrite Forall_forall in Hext. specialize (Hext ext Hin).
  rewrite name_snoc in Hext. congruence.
Qed.

(** ** Plain text survives a file *)

Lemma plain_encode t : plain t -> Utf8.encode t = t.
Proof.
  induction 1 as [|c t [Hc _] _ IH]; [done|].
  unfold Utf8.encode in *. simpl. rewrite IH. unfold Utf8.encode_char.
  assert ((c <? 128)%N = true) as -> by (apply N.ltb_lt; lia). done.
Qed.

Lemma plain_decode t : plain t -> Utf8.decode t = Some t.
Proof.
  induction 1 as [|c t [Hc _] _ IH]; [done|].
  cbn [Utf8.decode].
  assert ((c <? 128)%N = true) as -> by (apply N.ltb_lt; lia).
  by rewrite IH.
Qed.

Lemma plain_readlines t : forall cur,
  plain t -> concat (Str.readlines_from cur t) = cur ++ t.
Proof.
  induction t as [|c t IH]; intros cur Ht.
  - simpl. destruct cur; simpl; by rewrite ?app_nil_r.
  - inversion Ht as [|? ? [_ Hc] Ht']; subst. cbn [Str.readlines_from].
    destruct (N.eqb_spec c 10) as [->|_]; [done|].
    destruct (N.eqb_spec c 13) as [->|_]; [done|].
    rewrite IH by done. by rewrite <- app_assoc.
Qed.

Lemma plain_strip t : plain t -> Str.strip t = t.
Proof.
  intros Ht. unfold Str.strip.
  assert (Str.lstrip t = t) as ->.
  { destruct Ht as [|c t [_ Hc] _]; [done|]. simpl. by rewrite Hc. }
  induction Ht as [|c t [_ Hc] _ IH]; [done|].
  rewrite rstrip_cons_nonspace by done. by f_equal.
Qed.

Lemma isspace_false c : (33 <= c < 127)%N -> Str.isspace c = false.
Proof.
  intros Hc. unfold Str.isspace.
  repeat match goal with
         | |- context [(?a <=? ?b)%N] => destruct (N.leb_spec a b); try lia
         | |- context [(?a =? ?b)%N] => destruct (N.eqb_spec a b); try lia
         end.
Qed.

Lemma hexdigit_range n : (48 <= hexdigit n < 103)%N.
Proof.
  unfold hexdigit.
  assert (n mod 16 < 16)%N as Hlt by (apply N.mod_upper_bound; lia).
  revert Hlt. generalize (n mod 16)%N as k. intros k Hlt.
  destruct (N.ltb_spec k 10); lia.
Qed.

Lemma plain_hexlify d : plain (hexlify d).
Proof.
  induction d as [|b d IH]; [constructor|]. simpl.
  pose proof (hexdigit_range (b / 16)). pose proof (hexdigit_range b).
  repeat constructor; try lia; try (apply isspace_false; lia). done.
Qed.

Lemma plain_fingerprint fs d : plain (fingerprint fs d).
Proof.
  unfold fingerprint. destruct (FS.exists_ fs d); [apply plain_hexlify|].
  unfold plain. apply (bool_decide_unpack _). by vm_compute.
Qed.

(** ** Lines and trimming *)

Lemma is_break_isspace c : is_break c = true -> Str.isspace c = true.
Proof.
  unfold is_break. intros [->%N.eqb_eq | ->%N.eqb_eq]%orb_true_iff; done.
Qed.

Lemma rstrip_cons c r :
  Str.rstrip (c :: r)
  = match Str.rstrip r with
    | [] => if Str.isspace c then [] else [c]
    | _ :: _ => c :: Str.rstrip r
    end.
Proof. done. Qed.

Lemma rstrip_snoc_space x c : Str.isspace c = true -> Str.rstrip (x ++ [c]) = Str.rstrip x.
Proof.
  intros Hc. induction x as [|d x IH].
  - cbn. by rewrite Hc.
  - rewrite <- app_comm_cons, !rstrip_cons, IH. done.
Qed.

Lemma rstrip_app_blank x w : blank w -> Str.rstrip (x ++ w) = Str.rstrip x.
Proof.
  intros Hw. revert x. induction Hw as [|c w Hc _ IH]; intros x.
  - by rewrite app_nil_r.
  - rewrite (cons_middle c x w), app_assoc, IH. by apply rstrip_snoc_space.
Qed.

Lemma rstrip_blank w : blank w -> Str.rstrip w = [].
Proof. intros Hw. exact (rstrip_app_blank [] w Hw). Qed.

Lemma lstrip_blank_app w x : blank w -> Str.lstrip (w ++ x) = Str.lstrip x.
Proof. induction 1 as [|c w Hc _ IH]; [done|]. simpl. by rewrite Hc. Qed.

Lemma lstrip_app x y :
  Str.lstrip x <> [] -> Str.lstrip (x ++ y) = Str.lstrip x ++ y.
Proof.
  induction x as [|c x IH]; [done|]. simpl.
  destruct (Str.isspace c); [apply IH|done].
Qed.

Lemma lstrip_nil_blank x : Str.lstrip x = [] -> blank x.
Proof.
  induction x as [|c x IH]; [constructor|]. simpl.
  destruct (Str.isspace c) eqn:Hc; [|done]. intros H.
  constructor; [done|by apply IH].
Qed.

(** White space after a text does not change what [strip] gives. *)
Lemma strip_app_blank x w : blank w -> Str.strip (x ++ w) = Str.strip x.
Proof.
  intros Hw. unfold Str.strip.
  destruct (Str.lstrip x) as [|c r] eqn:Hx.
  - apply lstrip_nil_blank in Hx.
    rewrite lstrip_blank_app by done. cbn.
    assert (blank (Str.lstrip w)) as Hl.
    { clear -Hw. induction Hw as [|c w Hc _ IH]; [constructor|].
      simpl. by rewrite Hc. }
    by apply rstrip_blank.
  - rewrite lstrip_app by congruence. rewrite Hx. by apply rstrip_app_blank.
Qed.

Lemma strip_blank_app w x : blank w -> Str.strip (w ++ x) = Str.strip x.
Proof. intros Hw. unfold Str.strip. by rewrite lstrip_blank_app. Qed.

Lemma strip_blank w : blank w -> Str.strip w = [].
Proof. intros Hw. exact (strip_app_blank [] w Hw). Qed.

Lemma Forall_lstrip (P : N -> Prop) x : Forall P x -> Forall P (Str.lstrip x).
Proof.
  induction 1 as [|c x Hc Hx IH]; [constructor|]. simpl.
  destruct (Str.isspace c); [done|by constructor].
Qed.

Lemma Forall_rstrip (P : N -> Prop) x : Forall P x -> Forall P (Str.rstrip x).
Proof.
  induction 1 as [|c x Hc Hx IH]; [constructor|]. rewrite rstrip_cons.
  destruct (Str.rstrip x) as [|z zs].
  - destruct (Str.isspace c); [constructor|constructor; [done|constructor]].
  - by constructor.
Qed.

Lemma Forall_strip (P : N -> Prop) x : Forall P x -> Forall P (Str.strip x).
Proof. intros H. by apply Forall_rstrip, Forall_lstrip. Qed.

Lemma rstrip_idemp x : Str.rstrip (Str.rstrip x) = Str.rstrip x.
Proof.
  induction x as [|c x IH]; [done|]. rewrite rstrip_cons.
  destruct (Str.rstrip x) as [|z zs] eqn:Hx.
  - destruct (Str.isspace c) eqn:Hc; [done|]. cbn. by rewrite Hc.
  - rewrite rstrip_cons, IH. done.
Qed.

Lemma lstrip_head x c r : Str.lstrip x = c :: r -> Str.isspace c = false.
Proof.
  induction x as [|d x IH]; [done|]. simpl.
  destruct (Str.isspace d) eqn:Hd; [done|]. by intros [= <- _].
Qed.

(** What [strip] gives has no white space at either end: trimming it
    again changes nothing. *)
Lemma strip_idemp x : Str.strip (Str.strip x) = Str.strip x.
Proof.
  unfold Str.strip. destruct (Str.lstrip x) as [|c r] eqn:Hx; [done|].
  pose proof (lstrip_head _ _ _ Hx) as Hc.
  rewrite rstrip_cons_nonspace by done. simpl. rewrite Hc.
  rewrite <- (rstrip_cons_nonspace c r) by done. apply rstrip_idemp.
Qed.

Lemma strip_head x c r : Str.strip x = c :: r -> Str.isspace c = false.
Proof.
  unfold Str.strip. destruct (Str.lstrip x) as [|d y] eqn:Hx; [done|].
  pose proof (lstrip_head _ _ _ Hx) as Hd.
  rewrite rstrip_cons_nonspace by done. by intros [= <- _].
Qed.

Lemma readlines_from_app_nl a : forall cur b,
  Str.readlines_from cur (a ++ 10%N :: b)
  = Str.readlines_from cur (a ++ [10%N]) ++ Str.readlines b.
Proof.
  induction a as [a IH] using (induction_ltof1 _ (@length N));
    unfold ltof in IH; intros cur b.
  destruct a as [|c a]; [done|].
  rewrite <- !app_comm_cons. cbn [Str.readlines_from].
  destruct (c =? 10)%N; [rewrite IH by (simpl; lia); done|].
  destruct (c =? 13)%N; [|rewrite IH by (simpl; lia); done].
  destruct a as [|d a]; [done|]. rewrite <- !app_comm_cons.
  destruct (N.eq_dec d 10%N) as [->|Hd].
  - rewrite IH by (simpl; lia). done.
  - assert (forall r : list N,
              match d :: r with 10%N :: r' => r' | _ => d :: r end = d :: r) as Hm.
    { intros r. destruct d as [|p]; [done|].
      repeat (destruct p as [p|p|]; try done). }
    rewrite !Hm, !app_comm_cons. rewrite IH by (simpl; lia). done.
Qed.

Lemma entries_app l1 l2 : entries (l1 ++ l2) = entries l1 ++ entries l2.
Proof. unfold entries. by rewrite fmap_app, filter_app. Qed.

Lemma entries_cons_app l ls : entries (l :: ls) = entries [l] ++ entries ls.
Proof. apply (entries_app [l]). Qed.

Lemma entries_single_blank_tail cur w :
  blank w -> entries [cur ++ w] = entries [cur].
Proof. intros Hw. unfold entries. simpl. by rewrite strip_app_blank. Qed.

Lemma entries_readlines_nil cur :
  entries (Str.readlines_from cur []) = entries [cur].
Proof. by destruct cur. Qed.

Lemma entries_blank w : forall cur,
  blank w -> translated w ->
  entries (Str.readlines_from cur w) = entries [cur].
Proof.
  induction w as [|c w IH]; intros cur Hw Ht; [apply entries_readlines_nil|].
  inversion Hw as [|? ? Hc Hw']; inversion Ht as [|? ? Hc13 Ht']; subst.
  cbn [Str.readlines_from].
  destruct (N.eqb_spec c 10) as [->|_].
  - rewrite entries_cons_app, IH by done.
    rewrite (entries_single_blank_tail cur [10%N]) by (by repeat constructor).
    by rewrite app_nil_r.
  - destruct (N.eqb_spec c 13) as [->|_]; [done|].
    rewrite IH by done. apply entries_single_blank_tail. by repeat constructor.
Qed.

(** White space at the end of a text adds no line the classifier keeps. *)
Lemma entries_app_blank x : forall cur w,
  translated x -> blank w -> translated w ->
  entries (Str.readlines_from cur (x ++ w)) = entries (Str.readlines_from cur x).
Proof.
  induction x as [|c x IH]; intros cur w Hx Hw Ht.
  - cbn [app]. rewrite entries_blank by done. by rewrite entries_readlines_nil.
  - inversion Hx as [|? ? Hc13 Hx']; subst. rewrite <- app_comm_cons.
    cbn [Str.readlines_from].
    destruct (N.eqb_spec c 10) as [->|_].
    + rewrite (entries_cons_app _ (Str.readlines_from [] (x ++ w))).
      rewrite (entries_cons_app _ (Str.readlines_from [] x)). by rewrite IH.
    + destruct (N.eqb_spec c 13) as [->|_]; [done|]. by apply IH.
Qed.

Lemma readlines_one_line x : forall cur,
  one_line x ->
  Str.readlines_from cur (x ++ [10%N]) = [cur ++ x ++ [10%N]].
Proof.
  induction x as [|c x IH]; intros cur Hx; [done|].
  inversion Hx as [|? ? Hc Hx']; subst. rewrite <- app_comm_cons.
  cbn [Str.readlines_from]. unfold is_break in Hc.
  apply orb_false_iff in Hc as [-> ->]. rewrite IH by done.
  by rewrite <- app_assoc.
Qed.

Lemma translated_readlines s : forall cur,
  translated cur -> Forall translated (Str.readlines_from cur s).
Proof.
  assert (forall cur, translated cur -> translated (cur ++ [10%N])) as Hnl.
  { intros cur Hcur. apply Forall_app. split; [done|]. by repeat constructor. }
  induction s as [s IH] using (induction_ltof1 _ (@length N));
    unfold ltof in IH; intros cur Hcur.
  destruct s as [|c s].
  - destruct cur; [constructor|]. constructor; [done|constructor].
  - cbn [Str.readlines_from].
    destruct (N.eqb_spec c 10) as [->|_].
    { constructor; [by apply Hnl|]. apply IH; [simpl; lia|constructor]. }
    destruct (N.eqb_spec c 13) as [->|Hc].
    { constructor; [by apply Hnl|]. apply IH; [|constructor].
      destruct s as [|d s]; [simpl; lia|].
      destruct (N.eq_dec d 10%N) as [->|Hd]; [simpl; lia|].
      assert (match d :: s with 10%N :: r' => r' | _ => d :: s end = d :: s) as ->.
      { destruct d as [|p]; [done|].
        repeat (destruct p as [p|p|]; try done). }
      simpl; lia. }
    apply IH; [simpl; lia|]. apply Forall_app. split; [done|].
    by repeat constructor.
Qed.

(** ** UTF-8 round trip *)

Ltac decide_bounds :=
  repeat match goal with
         | |- context [(?a <? ?b)%N] => destruct (N.ltb_spec a b); try lia
         | |- context [(?a <=? ?b)%N] => destruct (N.leb_spec a b); try lia
         end.

Lemma scalar_Some lo c :
  (lo <= c)%N -> scalar_value c = true -> Utf8.scalar lo c = Some c.
Proof.
  unfold scalar_value, Utf8.scalar. intros Hlo Hc.
  destruct (N.leb_spec lo c); [|lia]. simpl. by rewrite Hc.
Qed.

Lemma scalar_value_bound c : scalar_value c = true -> (c <= 0x10FFFF)%N.
Proof.
  unfold scalar_value. intros [H _]%andb_true_iff. by apply N.leb_le.
Qed.

Lemma decode_encode_char c bs :
  scalar_value c = true ->
  Utf8.decode (Utf8.encode_char c ++ bs) = cons c <$> Utf8.decode bs.
Proof.
  intros Hc. pose proof (scalar_value_bound c Hc) as Hmax.
  unfold Utf8.encode_char.
  pose proof (N.div_mod c 64 ltac:(lia)) as E0.
  pose proof (N.mod_upper_bound c 64 ltac:(lia)) as B0.
  pose proof (N.div_mod (c / 64) 64 ltac:(lia)) as E1.
  pose proof (N.mod_upper_bound (c / 64) 64 ltac:(lia)) as B1.
  pose proof (N.div_mod (c / 64 / 64) 64 ltac:(lia)) as E2.
  pose proof (N.mod_upper_bound (c / 64 / 64) 64 ltac:(lia)) as B2.
  replace (c / 4096)%N with (c / 64 / 64)%N
    by (rewrite N.Div0.div_div; reflexivity).
  replace (c / 262144)%N with (c / 64 / 64 / 64)%N
    by (rewrite !N.Div0.div_div; reflexivity).
  replace ((c / 64 / 64) mod 64)%N with ((c / 64 / 64) mod 64)%N in * by done.
  revert E0 B0 E1 B1 E2 B2.
  generalize (c mod 64)%N as r0. generalize ((c / 64) mod 64)%N as r1.
  generalize ((c / 64 / 64) mod 64)%N as r2.
  generalize (c / 64 / 64 / 64)%N as q3. generalize (c / 64 / 64)%N as q2.
  generalize (c / 64)%N as q1.
  intros q1 q2 q3 r2 r1 r0 E0 B0 E1 B1 E2 B2.
  destruct (N.ltb_spec c 0x80) as [H1|H1].
  { cbn [app Utf8.decode]. by destruct (N.ltb_spec c 0x80); [|lia]. }
  destruct (N.ltb_spec c 0x800) as [H2|H2].
  { cbn [app Utf8.decode]. unfold Utf8.cont. decide_bounds. cbn [andb].
    replace ((192 + q1 - 192) * 64 + (128 + r0 - 128))%N with c by lia.
    rewrite scalar_Some by (done || lia). done. }
  destruct (N.ltb_spec c 0x10000) as [H3|H3].
  { cbn [app Utf8.decode]. unfold Utf8.cont. decide_bounds. cbn [andb].
    replace ((224 + q2 - 224) * 4096 + (128 + r1 - 128) * 64 + (128 + r0 - 128))%N
      with c by lia.
    rewrite scalar_Some by (done || lia). done. }
  cbn [app Utf8.decode]. unfold Utf8.cont. decide_bounds. cbn [andb].
  replace ((240 + q3 - 240) * 262144 + (128 + r2 - 128) * 4096
           + (128 + r1 - 128) * 64 + (128 + r0 - 128))%N with c by lia.
  rewrite scalar_Some by (done || lia). done.
Qed.

(** Decoding what was encoded gives the text back. *)
Lemma decode_encode t :
  Forall (fun c => scalar_value c = true) t ->
  Utf8.decode (Utf8.encode t) = Some t.
Proof.
  induction 1 as [|c t Hc _ IH]; [done|].
  unfold Utf8.encode in *. cbn [flat_map].
  rewrite decode_encode_char by done. by rewrite IH.
Qed.

Lemma scalar_inv lo v c : Utf8.scalar lo v = Some c -> scalar_value c = true.
Proof.
  unfold Utf8.scalar, scalar_value.
  destruct (lo <=? v)%N; [|done]. cbn [andb].
  destruct ((v <=? 1114111)%N && negb ((55296 <=? v)%N && (v <=? 57343)%N)) eqn:H;
    [|done].
  by intros [= <-].
Qed.

(** What the decoder gives holds scalar values only. *)
Lemma decode_scalar bs : forall t,
  Utf8.decode bs = Some t -> Forall (fun c => scalar_value c = true) t.
Proof.
  induction bs as [bs IH] using (induction_ltof1 _ (@length N));
    unfold ltof in IH.
  destruct bs as [|b0 r0]; [by intros t [= <-]|].
  intros t. cbn [Utf8.decode].
  destruct (N.ltb_spec b0 0x80) as [Hb|Hb].
  { destruct (Utf8.decode r0) as [t'|] eqn:Hd; [|done]. intros [= <-].
    constructor; [|apply (IH r0); [simpl; lia|done]].
    unfold scalar_value. by decide_bounds. }
  destruct ((0xC2 <=? b0)%N && (b0 <=? 0xDF)%N).
  { destruct r0 as [|b1 r1]; [done|]. destruct (Utf8.cont b1); [|done].
    destruct (Utf8.scalar _ _) as [c|] eqn:Hs; [|done]. cbn.
    destruct (Utf8.decode r1) as [t'|] eqn:Hd; [|done]. intros [= <-].
    constructor; [by eapply scalar_inv|apply (IH r1); [simpl; lia|done]]. }
  destruct ((0xE0 <=? b0)%N && (b0 <=? 0xEF)%N).
  { destruct r0 as [|b1 [|b2 r2]]; [done|done|].
    destruct (Utf8.cont b1 && Utf8.cont b2); [|done].
    destruct (Utf8.scalar _ _) as [c|] eqn:Hs; [|done]. cbn.
    destruct (Utf8.decode r2) as [t'|] eqn:Hd; [|done]. intros [= <-].
    constructor; [by eapply scalar_inv|apply (IH r2); [simpl; lia|done]]. }
  destruct ((0xF0 <=? b0)%N && (b0 <=? 0xF4)%N); [|done].
  destruct r0 as [|b1 [|b2 [|b3 r3]]]; [done|done|done|].
  destruct (Utf8.cont b1 && Utf8.cont b2 && Utf8.cont b3); [|done].
  destruct (Utf8.scalar _ _) as [c|] eqn:Hs; [|done]. cbn.
  destruct (Utf8.decode r3) as [t'|] eqn:Hd; [|done]. intros [= <-].
  constructor; [by eapply scalar_inv|apply (IH r3); [simpl; lia|done]].
Qed.

Lemma Forall_join (P : N -> Prop) sep l :
  Forall P sep -> Forall (Forall P) l -> Forall P (Str.join sep l).
Proof.
  intros Hsep. induction 1 as [|x l Hx Hl IH]; [constructor|].
  cbn [Str.join]. destruct l as [|y l]; [done|].
  apply Forall_app. split; [done|]. apply Forall_app. by split.
Qed.

Lemma Forall_readlines (P : N -> Prop) s : forall cur,
  P 10%N -> Forall P cur -> Forall P s ->
  Forall (Forall P) (Str.readlines_from cur s).
Proof.
  induction s as [s IH] using (induction_ltof1 _ (@length N));
    unfold ltof in IH; intros cur Hnl Hcur Hs.
  assert (Forall P (cur ++ [10%N])) as Hline.
  { apply Forall_app. split; [done|]. constructor; [done|constructor]. }
  destruct s as [|c s].
  - destruct cur; [constructor|]. constructor; [done|constructor].
  - inversion Hs as [|? ? Hc Hs']; subst. cbn [Str.readlines_from].
    destruct (N.eqb_spec c 10) as [->|_].
    { constructor; [done|]. apply IH; [simpl; lia|done|constructor|done]. }
    destruct (N.eqb_spec c 13) as [->|_].
    { constructor; [done|].
      destruct s as [|d s]; [apply IH; [simpl; lia|done|constructor|done]|].
      inversion Hs' as [|? ? Hd Hs'']; subst.
      assert (forall r, r = d :: s \/ r = s ->
                Forall (Forall P) (Str.readlines_from [] r)) as Hr.
      { intros r [->| ->]; (apply IH; [simpl; lia|done|constructor|done]). }
      destruct d as [|p]; [apply Hr; by left|].
      repeat (destruct p as [p|p|]; try (apply Hr; by left)).
      apply Hr. by right. }
    apply IH; [simpl; lia|done| |done].
    apply Forall_app. split; [done|]. constructor; [done|constructor].
Qed.

(** A merged document of files with encodable names is encodable, so the
    classifier reads back what the merger wrote. *)
Lemma merged_document_scalar fs self :
  Forall (fun file => Forall (fun c => scalar_value c = true) (name file))
         (merged_files fs self) ->
  Forall (fun c => scalar_value c = true) (merged_document fs self).
Proof.
  intros Hnames. unfold merged_document.
  apply Forall_join; [by repeat constructor|].
  induction Hnames as [|file files Hfile _ IH]; [constructor|].
  cbn [flat_map]. apply Forall_app. split; [|done]. unfold block.
  constructor; [|constructor; [|constructor; constructor]].
  - unfold provenance. apply Forall_app. split; [by apply (bool_decide_unpack _)|].
    apply Forall_app. split; [done|]. by apply (bool_decide_unpack _).
  - unfold trimmed_content, FS.read_decoded.
    destruct (FS.read_bytes fs file) as [d|e]; [|constructor].
    destruct (Utf8.decode d) as [t|] eqn:Ht; [|constructor].
    cbn [default id]. apply Forall_strip. apply Forall_concat.
    apply Forall_readlines; [done|constructor|]. by eapply decode_scalar.
Qed.

(** ** Writing text *)

Lemma encodable_Forall t :
  encodable t = true <-> Forall (fun c => scalar_value c = true) t.
Proof.
  unfold encodable. rewrite forallb_forall, Forall_forall.
  split; intros H c Hc; apply H; by apply list_elem_of_In.
Qed.

Lemma encodable_app t1 t2 : encodable (t1 ++ t2) = encodable t1 && encodable t2.
Proof. apply forallb_app. Qed.

Lemma plain_encodable t : plain t -> encodable t = true.
Proof.
  intros Ht. apply encodable_Forall. eapply Forall_impl; [exact Ht|].
  intros c [Hc _]. unfold scalar_value.
  destruct (N.leb_spec c 0x10FFFF); [|lia].
  destruct (N.leb_spec 0xD800 c); [lia|done].
Qed.

Lemma open_w_set_data fs p d :
  FS.open_w fs p d
  = match FS.open_w fs p [] with
    | Ok opened => Ok (set_data opened d)
    | Raise e => Raise e
    end.
Proof.
  unfold FS.open_w. destruct p; [done|].
  destruct (fs !! _) as [[|? ? [|]]|]; try done.
  destruct (FS.is_dir _ _); [done|]. by destruct (FS.exists_ _ _).
Qed.

(** Writing a text that can be encoded: the file is opened and holds the
    encoded text. *)
Lemma write_text_spec p t s :
  encodable t = true ->
  write_text p t s =
    match FS.open_w (st_fs s) p (Utf8.encode t) with
    | Ok n => (Ok tt, State (<[p := n]> (st_fs s)) (st_log s))
    | Raise e => (Raise e, s)
    end.
Proof.
  intros Ht. unfold write_text, str_encode. rewrite Ht.
  rewrite (open_w_set_data _ _ (Utf8.encode t)).
  by destruct (FS.open_w (st_fs s) p []).
Qed.

(** Writing a text that cannot be encoded: the file is opened, left
    empty, and [f.write] raises. *)
Lemma write_text_unencodable p t s :
  encodable t = false ->
  write_text p t s =
    match FS.open_w (st_fs s) p [] with
    | Ok opened =>
        (Raise UnicodeEncodeError, State (<[p := opened]> (st_fs s)) (st_log s))
    | Raise e => (Raise e, s)
    end.
Proof. intros Ht. unfold write_text, str_encode. by rewrite Ht. Qed.

(** ** Properties of the change tracker *)

Lemma check_changes_spec self s :
  let fs := st_fs s in
  let h := fingerprint fs (nodes_dir self) in
  exists log0,
    check_changes self s =
      match read_marker fs (hash_file self) with
      | Raise e => (Raise e, State fs log0)
      | Ok last_hash =>
          match FS.open_w fs (hash_file self) (Utf8.encode h) with
          | Raise e => (Raise e, State fs log0)
          | Ok n =>
              (Ok (differs last_hash h, h),
               State (<[hash_file self := n]> fs)
                     (log0 ++ [(INFO, if differs last_hash h
                                      then MsgChanged else MsgUnchanged)]))
          end
      end.
Proof.
  intros fs h.
  destruct (calculate_hash_spec (nodes_dir self) s) as [[fs' log0] [H1 H2]].
  simpl in H2. subst fs'. exists log0.
  unfold check_changes, bind. rewrite H1. fold fs h.
  assert (forall s0, write_text (hash_file self) h s0 =
            match FS.open_w (st_fs s0) (hash_file self) (Utf8.encode h) with
            | Ok n => (Ok tt, State (<[hash_file self := n]> (st_fs s0)) (st_log s0))
            | Raise e => (Raise e, s0)
            end) as Hwrite.
  { intros s0. apply write_text_spec, plain_encodable, plain_fingerprint. }
  cbv beta iota zeta delta
    [get_fs read_marker read_text ret logger st_fs st_log differs].
  destruct (FS.exists_ fs (hash_file self)).
  - destruct (FS.read_decoded fs (hash_file self)) as [t|e]; [|done].
    rewrite Hwrite. cbn [st_fs st_log].
    destruct (FS.open_w fs (hash_file self) (Utf8.encode h)) as [n|e]; [|done].
    destruct (negb (bool_decide _)); done.
  - rewrite Hwrite. cbn [st_fs st_log].
    destruct (FS.open_w fs (hash_file self) (Utf8.encode h)) as [n|e]; [|done].
    done.
Qed.

Lemma is_ok_open_w fs p d d' :
  is_ok (FS.open_w fs p d) = is_ok (FS.open_w fs p d').
Proof.
  unfold FS.open_w. destruct p; [done|].
  destruct (fs !! _) as [[|? ? [|]]|]; try done.
  by destruct (FS.is_dir _ _).
Qed.

Lemma open_w_Ok fs p d n :
  FS.open_w fs p d = Ok n ->
  p <> [] /\ exists r, n = File d r true
    /\ (fs !! p = None -> r = true)
    /\ (forall d0 r0 w0, fs !! p = Some (File d0 r0 w0) -> r = r0).
Proof.
  unfold FS.open_w. destruct p as [|c p]; [done|].
  destruct (fs !! (c :: p)) as [[|d0 r0 w0]|] eqn:Hl; [done| |].
  - destruct w0; [|done]. intros [= <-]. split; [done|]. exists r0.
    split; [done|]. split; [done|]. by intros ? ? ? [= _ -> _].
  - destruct (FS.is_dir fs (parent (c :: p))).
    + intros [= <-]. split; [done|]. exists true. done.
    + by destruct (FS.exists_ fs (parent (c :: p))).
Qed.

Lemma read_marker_Ok fs p x :
  p <> [] -> read_marker fs p = Ok x ->
  fs !! p = None \/ exists d0 w0, fs !! p = Some (File d0 true w0).
Proof.
  unfold read_marker, FS.exists_, FS.read_decoded, FS.read_bytes.
  destruct p as [|c p]; [done|]. intros _.
  destruct (fs !! (c :: p)) as [[|d0 r0 w0]|]; [done| |by left].
  destruct r0; [|done]. intros _. right. by exists d0, w0.
Qed.

Lemma hash_file_neq_nodes_dir self : hash_file self <> nodes_dir self.
Proof.
  unfold hash_file, nodes_dir. intros H. apply app_inj_tail in H as [_ H].
  by vm_compute in H.
Qed.

Lemma hash_file_not_hashed self :
  Forall (fun ext => Str.endswith (name (hash_file self)) ext = false)
         [txt ".txt"; txt ".yaml"; txt ".yml"].
Proof.
  unfold hash_file. rewrite name_snoc. repeat constructor.
Qed.

(** A marker that holds a plain text [h] reads back as [h] and can be
    written again. *)
Lemma marker_reads_back self fs h :
  plain h ->
  fs !! hash_file self = Some (File (Utf8.encode h) true true) ->
  read_marker fs (hash_file self) = Ok (Some h)
  /\ FS.open_w fs (hash_file self) (Utf8.encode h)
     = Ok (File (Utf8.encode h) true true).
Proof.
  intros Hp Hl.
  unfold read_marker, FS.exists_, FS.read_decoded, FS.read_bytes, FS.open_w.
  destruct (hash_file self) eqn:Hb.
  { unfold hash_file in Hb. by destruct (base_dir self). }
  rewrite Hl. rewrite plain_encode, plain_decode by done.
  unfold Str.readlines. rewrite plain_readlines by done.
  simpl. by rewrite plain_strip.
Qed.

(** C4. [check_changes] writes the fingerprint it computed to the marker
    file before it returns, whether or not it reports a change, so that
    the next call reports no change when the marker and the watched
    directory (the directory and its entries) are as the first call left
    them, whatever else has changed; and it does return when the marker can
    be read (or is absent) and can be written. *)
Theorem check_changes_overwrites_marker (self : NodeProcessor) (s : state) :
  (forall changed h s1,
      check_changes self s = (Ok (changed, h), s1) ->
      h = fingerprint (st_fs s) (nodes_dir self)
      /\ file_data (st_fs s1) (hash_file self) = Some (Utf8.encode h)
      /\ forall s1',
          st_fs s1' !! hash_file self = st_fs s1 !! hash_file self ->
          (forall p, p = nodes_dir self \/ (p <> [] /\ parent p = nodes_dir self) ->
                     st_fs s1' !! p = st_fs s1 !! p) ->
          exists s2, check_changes self s1' = (Ok (false, h), s2))
  /\ (is_ok (read_marker (st_fs s) (hash_file self)) = true ->
      is_ok (FS.open_w (st_fs s) (hash_file self) []) = true ->
      exists r s1, check_changes self s = (Ok r, s1)).
Proof.
  split.
  - intros changed h s1 Hrun.
    destruct (check_changes_spec self s) as [log0 Hspec].
    rewrite Hspec in Hrun. clear Hspec.
    destruct (read_marker _ _) as [last|e] eqn:Hread; [|done].
    destruct (FS.open_w _ _ _) as [n|e] eqn:Hopen; [|done].
    injection Hrun as <- <- <-.
    set (h := fingerprint (st_fs s) (nodes_dir self)) in *.
    apply open_w_Ok in Hopen as [Hne [r [-> [Hnew Hold]]]].
    assert (r = true) as ->.
    { destruct (read_marker_Ok _ _ _ Hne Hread) as [Hn|[d0 [w0 Hs]]];
        [by apply Hnew|by eapply Hold]. }
    split; [done|]. cbn [st_fs]. split.
    { unfold file_data. by rewrite lookup_insert_eq. }
    intros s1' Hmarker Hwatched. rewrite lookup_insert_eq in Hmarker.
    assert (fingerprint (st_fs s1') (nodes_dir self) = h) as Hf.
    { rewrite (fingerprint_ext _ _ _ Hwatched).
      apply fingerprint_insert;
        [apply hash_file_neq_nodes_dir|apply hash_file_not_hashed]. }
    destruct (marker_reads_back self (st_fs s1') h) as [Hr Ho];
      [apply plain_fingerprint|done|].
    destruct (check_changes_spec self s1') as [log1 Hspec].
    rewrite Hf, Hr, Ho in Hspec.
    assert (differs (Some h) h = false) as Hd.
    { unfold differs. by rewrite bool_decide_eq_true_2. }
    rewrite Hd in Hspec. eexists. exact Hspec.
  - intros Hread Hopen.
    destruct (check_changes_spec self s) as [log0 Hspec]. rewrite Hspec.
    destruct (read_marker _ _) as [last|e]; [|done].
    assert (is_ok (FS.open_w (st_fs s) (hash_file self)
              (Utf8.encode (fingerprint (st_fs s) (nodes_dir self)))) = true) as Ho.
    { by rewrite (is_ok_open_w _ _ _ []). }
    revert Ho. destruct (FS.open_w _ _ (Utf8.encode _)) as [n|e]; [|done].
    intros _. eexists _, _. reflexivity.
Qed.

(** ** Properties of the merger *)

Lemma merge_step file merged_content s :
  exists log',
    try_except
      (t <- read_text file ;;
       let content := Str.strip t in
       ret (if is_nil content then merged_content
            else merged_content ++ [provenance (name file); content; []]))
      (fun e => logger ERROR (MsgMergeReadFailed file e) ;; ret merged_content) s
    = (Ok (if contributes (st_fs s) file
           then merged_content ++ block (st_fs s) file else merged_content),
       State (st_fs s) log').
Proof.
  unfold bind, try_except, read_text, ret, logger, contributes, block,
    trimmed_content.
  destruct (FS.read_decoded (st_fs s) file) as [t|e].
  - exists (st_log s). destruct s as [fs lg]. cbn [st_fs st_log default].
    by destruct (Str.strip (concat (Str.readlines t))).
  - by eexists.
Qed.

Lemma merge_loop_spec txt_files : forall merged_content s,
  exists s',
    merge_loop txt_files merged_content s
    = (Ok (merged_content
           ++ flat_map (block (st_fs s))
                (filter (fun file => contributes (st_fs s) file = true) txt_files)),
       s')
    /\ st_fs s' = st_fs s.
Proof.
  induction txt_files as [|file files IH]; intros mc s.
  - exists s. simpl. unfold ret. by rewrite app_nil_r.
  - cbn [merge_loop].
    destruct (merge_step file mc s) as [log' Hstep].
    rewrite (bind_Ok _ _ _ _ _ Hstep).
    destruct (IH (if contributes (st_fs s) file
                  then mc ++ block (st_fs s) file else mc)
                 (State (st_fs s) log')) as [s' [H1 H2]].
    exists s'. rewrite H1. cbn [st_fs] in *. split; [|done].
    rewrite filter_cons. destruct (contributes (st_fs s) file).
    + rewrite decide_True by done. cbn [flat_map]. by rewrite <- app_assoc.
    + rewrite decide_False by done. done.
Qed.

Lemma merge_files_spec self s :
  let fs := st_fs s in
  let document := Str.join NL (flat_map (block fs) (merged_files fs self)) in
  exists log0,
    merge_files self s =
      match FS.open_w fs (hb_file self) [] with
      | Ok opened =>
          if encodable document
          then (Ok (hb_file self),
                State (<[hb_file self := set_data opened (Utf8.encode document)]> fs)
                      (log0 ++ [(INFO, MsgMerged (hb_file self))]))
          else (Raise UnicodeEncodeError,
                State (<[hb_file self := opened]> fs) log0)
      | Raise e => (Raise e, State fs log0)
      end.
Proof.
  intros fs document.
  destruct (merge_loop_spec (FS.sorted_glob fs (nodes_dir self) (txt ".txt")) []
              (State fs (st_log s ++ [(INFO, MsgMergeStart)])))
    as [[fs' log0] [H1 H2]].
  cbn [st_fs] in H1, H2. subst fs'. exists log0.
  unfold merge_files, bind, logger at 1, get_fs. fold fs.
  cbv beta iota zeta. cbn [st_fs st_log]. rewrite H1.
  unfold write_text, str_encode, logger, ret. cbn [st_fs st_log app].
  fold (hb_file self). fold (merged_files fs self). fold document.
  destruct (FS.open_w fs (hb_file self) []); [|done].
  by destruct (encodable document).
Qed.

(** The merger when the document can be encoded: the closed form of a
    single write. *)
Lemma merge_files_spec_encodable self s :
  let fs := st_fs s in
  let document := Str.join NL (flat_map (block fs) (merged_files fs self)) in
  encodable document = true ->
  exists log0,
    merge_files self s =
      match FS.open_w fs (hb_file self) (Utf8.encode document) with
      | Ok n => (Ok (hb_file self),
                 State (<[hb_file self := n]> fs)
                       (log0 ++ [(INFO, MsgMerged (hb_file self))]))
      | Raise e => (Raise e, State fs log0)
      end.
Proof.
  intros fs document Henc.
  destruct (merge_files_spec self s) as [log0 Hspec]. exists log0.
  rewrite Hspec. fold fs document. rewrite Henc.
  rewrite (open_w_set_data _ _ (Utf8.encode document)).
  by destruct (FS.open_w fs (hb_file self) []).
Qed.

Lemma open_w_data fs p d n :
  FS.open_w fs p d = Ok n -> file_data (<[p := n]> fs) p = Some d.
Proof.
  intros H. apply open_w_Ok in H as [_ [r [-> _]]].
  unfold file_data. by rewrite lookup_insert_eq.
Qed.

Lemma sorted_names d (l : list text)
    (P : path -> Prop) `{!forall x, Decision (P x)} :
  StronglySorted FS.name_le l ->
  StronglySorted FS.name_le (name <$> filter P ((fun n => d ++ [n]) <$> l)).
Proof.
  induction 1 as [|x l Hs IH Hx]; [constructor|].
  rewrite fmap_cons, filter_cons. case_decide; [|done].
  rewrite fmap_cons, name_snoc. constructor; [done|].
  apply Forall_forall. intros n Hn.
  apply list_elem_of_fmap in Hn as [p [-> Hp]].
  apply list_elem_of_filter in Hp as [_ Hp].
  apply list_elem_of_fmap in Hp as [m [-> Hm]]. rewrite name_snoc.
  rewrite Forall_forall in Hx. by apply Hx.
Qed.

Lemma encodable_join sep parts :
  encodable sep = true ->
  encodable (Str.join sep parts) = forallb encodable parts.
Proof.
  intros Hsep. induction parts as [|x parts IH]; [done|].
  cbn [Str.join forallb]. destruct parts as [|y parts].
  - cbn [forallb]. by rewrite andb_true_r.
  - by rewrite !encodable_app, Hsep, IH.
Qed.

Lemma encodable_trimmed_content fs file :
  encodable (default [] (trimmed_content fs file)) = true.
Proof.
  apply encodable_Forall. unfold trimmed_content, FS.read_decoded.
  destruct (FS.read_bytes fs file) as [d|e]; [|constructor].
  destruct (Utf8.decode d) as [t|] eqn:Ht; [|constructor].
  cbn [default id]. apply Forall_strip. apply Forall_concat.
  apply Forall_readlines; [done|constructor|]. by eapply decode_scalar.
Qed.

(** The merged document can be encoded exactly when the names of the
    files it is made of can. *)
Lemma encodable_merged_document fs self :
  encodable (merged_document fs self)
  = forallb (fun file => encodable (name file)) (merged_files fs self).
Proof.
  unfold merged_document. rewrite encodable_join by done.
  induction (merged_files fs self) as [|file files IH]; [done|].
  cbn [flat_map forallb]. rewrite forallb_app, IH. f_equal.
  unfold block. cbn [forallb]. rewrite encodable_trimmed_content.
  unfold provenance. rewrite !encodable_app.
  change (encodable (txt "# === ")) with true.
  change (encodable (txt " ===")) with true.
  change (encodable []) with true. by rewrite !andb_true_r.
Qed.

Lemma split_from_app_nl a : forall cur b,
  split_from cur (a ++ 10%N :: b) = split_from cur a ++ split_nl b.
Proof.
  induction a as [|c a IH]; intros cur b; [done|].
  cbn [app split_from]. destruct (c =? 10)%N; [|apply IH].
  by rewrite (IH [] b).
Qed.

Lemma split_nl_join parts :
  parts <> [] -> split_nl (Str.join NL parts) = flat_map split_nl parts.
Proof.
  induction parts as [|x parts IH]; [done|]. intros _.
  cbn [Str.join flat_map]. destruct parts as [|y parts].
  - cbn [flat_map]. by rewrite app_nil_r.
  - unfold NL. cbn [app]. unfold split_nl at 1.
    rewrite split_from_app_nl. f_equal. by apply IH.
Qed.

Lemma split_from_one_line t : forall cur,
  one_line t -> split_from cur t = [cur ++ t].
Proof.
  induction t as [|c t IH]; intros cur Ht; [by rewrite app_nil_r|].
  inversion Ht as [|? ? Hc Ht']; subst. cbn [split_from].
  unfold is_break in Hc. apply orb_false_iff in Hc as [-> _].
  rewrite IH by done. by rewrite <- app_assoc.
Qed.

Lemma filter_eq_NoDup {A} `{EqDecision A} (x : A) (l : list A) :
  NoDup l -> x ∈ l -> length (filter (fun y => y = x) l) = 1.
Proof.
  induction 1 as [|y l Hy Hnd IH]; [by intros ?%elem_of_nil|].
  rewrite filter_cons. intros [->|Hx]%elem_of_cons.
  - rewrite decide_True by done. cbn [length]. f_equal.
    rewrite filter_none; [done|]. intros z Hz ->. done.
  - rewrite decide_False by (intros ->; done). by apply IH.
Qed.

(** The header lines of a document made of blocks: one for the block of
    the file, and one more for each line of a file's text that reads the
    same. *)
Lemma header_count_blocks (files : list (list (list N)))
    (content : list (list N) -> list N) file :
  Forall (fun f => one_line (name f)) files ->
  NoDup ((fun f => provenance (name f)) <$> files) ->
  file ∈ files ->
  header_count
    (Str.join NL (flat_map (fun f => [provenance (name f); content f; []]) files))
    file
  = 1 + length (filter (fun l => l = provenance (name file))
                       (flat_map (fun f => split_nl (content f)) files)).
Proof.
  intros Hnames Hnd Hin. unfold header_count.
  rewrite split_nl_join by (destruct files; [by apply elem_of_nil in Hin|done]).
  rewrite <- (filter_eq_NoDup (provenance (name file))
                ((fun f => provenance (name f)) <$> files) Hnd)
    by (apply list_elem_of_fmap; by exists file).
  clear Hnd Hin. assert (provenance (name file) <> []) as Hh by done.
  revert Hh. generalize (provenance (name file)) as h. intros h Hh.
  induction Hnames as [|f files Hf _ IH]; [done|].
  cbn [flat_map app]. rewrite fmap_cons.
  assert (split_nl (provenance (name f)) = [provenance (name f)]) as ->.
  { apply (split_from_one_line _ []). unfold provenance.
    apply Forall_app. split; [by apply (bool_decide_unpack _)|].
    apply Forall_app. split; [done|]. by apply (bool_decide_unpack _). }
  change (split_nl []) with [@nil N].
  rewrite !filter_app, !length_app, IH.
  rewrite (filter_none (fun l => l = h) [[]]).
  - rewrite !(filter_cons _ (provenance (name f))), filter_nil.
    destruct (decide (provenance (name f) = h)); cbn [length app]; lia.
  - intros l ->%list_elem_of_singleton Heq. by apply Hh.
Qed.

(** C6, as the code has it.  The merged files are the .txt files of the
    nodes directory that can be read and whose trimmed text is not empty,
    without repeats and in the order of their names, and the headers of
    two of them differ.  With hb.txt writable:
    - when the names of the merged files can be encoded, the merger writes
      the document made of one block for each merged file, each block
      being the provenance header of the file, its trimmed text and an
      empty line; a file whose trimmed text is empty adds nothing;
    - when one of the names cannot be encoded, the merger raises
      UnicodeEncodeError and leaves hb.txt empty;
    - a text is copied as it is, so the number of lines of the document
      that are the header of a merged file is one plus the number of lines
      of the texts that read the same: one header line for a file only
      when no text holds such a line. *)
Theorem merge_files_blocks (self : NodeProcessor) (s : state) :
  is_ok (FS.open_w (st_fs s) (hb_file self) []) = true ->
  let fs := st_fs s in
  let files := merged_files fs self in
  let document :=
    Str.join NL (flat_map (fun file => [provenance (name file);
                                        default [] (trimmed_content fs file);
                                        []]) files) in
  (forall file,
      file ∈ files <->
      exists n content,
        file = nodes_dir self ++ [n]
        /\ Str.endswith n (txt ".txt") = true
        /\ FS.is_dir fs (nodes_dir self) = true
        /\ trimmed_content fs file = Some content /\ content <> [])
  /\ NoDup files
  /\ NoDup ((fun file => provenance (name file)) <$> files)
  /\ StronglySorted FS.name_le (name <$> files)
  /\ (forallb (fun file => encodable (name file)) files = true ->
      exists s',
        merge_files self s = (Ok (hb_file self), s')
        /\ file_data (st_fs s') (hb_file self) = Some (Utf8.encode document))
  /\ (forallb (fun file => encodable (name file)) files = false ->
      exists s',
        merge_files self s = (Raise UnicodeEncodeError, s')
        /\ file_data (st_fs s') (hb_file self) = Some [])
  /\ (Forall (fun file => one_line (name file)) files ->
      forall file, file ∈ files ->
        header_count document file
        = 1 + length (filter (fun l => l = provenance (name file))
                        (flat_map (fun f => split_nl (default []
                                                        (trimmed_content fs f)))
                                  files))).
Proof.
  intros Hopen fs files document. fold fs in Hopen.
  assert (NoDup files) as Hnd.
  { unfold files, merged_files, FS.sorted_glob. apply NoDup_filter.
    apply NoDup_fmap_2.
    - intros a b Hab. by apply app_inj_tail in Hab as [_ ?].
    - rewrite merge_sort_Permutation. apply NoDup_glob. }
  assert (NoDup ((fun file => provenance (name file)) <$> files)) as Hheaders.
  { apply NoDup_fmap_2_strong; [|done].
    intros a b Ha Hb Heq. unfold provenance in Heq.
    apply app_inv_head, app_inv_tail in Heq.
    apply (list_elem_of_filter (fun file => contributes fs file = true)) in Ha, Hb.
    destruct Ha as [_ Ha], Hb as [_ Hb].
    apply elem_of_sorted_glob in Ha as [na [-> _]].
    apply elem_of_sorted_glob in Hb as [nb [-> _]].
    rewrite !name_snoc in Heq. by subst. }
  destruct (merge_files_spec self s) as [log0 Hspec]. fold fs in Hspec.
  fold files in Hspec. fold (block fs) in document.
  change (Str.join NL (flat_map (block fs) files)) with document in Hspec.
  pose proof (encodable_merged_document fs self) as Henc.
  unfold merged_document in Henc. fold files in Henc.
  change (Str.join NL (flat_map (block fs) files)) with document in Henc.
  split; [|split; [done|split; [done|split; [|split; [|split]]]]].
  - intros file. unfold files, merged_files.
    rewrite (list_elem_of_filter (fun file => contributes fs file = true)).
    rewrite elem_of_sorted_glob. unfold contributes. split.
    + intros [Hc [m [-> [Hm [Hd _]]]]].
      destruct (trimmed_content fs (nodes_dir self ++ [m])) as [[|c t]|] eqn:Ht;
        try done.
      by exists m, (c :: t).
    + intros [m [content [-> [Hm [Hd [Ht Hne]]]]]]. rewrite Ht.
      split; [by destruct content|]. exists m. repeat split; try done.
      revert Ht. unfold trimmed_content, FS.read_decoded, FS.read_bytes.
      destruct (nodes_dir self ++ [m]); [done|].
      by destruct (fs !! _).
  - unfold files, merged_files, FS.sorted_glob. apply sorted_names.
    apply StronglySorted_merge_sort; apply _.
  - intros Hnames. rewrite Hnames in Henc. rewrite Hspec, Henc.
    destruct (FS.open_w fs (hb_file self) []) as [opened|e] eqn:Ho; [|done].
    eexists. split; [done|]. cbn [st_fs].
    apply open_w_Ok in Ho as [_ [r [-> _]]].
    unfold file_data. by rewrite lookup_insert_eq.
  - intros Hnames. rewrite Hnames in Henc. rewrite Hspec, Henc.
    destruct (FS.open_w fs (hb_file self) []) as [opened|e] eqn:Ho; [|done].
    eexists. split; [done|]. cbn [st_fs].
    apply open_w_Ok in Ho as [_ [r [-> _]]].
    unfold file_data. by rewrite lookup_insert_eq.
  - intros Hnames file Hfile. unfold document, block.
    by apply (header_count_blocks files
                (fun f => default [] (trimmed_content fs f))).
Qed.

(** ** The classifier and the output directory *)

Lemma is_ok_open_w_insert fs p v q d :
  p <> q -> p <> parent q ->
  is_ok (FS.open_w (<[p:=v]> fs) q d) = is_ok (FS.open_w fs q d).
Proof.
  intros Hq Hp. unfold FS.open_w. destruct q as [|c q]; [done|].
  rewrite lookup_insert_ne by done.
  by rewrite is_dir_insert, exists_insert.
Qed.

Lemma open_w_ext fs1 fs2 q d :
  fs1 !! q = fs2 !! q -> fs1 !! parent q = fs2 !! parent q ->
  FS.open_w fs1 q d = FS.open_w fs2 q d.
Proof.
  intros Hq Hp. unfold FS.open_w, FS.is_dir, FS.exists_.
  destruct q as [|c q]; [done|]. rewrite Hq.
  destruct (parent (c :: q)); [done|]. by rewrite Hp.
Qed.

Lemma snoc_neq_self (d : path) n : d ++ [n] <> d.
Proof.
  intros H. apply (f_equal length) in H. rewrite length_app in H.
  simpl in H. lia.
Qed.

(** One step of the loop over the protocols: nothing for an empty list,
    one write otherwise. *)
Lemma write_text_frame p t s (q : path) :
  q <> p -> st_fs (snd (write_text p t s)) !! q = st_fs s !! q.
Proof.
  intros Hq. unfold write_text.
  destruct (FS.open_w (st_fs s) p []) as [opened|e]; [|done].
  destruct (str_encode t); cbn [snd st_fs]; by rewrite lookup_insert_ne.
Qed.

(** The lines of a file that was decoded, and what the classifier keeps
    of them, can be encoded. *)
Lemma readlines_encodable fs (p : path) doc :
  FS.read_decoded fs p = Ok doc ->
  Forall (fun l => encodable l = true) (Str.readlines doc).
Proof.
  unfold FS.read_decoded. destruct (FS.read_bytes fs p) as [d|e]; [|done].
  destruct (Utf8.decode d) as [t|] eqn:Ht; [|done]. intros [= <-].
  assert (Forall (Forall (fun c => scalar_value c = true)) (Str.readlines t)) as Hl.
  { apply Forall_readlines; [done|constructor|]. by eapply decode_scalar. }
  eapply Forall_impl; [exact Hl|]. intros l Hc. by apply encodable_Forall.
Qed.

Lemma bucket_encodable lines b :
  Forall (fun l => encodable l = true) lines ->
  encodable (Str.join NL (bucket lines b)) = true.
Proof.
  intros Hlines. rewrite encodable_join by done. apply forallb_forall.
  intros l Hl. apply list_elem_of_In in Hl. rewrite bucket_filter in Hl.
  apply list_elem_of_filter in Hl as [_ Hl]. unfold entries in Hl.
  apply list_elem_of_filter in Hl as [_ Hl].
  apply list_elem_of_fmap in Hl as [raw [-> Hraw]].
  rewrite Forall_forall in Hlines. specialize (Hlines raw Hraw).
  apply encodable_Forall. apply Forall_strip. by apply encodable_Forall.
Qed.

Lemma write_protocol_step out lines proto s :
  encodable (Str.join NL lines) = true ->
  let file := out ++ [proto ++ txt ".txt"] in
  (if is_nil lines then ret tt
   else write_text file (Str.join NL lines) ;;
        logger INFO (MsgProtoFile file (length lines))) s
  = match lines with
    | [] => (Ok tt, s)
    | _ :: _ =>
        match FS.open_w (st_fs s) file (Utf8.encode (Str.join NL lines)) with
        | Ok n => (Ok tt, State (<[file := n]> (st_fs s))
                             (st_log s ++ [(INFO, MsgProtoFile file (length lines))]))
        | Raise e => (Raise e, s)
        end
    end.
Proof.
  intros Henc file. destruct lines as [|l lines]; [done|]. cbn [is_nil].
  unfold bind. rewrite write_text_spec by done.
  by destruct (FS.open_w _ _ _).
Qed.

Lemma write_protocols_frame out pc protos p : forall s,
  (forall proto, proto ∈ protos -> default [] (pc !! proto) <> [] ->
                 out ++ [proto ++ txt ".txt"] <> p) ->
  st_fs (snd (write_protocols out pc protos s)) !! p = st_fs s !! p.
Proof.
  induction protos as [|proto protos IH]; intros s Hp; [done|].
  cbn [write_protocols]. unfold bind at 1.
  destruct (default [] (pc !! proto)) as [|l lines] eqn:Hl; cbn [is_nil].
  - apply IH. intros q Hq. apply Hp. by right.
  - unfold bind at 1, logger.
    pose proof (write_text_frame (out ++ [proto ++ txt ".txt"])
                  (Str.join NL (l :: lines)) s p) as Hf.
    destruct (write_text _ _ s) as [[[]|e] s1]; cbn [snd] in Hf.
    + rewrite IH by (intros q Hq; apply Hp; by right).
      cbn [st_fs]. apply Hf. intros Heq.
      apply (Hp proto); [by left|by rewrite Hl|done].
    + cbn [snd]. apply Hf. intros Heq.
      apply (Hp proto); [by left|by rewrite Hl|done].
Qed.

Lemma proto_file_inj out a b :
  out ++ [a ++ txt ".txt"] = out ++ [b ++ txt ".txt"] -> a = b.
Proof.
  intros H. apply app_inv_head in H. injection H as H.
  by apply app_inv_tail in H.
Qed.

Lemma write_protocols_ok out pc protos : forall s,
  NoDup protos ->
  (forall proto, encodable (Str.join NL (default [] (pc !! proto))) = true) ->
  (forall proto, proto ∈ protos -> default [] (pc !! proto) <> [] ->
     is_ok (FS.open_w (st_fs s) (out ++ [proto ++ txt ".txt"]) []) = true) ->
  exists s',
    write_protocols out pc protos s = (Ok tt, s')
    /\ forall proto, proto ∈ protos -> default [] (pc !! proto) <> [] ->
         file_data (st_fs s') (out ++ [proto ++ txt ".txt"])
         = Some (Utf8.encode (Str.join NL (default [] (pc !! proto)))).
Proof.
  induction protos as [|proto protos IH]; intros s Hnd Henc Hw.
  - exists s. split; [done|]. by intros ? ?%elem_of_nil.
  - apply NoDup_cons in Hnd as [Hnotin Hnd].
    cbn [write_protocols]. unfold bind at 1.
    rewrite write_protocol_step by apply Henc.
    destruct (default [] (pc !! proto)) as [|l lines] eqn:Hl.
    + destruct (IH s Hnd Henc) as [s' [H1 H2]].
      { intros q Hq. apply Hw. by right. }
      exists s'. split; [done|]. intros q Hq Hne.
      apply elem_of_cons in Hq as [->|Hq]; [by rewrite Hl in Hne|by apply H2].
    + assert (is_ok (FS.open_w (st_fs s) (out ++ [proto ++ txt ".txt"])
                (Utf8.encode (Str.join NL (l :: lines)))) = true) as Ho.
      { rewrite (is_ok_open_w _ _ _ []). apply Hw; [left|by rewrite Hl]. }
      destruct (FS.open_w _ _ (Utf8.encode _)) as [n|e] eqn:Hopen; [|done].
      destruct (IH (State (<[out ++ [proto ++ txt ".txt"] := n]> (st_fs s))
                     (st_log s ++ [(INFO, MsgProtoFile (out ++ [proto ++ txt ".txt"])
                                            (length (l :: lines)))])) Hnd Henc)
        as [s' [H1 H2]].
      { intros q Hq Hne. cbn [st_fs]. rewrite is_ok_open_w_insert.
        - apply Hw; [by right|done].
        - intros Heq. apply proto_file_inj in Heq. by subst.
        - rewrite parent_snoc. apply snoc_neq_self. }
      exists s'. split; [done|]. intros q Hq Hne.
      apply elem_of_cons in Hq as [->|Hq]; [|by apply H2].
      rewrite Hl. unfold file_data.
      pose proof (write_protocols_frame out pc protos
                    (out ++ [proto ++ txt ".txt"])
                    (State (<[out ++ [proto ++ txt ".txt"] := n]> (st_fs s))
                       (st_log s ++ [(INFO, MsgProtoFile (out ++ [proto ++ txt ".txt"])
                                            (length (l :: lines)))]))) as Hf.
      rewrite H1 in Hf. cbn [snd st_fs] in Hf. rewrite Hf.
      * apply open_w_data in Hopen. unfold file_data in Hopen. done.
      * intros q Hq _ Heq. apply proto_file_inj in Heq. by subst.
Qed.

Lemma protocol_names_NoDup : NoDup (fst <$> protocols).
Proof. apply (bool_decide_unpack _). by vm_compute. Qed.

Lemma other_file_not_protocol out proto :
  proto ∈ fst <$> protocols -> out ++ [proto ++ txt ".txt"] <> out ++ [txt "other.txt"].
Proof.
  intros Hin Heq. apply app_inv_head in Heq. injection Heq as Heq.
  change (txt "other.txt") with (txt "other" ++ txt ".txt") in Heq.
  apply app_inv_tail in Heq. subst proto. revert Hin.
  apply (bool_decide_unpack _). by vm_compute.
Qed.

Lemma elem_of_bucket_ids b :
  b ∈ bucket_ids <->
  b = None \/ exists proto, b = Some proto /\ proto ∈ fst <$> protocols.
Proof.
  unfold bucket_ids. rewrite elem_of_app, list_elem_of_singleton.
  rewrite !list_elem_of_fmap. split.
  - intros [[e [-> He]]| ->]; [right|by left].
    exists (fst e). split; [done|]. apply list_elem_of_fmap. by exists e.
  - intros [->|[proto [-> Hp]]]; [by right|left].
    apply list_elem_of_fmap in Hp as [e [-> He]]. by exists e.
Qed.

(** Two buckets have two files. *)
Lemma bucket_file_inj self b b' :
  b ∈ bucket_ids -> b' ∈ bucket_ids ->
  bucket_file self b = bucket_file self b' -> b = b'.
Proof.
  intros Hb Hb' Heq. unfold bucket_file in Heq.
  apply elem_of_bucket_ids in Hb as [->|[p [-> Hp]]];
    apply elem_of_bucket_ids in Hb' as [->|[p' [-> Hp']]]; try done.
  - symmetry in Heq. by apply other_file_not_protocol in Heq.
  - by apply other_file_not_protocol in Heq.
  - f_equal. by eapply proto_file_inj.
Qed.

Lemma write_buckets_frame self lines p s :
  (forall b, b ∈ bucket_ids -> bucket lines b <> [] -> bucket_file self b <> p) ->
  st_fs (snd (write_buckets self (fst (classify lines)) (snd (classify lines)) s)) !! p
  = st_fs s !! p.
Proof.
  intros Hp. unfold write_buckets, bind.
  pose proof (write_protocols_frame (output_dir self) (fst (classify lines))
                (fst <$> protocols) p s) as Hf.
  destruct (write_protocols _ _ _ s) as [ [ [] | e ] s1 ]; cbn [snd] in *.
  - assert (st_fs s1 !! p = st_fs s !! p) as H1.
    { apply Hf. intros proto Hin Hne.
      apply (Hp (Some proto)); [|done]. apply elem_of_bucket_ids. right.
      by exists proto. }
    destruct (snd (classify lines)) as [|l others] eqn:Ho; [done|].
    cbn [is_nil].
    pose proof (write_text_frame (output_dir self ++ [txt "other.txt"])
                  (Str.join NL (l :: others)) s1 p) as Hother.
    assert (p <> output_dir self ++ [txt "other.txt"]) as Hne.
    { intros Heq. apply (Hp None); [apply elem_of_bucket_ids; by left| |done].
      unfold bucket. by rewrite Ho. }
    destruct (write_text _ _ s1) as [[[]|e] s2]; cbn [snd st_fs logger] in *;
      by rewrite Hother.
  - apply Hf. intros proto Hin Hne.
    apply (Hp (Some proto)); [|done]. apply elem_of_bucket_ids. right.
    by exists proto.
Qed.

Lemma write_buckets_ok self lines s :
  Forall (fun l => encodable l = true) lines ->
  (forall b, b ∈ bucket_ids -> bucket lines b <> [] ->
     is_ok (FS.open_w (st_fs s) (bucket_file self b) []) = true) ->
  exists s',
    write_buckets self (fst (classify lines)) (snd (classify lines)) s = (Ok tt, s')
    /\ forall b, b ∈ bucket_ids -> bucket lines b <> [] ->
         file_data (st_fs s') (bucket_file self b)
         = Some (Utf8.encode (Str.join NL (bucket lines b))).
Proof.
  intros Hlines Hw.
  destruct (write_protocols_ok (output_dir self) (fst (classify lines))
              (fst <$> protocols) s protocol_names_NoDup) as [s1 [H1 H2]].
  { intros proto. by apply (bucket_encodable lines (Some proto)). }
  { intros proto Hin Hne. apply (Hw (Some proto)); [|done].
    apply elem_of_bucket_ids. right. by exists proto. }
  pose proof (write_protocols_frame (output_dir self) (fst (classify lines))
                (fst <$> protocols)) as Hf.
  unfold write_buckets. rewrite (bind_Ok _ _ _ _ _ H1).
  destruct (snd (classify lines)) as [|l others] eqn:Ho; cbn [is_nil].
  - exists s1. split; [done|]. intros b Hb Hne.
    apply elem_of_bucket_ids in Hb as [->|[proto [-> Hin]]].
    + unfold bucket in Hne. by rewrite Ho in Hne.
    + by apply H2.
  - unfold bind. rewrite write_text_spec
      by (rewrite <- Ho; apply (bucket_encodable lines None Hlines)).
    assert (is_ok (FS.open_w (st_fs s1) (output_dir self ++ [txt "other.txt"])
              (Utf8.encode (Str.join NL (l :: others)))) = true) as Hok.
    { rewrite (is_ok_open_w _ _ _ []).
      assert (forall d, FS.open_w (st_fs s1) (output_dir self ++ [txt "other.txt"]) d
                        = FS.open_w (st_fs s) (output_dir self ++ [txt "other.txt"]) d)
        as ->.
      { intros d. apply open_w_ext.
        - specialize (Hf (output_dir self ++ [txt "other.txt"]) s).
          rewrite H1 in Hf. cbn [snd] in Hf. apply Hf.
          intros proto Hin _. by apply other_file_not_protocol.
        - rewrite parent_snoc. specialize (Hf (output_dir self) s).
          rewrite H1 in Hf. cbn [snd] in Hf. apply Hf.
          intros proto _ _. apply snoc_neq_self. }
      apply (Hw None); [apply elem_of_bucket_ids; by left|].
      unfold bucket. by rewrite Ho. }
    destruct (FS.open_w _ _ (Utf8.encode _)) as [n|e] eqn:Hopen; [|done].
    eexists. split; [done|]. cbn [st_fs]. intros b Hb Hne.
    apply elem_of_bucket_ids in Hb as [->|[proto [-> Hin]]].
    + unfold bucket at 1. rewrite Ho. by eapply open_w_data.
    + unfold file_data, bucket_file. rewrite lookup_insert_ne.
      * by apply H2.
      * intros Heq. symmetry in Heq. by apply other_file_not_protocol in Heq.
Qed.

Lemma split_by_protocol_spec self input_file s :
  let s1 := State (st_fs s) (st_log s ++ [(INFO, MsgSplitStart)]) in
  split_by_protocol self input_file s =
    match FS.read_decoded (st_fs s) input_file with
    | Raise e =>
        (Ok tt, State (st_fs s) (st_log s1 ++ [(ERROR, MsgSplitFailed e)]))
    | Ok doc =>
        let lines := Str.readlines doc in
        match write_buckets self (fst (classify lines)) (snd (classify lines)) s1 with
        | (Ok _, s2) => (Ok tt, s2)
        | (Raise e, s2) =>
            (Ok tt, State (st_fs s2) (st_log s2 ++ [(ERROR, MsgSplitFailed e)]))
        end
    end.
Proof.
  intros s1. unfold split_by_protocol, bind at 1, logger at 1. fold s1.
  unfold try_except, bind, read_lines. cbn [st_fs s1].
  destruct (FS.read_decoded (st_fs s) input_file) as [doc|e]; [|done].
  cbv zeta. by destruct (write_buckets _ _ _ s1) as [ [ [] | e ] s2 ].
Qed.

(** C7. When the merged file can be read and the files of the buckets
    that have lines can be written, the classifier returns with, for each
    bucket that has lines, its file holding those lines joined by newlines,
    in the order of the document; a bucket without lines gets no file (a
    path that held no file holds none afterwards); and no other path of
    the file system changes.  This covers the eight protocol buckets and
    other.txt alike. *)
Theorem split_by_protocol_writes (self : NodeProcessor) (input_file : path)
    (s : state) (doc : text) :
  FS.read_decoded (st_fs s) input_file = Ok doc ->
  let lines := Str.readlines doc in
  (forall b, b ∈ bucket_ids -> bucket lines b <> [] ->
     is_ok (FS.open_w (st_fs s) (bucket_file self b) []) = true) ->
  exists s',
    split_by_protocol self input_file s = (Ok tt, s')
    /\ (forall b, b ∈ bucket_ids -> bucket lines b <> [] ->
          file_data (st_fs s') (bucket_file self b)
          = Some (Utf8.encode (Str.join NL (bucket lines b)))
          /\ bucket lines b `sublist_of` (Str.strip <$> lines))
    /\ (forall b, b ∈ bucket_ids -> bucket lines b = [] ->
          st_fs s' !! bucket_file self b = st_fs s !! bucket_file self b)
    /\ (forall p, (forall b, b ∈ bucket_ids -> p <> bucket_file self b) ->
          st_fs s' !! p = st_fs s !! p).
Proof.
  intros Hread lines Hw.
  rewrite split_by_protocol_spec, Hread. cbv zeta. fold lines.
  set (s1 := State (st_fs s) (st_log s ++ [(INFO, MsgSplitStart)])).
  destruct (write_buckets_ok self lines s1
              (readlines_encodable _ _ _ Hread) Hw) as [s' [H1 H2]].
  pose proof (write_buckets_frame self lines) as Hf.
  rewrite H1. exists s'. split; [done|]. split; [|split].
  - intros b Hb Hne. split; [by apply H2|].
    rewrite bucket_filter. etrans; [apply sublist_filter|].
    apply sublist_filter.
  - intros b Hb Hnil. specialize (Hf (bucket_file self b) s1).
    rewrite H1 in Hf. cbn [snd] in Hf. apply Hf.
    intros b' Hb' Hne Heq.
    by rewrite (bucket_file_inj self b' b Hb' Hb Heq) in Hne.
  - intros p Hp. specialize (Hf p s1).
    rewrite H1 in Hf. cbn [snd] in Hf. apply Hf.
    intros b Hb _ Heq. by apply (Hp b).
Qed.

(** C9. A bucket that is empty in this run leaves its file alone: the
    path holds after the classifier what it held before, so a file a
    previous run left there survives with its content, whether or not the
    classifier ends with an error.  When the merged file cannot be read,
    nothing in the file system changes. *)
Theorem split_by_protocol_keeps_stale_files (self : NodeProcessor)
    (input_file : path) (s : state) :
  let s' := snd (split_by_protocol self input_file s) in
  (forall doc b,
      FS.read_decoded (st_fs s) input_file = Ok doc ->
      b ∈ bucket_ids ->
      bucket (Str.readlines doc) b = [] ->
      st_fs s' !! bucket_file self b = st_fs s !! bucket_file self b
      /\ file_data (st_fs s') (bucket_file self b)
         = file_data (st_fs s) (bucket_file self b))
  /\ (forall e, FS.read_decoded (st_fs s) input_file = Raise e ->
        st_fs s' = st_fs s).
Proof.
  intros s'. unfold s'. rewrite split_by_protocol_spec. split.
  - intros doc b Hread Hb Hnil. rewrite Hread. cbv zeta.
    set (s1 := State (st_fs s) (st_log s ++ [(INFO, MsgSplitStart)])).
    assert (st_fs (snd (write_buckets self (fst (classify (Str.readlines doc)))
                          (snd (classify (Str.readlines doc))) s1))
              !! bucket_file self b = st_fs s !! bucket_file self b) as Hf.
    { rewrite write_buckets_frame; [done|].
      intros b' Hb' Hne Heq.
      by rewrite (bucket_file_inj self b' b Hb' Hb Heq) in Hne. }
    destruct (write_buckets _ _ _ s1) as [ [ [] | e ] s2 ]; cbn [snd st_fs] in *;
      unfold file_data; by rewrite Hf.
  - intros e Hread. by rewrite Hread.
Qed.

(** ** Properties of the orchestrator *)

Lemma split_by_protocol_returns self input_file s :
  split_by_protocol self input_file s
  = (Ok tt, snd (split_by_protocol self input_file s)).
Proof.
  rewrite split_by_protocol_spec.
  destruct (FS.read_decoded (st_fs s) input_file) as [doc|e]; [|done].
  cbv zeta. by destruct (write_buckets _ _ _ _) as [ [ [] | e ] s2 ].
Qed.

Lemma run_spec self force s :
  run self force s =
    match check_changes self (started s) with
    | (Raise e, s1) => (Raise e, s1)
    | (Ok changes, s1) =>
        if negb (fst changes) && negb force
        then (Ok false, log_entry s1 INFO MsgSkip)
        else
          match merge_files self (log_entry s1 INFO MsgProcessing) with
          | (Raise e, s3) => (Ok false, log_entry s3 ERROR (MsgRunFailed e))
          | (Ok merged_file, s3) =>
              match generate_report self
                      (snd (split_by_protocol self merged_file s3)) with
              | (Raise e, s5) => (Ok false, log_entry s5 ERROR (MsgRunFailed e))
              | (Ok _, s5) => (Ok true, log_entry s5 INFO MsgDone)
              end
          end
    end.
Proof.
  unfold run. unfold bind at 1 2 3 4, logger at 1 2 3 4.
  cbn [st_fs st_log]. rewrite <- !app_assoc. cbn [app]. fold (started s).
  unfold bind at 1.
  destruct (check_changes self (started s)) as [[changes|e] s1]; [|done].
  destruct (negb (fst changes) && negb force); [done|].
  unfold bind at 1, logger at 1. fold (log_entry s1 INFO MsgProcessing).
  unfold try_except, bind at 1.
  destruct (merge_files self _) as [[merged_file|e] s3]; [|done].
  unfold bind at 1. rewrite split_by_protocol_returns.
  unfold bind at 1.
  by destruct (generate_report self _) as [ [ [] | e ] s5 ].
Qed.

(** C3. The exit status of [main] is 0 exactly when [run] returns True and
    is 1 otherwise; in particular it is 1 when [check_changes] reports no
    change and the run is not forced. *)
Theorem main_exit_status :
  (forall force config s,
      fst (main force config s) = 0%N <->
      fst (run {| base_dir := config |} force s) = Ok true)
  /\ (forall force config s,
        fst (run {| base_dir := config |} force s) <> Ok true ->
        fst (main force config s) = 1%N)
  /\ (forall config s h s1,
        check_changes {| base_dir := config |} (started s) = (Ok (false, h), s1) ->
        run {| base_dir := config |} false s = (Ok false, log_entry s1 INFO MsgSkip)
        /\ main false config s = (1%N, log_entry s1 INFO MsgSkip)).
Proof.
  split; [|split].
  - intros force config s. unfold main.
    destruct (run _ force s) as [[[|]|e] s']; cbn [fst]; split; done.
  - intros force config s. unfold main.
    destruct (run _ force s) as [[[|]|e] s']; cbn [fst]; done.
  - intros config s h s1 Hcheck.
    assert (run {| base_dir := config |} false s
            = (Ok false, log_entry s1 INFO MsgSkip)) as Hrun.
    { by rewrite run_spec, Hcheck. }
    split; [done|]. unfold main. by rewrite Hrun.
Qed.

(** ** What each stage changes *)

Lemma output_file_neq_hash_file self x :
  output_dir self ++ [x] <> hash_file self.
Proof.
  unfold output_dir, hash_file. rewrite <- app_assoc. intros H.
  by apply app_inv_head in H.
Qed.

Lemma output_file_neq_output_dir self x : output_dir self ++ [x] <> output_dir self.
Proof. apply snoc_neq_self. Qed.

Lemma output_dir_neq_nodes_dir self : output_dir self <> nodes_dir self.
Proof.
  unfold output_dir, nodes_dir. intros H. apply app_inj_tail in H as [_ H].
  by vm_compute in H.
Qed.

Lemma length_parent (p : path) : length (parent p) <= length p.
Proof.
  unfold parent. induction p as [|c p IH]; [done|].
  destruct p; simpl in *; lia.
Qed.

Lemma output_file_neq_nodes_dir self x : output_dir self ++ [x] <> nodes_dir self.
Proof.
  intros H. apply (f_equal parent) in H. rewrite parent_snoc in H.
  unfold nodes_dir, output_dir in H. rewrite parent_snoc in H.
  pose proof (length_parent (base_dir self)) as Hle.
  rewrite <- H, length_app in Hle. simpl in Hle. lia.
Qed.

(** A path the fingerprint or the merger may read: the nodes directory or
    one of its entries.  No file of the output directory is one. *)
Lemma output_file_not_watched self x p :
  p = nodes_dir self \/ (p <> [] /\ parent p = nodes_dir self) ->
  output_dir self ++ [x] <> p.
Proof.
  intros [->|[_ Hp]] Heq.
  - by apply output_file_neq_nodes_dir in Heq.
  - subst p. rewrite parent_snoc in Hp. by apply output_dir_neq_nodes_dir in Hp.
Qed.

Lemma check_changes_Ok self s changed h s1 :
  check_changes self s = (Ok (changed, h), s1) ->
  h = fingerprint (st_fs s) (nodes_dir self)
  /\ st_fs s1 = <[hash_file self := File (Utf8.encode h) true true]> (st_fs s).
Proof.
  intros Hrun. destruct (check_changes_spec self s) as [log0 Hspec].
  rewrite Hspec in Hrun. clear Hspec.
  destruct (read_marker _ _) as [last|e] eqn:Hread; [|done].
  destruct (FS.open_w _ _ _) as [n|e] eqn:Hopen; [|done].
  injection Hrun as <- <- <-.
  apply open_w_Ok in Hopen as [Hne [r [-> [Hnew Hold]]]].
  assert (r = true) as ->.
  { destruct (read_marker_Ok _ _ _ Hne Hread) as [Hn|[d0 [w0 Hs]]];
      [by apply Hnew|by eapply Hold]. }
  done.
Qed.

Lemma check_changes_Raise self s e s1 :
  check_changes self s = (Raise e, s1) -> st_fs s1 = st_fs s.
Proof.
  intros Hrun. destruct (check_changes_spec self s) as [log0 Hspec].
  rewrite Hspec in Hrun. clear Hspec.
  destruct (read_marker _ _) as [last|e']; [|by injection Hrun as _ <-].
  destruct (FS.open_w _ _ _) as [n|e']; [done|by injection Hrun as _ <-].
Qed.

(** A marker that already holds the fingerprint of the directory: the
    call reports no change and leaves the file system as it is. *)
Lemma check_changes_settled self s h :
  st_fs s !! hash_file self = Some (File (Utf8.encode h) true true) ->
  fingerprint (st_fs s) (nodes_dir self) = h ->
  exists log', check_changes self s = (Ok (false, h), State (st_fs s) log').
Proof.
  intros Hl Hf. destruct (marker_reads_back self (st_fs s) h) as [Hr Ho];
    [rewrite <- Hf; apply plain_fingerprint|done|].
  destruct (check_changes_spec self s) as [log0 Hspec].
  rewrite Hf, Hr, Ho in Hspec.
  assert (differs (Some h) h = false) as Hd.
  { unfold differs. by rewrite bool_decide_eq_true_2. }
  rewrite Hd, insert_id in Hspec by done. by eexists.
Qed.

Lemma merge_files_Ok self s f s1 :
  merge_files self s = (Ok f, s1) ->
  f = hb_file self
  /\ exists n,
      FS.open_w (st_fs s) (hb_file self)
        (Utf8.encode (merged_document (st_fs s) self)) = Ok n
      /\ st_fs s1 = <[hb_file self := n]> (st_fs s).
Proof.
  intros Hrun. destruct (merge_files_spec self s) as [log0 Hspec].
  rewrite Hspec in Hrun. clear Hspec. fold (merged_document (st_fs s) self) in Hrun.
  rewrite (open_w_set_data _ _ (Utf8.encode _)).
  destruct (FS.open_w _ _ []) as [n|e]; [|done].
  destruct (encodable _); [|done].
  injection Hrun as <- <-. split; [done|]. by eexists.
Qed.

Lemma merge_files_Ok_encodable self s f s1 :
  merge_files self s = (Ok f, s1) ->
  encodable (merged_document (st_fs s) self) = true.
Proof.
  intros Hrun. destruct (merge_files_spec self s) as [log0 Hspec].
  rewrite Hspec in Hrun. clear Hspec. fold (merged_document (st_fs s) self) in Hrun.
  destruct (FS.open_w _ _ []) as [n|e]; [|done].
  by destruct (encodable _).
Qed.

(** A merger that raises: the merged file could not be opened, and
    nothing has changed; or it was opened, [f.write] could not encode the
    document, and the file is left empty. *)
Lemma merge_files_Raise self s e s1 :
  merge_files self s = (Raise e, s1) ->
  (st_fs s1 = st_fs s /\ FS.open_w (st_fs s) (hb_file self) [] = Raise e)
  \/ (e = UnicodeEncodeError
      /\ encodable (merged_document (st_fs s) self) = false
      /\ exists opened,
           FS.open_w (st_fs s) (hb_file self) [] = Ok opened
           /\ st_fs s1 = <[hb_file self := opened]> (st_fs s)).
Proof.
  intros Hrun. destruct (merge_files_spec self s) as [log0 Hspec].
  rewrite Hspec in Hrun. clear Hspec. fold (merged_document (st_fs s) self) in Hrun.
  destruct (FS.open_w _ _ []) as [n|e'].
  - destruct (encodable _); [done|]. injection Hrun as <- <-. right.
    split; [done|]. split; [done|]. by exists n.
  - injection Hrun as <- <-. by left.
Qed.

Lemma merge_files_frame self s p :
  p <> hb_file self -> st_fs (snd (merge_files self s)) !! p = st_fs s !! p.
Proof.
  intros Hp. destruct (merge_files_spec self s) as [log0 Hspec].
  rewrite Hspec. clear Hspec.
  destruct (FS.open_w _ _ []) as [n|e]; [|done].
  destruct (encodable _); cbn [snd st_fs]; by rewrite lookup_insert_ne.
Qed.

Lemma split_by_protocol_frame self input_file s p :
  (forall b, b ∈ bucket_ids -> bucket_file self b <> p) ->
  st_fs (snd (split_by_protocol self input_file s)) !! p = st_fs s !! p.
Proof.
  intros Hp. rewrite split_by_protocol_spec.
  destruct (FS.read_decoded (st_fs s) input_file) as [doc|e]; [|done].
  cbv zeta.
  set (s1 := State (st_fs s) (st_log s ++ [(INFO, MsgSplitStart)])).
  pose proof (write_buckets_frame self (Str.readlines doc) p s1) as Hf.
  destruct (write_buckets _ _ _ s1) as [ [ [] | e ] s2 ]; cbn [snd st_fs] in *;
    apply Hf; intros b Hb _; by apply Hp.
Qed.

(** ** Properties of the reporter *)

Lemma generate_report_spec self s :
  generate_report self s =
    match FS.open_w (st_fs s) (report_file self) [] with
    | Raise e => (Raise e, s)
    | Ok opened =>
        let result :=
          report_result (<[report_file self := opened]> (st_fs s)) self in
        let closed :=
          State (<[report_file self := set_data opened (Utf8.encode (fst result))]>
                   (st_fs s))
                (st_log s) in
        match snd result with
        | Some e => (Raise e, closed)
        | None => (Ok tt, log_entry closed INFO (MsgReport (report_file self)))
        end
    end.
Proof.
  unfold generate_report. fold (report_file self).
  destruct (FS.open_w (st_fs s) (report_file self) []) as [opened|e]; [|done].
  cbv zeta. fold (report_result (<[report_file self:=opened]> (st_fs s)) self).
  rewrite insert_insert_eq.
  by destruct (snd (report_result _ self)).
Qed.

Lemma glob_insert fs p v d ext :
  p <> d -> Str.endswith (name p) ext = false ->
  FS.glob (<[p:=v]> fs) d ext ≡ₚ FS.glob fs d ext.
Proof.
  intros Hne Hext. apply NoDup_Permutation; [apply NoDup_glob|apply NoDup_glob|].
  intros n. rewrite !elem_of_glob, is_dir_insert by done.
  destruct (decide (p = d ++ [n])) as [->|Hp].
  - rewrite name_snoc in Hext. rewrite Hext. by split; intros [? _].
  - by rewrite lookup_insert_ne.
Qed.

Lemma read_decoded_insert fs p v q :
  p <> q -> FS.read_decoded (<[p:=v]> fs) q = FS.read_decoded fs q.
Proof. intros Hne. unfold FS.read_decoded. by rewrite read_bytes_insert. Qed.

Lemma report_files_ext fs1 fs2 files : forall written,
  (forall file, file ∈ files -> FS.read_decoded fs1 file = FS.read_decoded fs2 file) ->
  report_files fs1 files written = report_files fs2 files written.
Proof.
  induction files as [|file files IH]; intros written Hsame; [done|].
  cbn [report_files]. rewrite (Hsame file) by left.
  destruct (FS.read_decoded fs2 file); [|done].
  destruct (encodable (name file)); [|done].
  apply IH. intros f Hf. apply Hsame. by right.
Qed.

Lemma report_file_not_listed self fs :
  report_file self ∉ FS.sorted_glob fs (output_dir self) (txt ".txt").
Proof.
  intros Hin. apply elem_of_sorted_glob in Hin as [n [Heq [Hn _]]].
  unfold report_file in Heq. apply app_inj_tail in Heq as [_ <-].
  by vm_compute in Hn.
Qed.

(** Creating the report does not change what the report says. *)
Lemma report_result_insert self fs v :
  report_result (<[report_file self := v]> fs) self = report_result fs self.
Proof.
  unfold report_result.
  assert (Str.endswith (name (report_file self)) (txt ".txt") = false) as Hext.
  { unfold report_file. by rewrite name_snoc. }
  rewrite !glob_insert, !sorted_glob_insert;
    try done; try apply output_file_neq_output_dir;
    try apply output_file_neq_nodes_dir.
  apply report_files_ext. intros file Hfile. apply read_decoded_insert.
  intros <-. by apply report_file_not_listed in Hfile.
Qed.

Lemma report_files_Ok fs files : forall written,
  (forall file, file ∈ files -> is_ok (FS.read_decoded fs file) = true) ->
  (forall file, file ∈ files -> encodable (name file) = true) ->
  report_files fs files written
  = (written ++ flat_map (fun file => report_entry file (counted fs file)) files,
     None).
Proof.
  induction files as [|file files IH]; intros written Hok Henc.
  - simpl. by rewrite app_nil_r.
  - cbn [report_files flat_map]. unfold counted at 1.
    pose proof (Hok file (list_elem_of_here _ _)) as Hfile.
    destruct (FS.read_decoded fs file) as [t|e]; [|done].
    rewrite (Henc file) by left.
    fold (line_count t).
    rewrite IH; [|intros f Hf; apply Hok; by right|intros f Hf; apply Henc; by right].
    by rewrite <- app_assoc.
Qed.

(** Where the loop of the reporter stops: at a file that cannot be read,
    with the exception of the read, or at a file that can be read and
    whose name cannot be encoded, with [UnicodeEncodeError]. *)
Lemma report_files_Raise fs before bad after e : forall written,
  (forall file, file ∈ before -> is_ok (FS.read_decoded fs file) = true) ->
  (forall file, file ∈ before -> encodable (name file) = true) ->
  FS.read_decoded fs bad = Raise e
  \/ (is_ok (FS.read_decoded fs bad) = true
      /\ encodable (name bad) = false /\ e = UnicodeEncodeError) ->
  report_files fs (before ++ bad :: after) written
  = (written ++ flat_map (fun file => report_entry file (counted fs file)) before,
     Some e).
Proof.
  induction before as [|file files IH]; intros written Hok Henc Hbad.
  - cbn [app report_files flat_map]. rewrite app_nil_r.
    destruct Hbad as [->|[Hread [-> ->]]]; [done|].
    by destruct (FS.read_decoded fs bad).
  - cbn [report_files flat_map app]. unfold counted at 1.
    pose proof (Hok file (list_elem_of_here _ _)) as Hfile.
    destruct (FS.read_decoded fs file) as [t|e']; [|done].
    rewrite (Henc file) by left.
    fold (line_count t).
    rewrite IH; [|intros f Hf; apply Hok; by right
                 |intros f Hf; apply Henc; by right|done].
    by rewrite <- app_assoc.
Qed.

Lemma generate_report_frame self s p :
  p <> report_file self ->
  st_fs (snd (generate_report self s)) !! p = st_fs s !! p.
Proof.
  intros Hp. rewrite generate_report_spec.
  destruct (FS.open_w _ _ _) as [opened|e]; [|done]. cbv zeta.
  destruct (snd (report_result _ self)); cbn [snd st_fs log_entry];
    by rewrite lookup_insert_ne.
Qed.

(** X1. When REPORT.md can be opened for writing, every .txt file of the
    output directory can be read and the name of each can be encoded in
    UTF-8, the reporter returns with REPORT.md holding the header (with
    the numbers of .txt files of the nodes and output directories)
    followed by one entry for each .txt file of the output directory, in
    the order of the names, with the number of its lines that are not
    blank; the reporter logs one line, and apart from REPORT.md and the
    log file that line goes to, no path changes. *)
Theorem generate_report_writes (self : NodeProcessor) (s : state) :
  is_ok (FS.open_w (st_fs s) (report_file self) []) = true ->
  (forall file, file ∈ FS.sorted_glob (st_fs s) (output_dir self) (txt ".txt") ->
                is_ok (FS.read_decoded (st_fs s) file) = true) ->
  (forall file, file ∈ FS.sorted_glob (st_fs s) (output_dir self) (txt ".txt") ->
                encodable (name file) = true) ->
  let fs := st_fs s in
  exists s',
    generate_report self s = (Ok tt, s')
    /\ file_data (st_fs s') (report_file self)
       = Some (Utf8.encode
                 (report_header
                    (length (FS.glob fs (nodes_dir self) (txt ".txt")))
                    (length (FS.glob fs (output_dir self) (txt ".txt")))
                  ++ flat_map (fun file => report_entry file (counted fs file))
                       (FS.sorted_glob fs (output_dir self) (txt ".txt"))))
    /\ (forall p, p <> report_file self -> p <> log_file self ->
                  st_fs s' !! p = st_fs s !! p)
    /\ st_log s' = st_log s ++ [(INFO, MsgReport (report_file self))].
Proof.
  intros Hopen Hread Henc fs.
  pose proof (generate_report_frame self s) as Hframe.
  rewrite generate_report_spec in *. fold fs in Hopen, Hframe |- *.
  destruct (FS.open_w fs (report_file self) []) as [opened|e] eqn:Ho; [|done].
  cbv zeta in *. rewrite report_result_insert in *.
  unfold report_result in *. rewrite report_files_Ok in * by done.
  cbn [fst snd] in *. eexists. split; [done|].
  cbn [st_fs st_log log_entry].
  split; [|split; [intros p Hp _; by apply Hframe|done]].
  apply open_w_Ok in Ho as [_ [r [-> _]]].
  unfold file_data. by rewrite lookup_insert_eq.
Qed.

(** X2. The reporter stops at the first entry of the output directory
    named *.txt, in the order of the names, that cannot be read (no
    permission, a directory, bytes that are not UTF-8) or that can be
    read and has a name that cannot be encoded in UTF-8: it raises the
    exception of the read, or [UnicodeEncodeError] for the name.
    REPORT.md is left holding the header and the entries of the files
    that sort before the one that failed, nothing is logged, and apart
    from REPORT.md no path changes.  When REPORT.md itself cannot be
    opened, the reporter raises and the state is unchanged. *)
Theorem generate_report_stops_at_unreadable_file (self : NodeProcessor)
    (s : state) :
  let fs := st_fs s in
  (forall before bad after e,
      is_ok (FS.open_w fs (report_file self) []) = true ->
      FS.sorted_glob fs (output_dir self) (txt ".txt") = before ++ bad :: after ->
      (forall file, file ∈ before ->
                    is_ok (FS.read_decoded fs file) = true
                    /\ encodable (name file) = true) ->
      FS.read_decoded fs bad = Raise e
      \/ (is_ok (FS.read_decoded fs bad) = true
          /\ encodable (name bad) = false /\ e = UnicodeEncodeError) ->
      exists s',
        generate_report self s = (Raise e, s')
        /\ file_data (st_fs s') (report_file self)
           = Some (Utf8.encode
                     (report_header
                        (length (FS.glob fs (nodes_dir self) (txt ".txt")))
                        (length (FS.glob fs (output_dir self) (txt ".txt")))
                      ++ flat_map (fun file => report_entry file (counted fs file))
                           before))
        /\ (forall p, p <> report_file self -> st_fs s' !! p = st_fs s !! p)
        /\ st_log s' = st_log s)
  /\ (forall e, FS.open_w fs (report_file self) [] = Raise e ->
                generate_report self s = (Raise e, s)).
Proof.
  intros fs. split.
  - intros before bad after e Hopen Hfiles Hread Hbad.
    pose proof (generate_report_frame self s) as Hframe.
    rewrite generate_report_spec in *. fold fs in Hopen, Hframe |- *.
    destruct (FS.open_w fs (report_file self) []) as [opened|e'] eqn:Ho; [|done].
    cbv zeta in *. rewrite report_result_insert in *.
    unfold report_result in *. rewrite Hfiles in *.
    rewrite (report_files_Raise fs before bad after e) in *
      by first [done | intros f Hf; by destruct (Hread f Hf)].
    cbn [fst snd] in *. eexists. split; [done|].
    cbn [st_fs st_log]. split; [|split; [exact Hframe|done]].
    apply open_w_Ok in Ho as [_ [r [-> _]]].
    unfold file_data. by rewrite lookup_insert_eq.
  - intros e Hopen. rewrite generate_report_spec. fold fs. by rewrite Hopen.
Qed.

(** ** What a run changes *)

Lemma hb_file_output self : hb_file self = output_dir self ++ [txt "hb.txt"].
Proof. done. Qed.

Lemma bucket_file_output self b : exists x, bucket_file self b = output_dir self ++ [x].
Proof. unfold bucket_file. by eexists. Qed.

(** The file system after [run], stage by stage: an exception of
    [check_changes] leaves it as it was; otherwise the marker holds the
    fingerprint and the stages that follow change nothing but the merged
    document, the files of the buckets and the report; on the skip path
    they change nothing. *)
Lemma run_fs self force s :
  match check_changes self (started s) with
  | (Raise e, s1) => run self force s = (Raise e, s1) /\ st_fs s1 = st_fs s
  | (Ok changes, s1) =>
      exists b s',
        run self force s = (Ok b, s')
        /\ (forall p,
              p <> hb_file self ->
              (forall b, b ∈ bucket_ids -> bucket_file self b <> p) ->
              p <> report_file self ->
              st_fs s' !! p = st_fs s1 !! p)
        /\ (negb (fst changes) && negb force = true ->
            b = false /\ st_fs s' = st_fs s1)
  end.
Proof.
  rewrite run_spec.
  destruct (check_changes self (started s)) as [[changes|e] s1] eqn:Hcheck.
  2:{ split; [done|]. by apply check_changes_Raise in Hcheck. }
  destruct (negb (fst changes) && negb force).
  { eexists _, _. split; [done|]. by split. }
  set (s2 := log_entry s1 INFO MsgProcessing).
  destruct (merge_files self s2) as [[merged_file|e] s3] eqn:Hmerge.
  - apply merge_files_Ok in Hmerge as [-> [n [_ Hfs3]]].
    pose proof (split_by_protocol_frame self (hb_file self) s3) as Hsplit.
    pose proof (generate_report_frame self
                  (snd (split_by_protocol self (hb_file self) s3))) as Hreport.
    destruct (generate_report self _) as [ [ [] | e ] s5 ];
      eexists _, _; (split; [done|]); (split; [|done]);
      intros p Hhb Hb Hrep; cbn [snd st_fs log_entry] in *;
      rewrite Hreport, Hsplit, Hfs3 by done; by rewrite lookup_insert_ne.
  - pose proof (merge_files_frame self s2) as Hfs3.
    rewrite Hmerge in Hfs3. cbn [snd] in Hfs3.
    eexists _, _. split; [done|]. split; [|done].
    intros p Hhb _ _. cbn [st_fs log_entry]. by apply Hfs3.
Qed.

Lemma not_elem_of_run_files self p :
  p ∉ run_files self <->
  p <> hash_file self /\ p <> hb_file self /\ p <> report_file self
  /\ forall b, b ∈ bucket_ids -> bucket_file self b <> p.
Proof.
  unfold run_files. rewrite !not_elem_of_cons. split.
  - intros [H1 [H2 [H3 H4]]]. repeat (split; [done|]).
    intros b Hb <-. apply H4. by apply list_elem_of_fmap_2.
  - intros [H1 [H2 [H3 H4]]]. repeat (split; [done|]).
    intros [b [-> Hb]]%list_elem_of_fmap. by apply (H4 b).
Qed.

Lemma run_frame self force s p :
  p ∉ run_files self ->
  st_fs (snd (run self force s)) !! p = st_fs s !! p.
Proof.
  intros [Hm [Hhb [Hrep Hb]]]%not_elem_of_run_files.
  pose proof (run_fs self force s) as Hrun.
  destruct (check_changes self (started s)) as [[[changed h]|e] s1] eqn:Hcheck.
  - destruct Hrun as [b [s' [-> [Hframe _]]]]. cbn [snd].
    rewrite Hframe by done.
    apply check_changes_Ok in Hcheck as [_ ->]. by rewrite lookup_insert_ne.
  - destruct Hrun as [-> Hfs]. cbn [snd]. by rewrite Hfs.
Qed.

Lemma run_file_not_watched self f p :
  f ∈ run_files self ->
  p = nodes_dir self
  \/ (exists n ext, p = nodes_dir self ++ [n]
                    /\ ext ∈ [txt ".txt"; txt ".yaml"; txt ".yml"]
                    /\ Str.endswith n ext = true) ->
  f <> p.
Proof.
  intros Hf Hp Heq. subst f.
  assert (p = nodes_dir self \/ (p <> [] /\ parent p = nodes_dir self)) as Hw.
  { destruct Hp as [->|[n [ext [-> _]]]]; [by left|right].
    split; [by destruct (nodes_dir self)|apply parent_snoc]. }
  unfold run_files in Hf. rewrite !elem_of_cons in Hf.
  destruct Hf as [Hf|[Hf|[Hf|Hf]]].
  - destruct Hp as [->|[n [ext [-> [Hext Hn]]]]].
    + symmetry in Hf. by apply hash_file_neq_nodes_dir in Hf.
    + pose proof (hash_file_not_hashed self) as Hh.
      rewrite Forall_forall in Hh. specialize (Hh ext Hext).
      rewrite <- Hf, name_snoc in Hh. congruence.
  - symmetry in Hf. by apply output_file_not_watched in Hf.
  - symmetry in Hf. by apply output_file_not_watched in Hf.
  - apply list_elem_of_fmap in Hf as [b [Hf _]].
    symmetry in Hf. unfold bucket_file in Hf.
    by apply output_file_not_watched in Hf.
Qed.

(** X3. Apart from the log file, a run changes no path other than the
    marker, the merged document, the report and the files of the nine
    buckets, whatever its outcome.  In particular the nodes directory and
    its .txt, .yaml and .yml files, when the log file is none of them,
    hold after the run what they held before: the input is only read. *)
Theorem run_changes_only_its_files (self : NodeProcessor) (force : bool)
    (s : state) :
  let s' := snd (run self force s) in
  (forall p, p ∉ run_files self -> p <> log_file self ->
             st_fs s' !! p = st_fs s !! p)
  /\ (log_file self <> nodes_dir self ->
      st_fs s' !! nodes_dir self = st_fs s !! nodes_dir self)
  /\ (forall n ext,
        ext ∈ [txt ".txt"; txt ".yaml"; txt ".yml"] ->
        Str.endswith n ext = true ->
        log_file self <> nodes_dir self ++ [n] ->
        st_fs s' !! (nodes_dir self ++ [n]) = st_fs s !! (nodes_dir self ++ [n])).
Proof.
  intros s'. split; [|split].
  - intros p Hp _. by apply run_frame.
  - intros _. apply run_frame. intros Hin.
    by apply (run_file_not_watched self _ (nodes_dir self)) in Hin; [|left].
  - intros n ext Hext Hn _. apply run_frame. intros Hin.
    apply (run_file_not_watched self _ (nodes_dir self ++ [n])) in Hin; [done|].
    right. by exists n, ext.
Qed.

Lemma open_w_missing_parent fs (p : path) d :
  p <> [] -> fs !! p = None -> FS.exists_ fs (parent p) = false ->
  FS.open_w fs p d = Raise FileNotFoundError.
Proof.
  intros Hp Hl Hparent. unfold FS.open_w. destruct p as [|c p]; [done|].
  rewrite Hl, Hparent.
  assert (FS.is_dir fs (parent (c :: p)) = false) as ->; [|done].
  revert Hparent. unfold FS.is_dir, FS.exists_.
  destruct (parent (c :: p)) as [|c' p']; [done|].
  by destruct (fs !! (c' :: p')) as [[]|].
Qed.

Lemma self_eta (self : NodeProcessor) : {| base_dir := base_dir self |} = self.
Proof. by destruct self. Qed.

(** X4. Once [run] has returned, with True or with False (a failure of
    the merger or of the reporter included), the marker holds the
    fingerprint of the nodes directory: a run without force that follows,
    with the marker and the nodes directory as the first run left them, is
    skipped.  It returns False, changes no file apart from the log file
    its lines go to, and [main] exits with status 1. *)
Theorem run_consumes_the_change (self : NodeProcessor) (force : bool)
    (s : state) (b : bool) (s1 : state) :
  run self force s = (Ok b, s1) ->
  forall s1',
    st_fs s1' !! hash_file self = st_fs s1 !! hash_file self ->
    (forall p, p = nodes_dir self \/ (p <> [] /\ parent p = nodes_dir self) ->
               st_fs s1' !! p = st_fs s1 !! p) ->
    exists s2,
      run self false s1' = (Ok false, s2)
      /\ (forall p, p <> log_file self -> st_fs s2 !! p = st_fs s1' !! p)
      /\ main false (base_dir self) s1' = (1%N, s2).
Proof.
  intros Hrun s1' Hmarker Hwatched.
  pose proof (run_fs self force s) as Hfs. rewrite Hrun in Hfs.
  destruct (check_changes self (started s)) as [[[changed h]|e] sc] eqn:Hcheck;
    [|by destruct Hfs].
  destruct Hfs as [b' [s' [[= <- <-] [Hframe _]]]].
  apply check_changes_Ok in Hcheck as [Hh Hsc].
  assert (st_fs s1' !! hash_file self = Some (File (Utf8.encode h) true true))
    as Hm.
  { rewrite Hmarker, Hframe, Hsc.
    - apply lookup_insert_eq.
    - intros Heq. symmetry in Heq. by apply output_file_neq_hash_file in Heq.
    - intros b0 _ Heq. by apply output_file_neq_hash_file in Heq.
    - intros Heq. symmetry in Heq. by apply output_file_neq_hash_file in Heq. }
  assert (fingerprint (st_fs s1') (nodes_dir self) = h) as Hf.
  { rewrite (fingerprint_ext _ _ _ Hwatched).
    rewrite (fingerprint_ext _ (st_fs sc)).
    - rewrite Hsc, Hh. apply fingerprint_insert;
        [apply hash_file_neq_nodes_dir|apply hash_file_not_hashed].
    - intros p Hp. apply Hframe.
      + intros ->. by eapply output_file_not_watched.
      + intros b0 _ Heq. by eapply output_file_not_watched.
      + intros ->. by eapply output_file_not_watched. }
  destruct (check_changes_settled self (started s1') h Hm Hf) as [log' Hsecond].
  assert (run self false s1'
          = (Ok false, log_entry (State (st_fs s1') log') INFO MsgSkip)) as Hskip.
  { rewrite run_spec. cbn [started st_fs] in Hsecond. by rewrite Hsecond. }
  eexists. split; [exact Hskip|]. split; [done|].
  unfold main. rewrite (self_eta self). by rewrite Hskip.
Qed.

(** X5. The program does not create the output directory.  Without it
    (and so without an hb.txt) no run returns True and [main] exits with
    status 1; a run that gets past the change check fails in the merge
    stage with FileNotFoundError, having changed nothing but the marker
    and the log file. *)
Theorem run_fails_without_output_directory (self : NodeProcessor)
    (force : bool) (s : state) :
  FS.exists_ (st_fs s) (output_dir self) = false ->
  st_fs s !! hb_file self = None ->
  fst (run self force s) <> Ok true
  /\ fst (main force (base_dir self) s) = 1%N
  /\ (forall changes s1,
        check_changes self (started s) = (Ok changes, s1) ->
        fst changes = true \/ force = true ->
        exists s',
          run self force s = (Ok false, s')
          /\ (forall p, p <> log_file self -> st_fs s' !! p = st_fs s1 !! p)
          /\ last (st_log s') = Some (ERROR, MsgRunFailed FileNotFoundError)).
Proof.
  intros Hdir Hhb.
  assert (forall changes s1,
        check_changes self (started s) = (Ok changes, s1) ->
        negb (fst changes) && negb force = false ->
        exists s',
          run self force s = (Ok false, s')
          /\ (forall p, p <> log_file self -> st_fs s' !! p = st_fs s1 !! p)
          /\ last (st_log s') = Some (ERROR, MsgRunFailed FileNotFoundError))
    as Hfail.
  { intros [changed h] s1 Hcheck Hgo.
    rewrite run_spec, Hcheck, Hgo.
    apply check_changes_Ok in Hcheck as [_ Hs1]. cbn [started st_fs] in Hs1.
    set (s2 := log_entry s1 INFO MsgProcessing).
    assert (forall d, FS.open_w (st_fs s2) (hb_file self) d
                      = Raise FileNotFoundError) as Hopen.
    { intros d. cbn [s2 log_entry st_fs]. rewrite Hs1.
      rewrite (open_w_ext _ (st_fs s)).
      - apply open_w_missing_parent;
          [unfold hb_file; by destruct (output_dir self)|done|].
        unfold hb_file. by rewrite parent_snoc.
      - apply lookup_insert_ne. intros Heq. symmetry in Heq.
        by apply output_file_neq_hash_file in Heq.
      - unfold hb_file. rewrite parent_snoc. apply lookup_insert_ne.
        unfold hash_file, output_dir. intros Heq.
        apply app_inj_tail in Heq as [_ Heq]. by vm_compute in Heq. }
    destruct (merge_files self s2) as [[f|e] s3] eqn:Hmerge.
    - apply merge_files_Ok in Hmerge as [_ [n [Ho _]]]. by rewrite Hopen in Ho.
    - apply merge_files_Raise in Hmerge
        as [[Hfs Ho]|[_ [_ [opened [Ho _]]]]]; rewrite Hopen in Ho; [|done].
      injection Ho as <-. eexists. split; [done|].
      cbn [log_entry st_fs st_log]. split; [intros p _; by rewrite Hfs|].
      apply last_snoc. }
  assert (fst (run self force s) <> Ok true) as Hnot.
  { pose proof (run_fs self force s) as Hfs.
    destruct (check_changes self (started s)) as [[changes|e] s1] eqn:Hcheck.
    - destruct (negb (fst changes) && negb force) eqn:Hgo.
      + destruct Hfs as [b [s' [-> [_ Hskip]]]]. by destruct Hskip as [-> _].
      + destruct (Hfail changes s1 eq_refl Hgo) as [s' [-> _]]. done.
    - by destruct Hfs as [-> _]. }
  split; [done|]. split.
  - unfold main. rewrite self_eta.
    by destruct (run self force s) as [[[|]|e] s'].
  - intros changes s1 Hcheck Hgo. apply (Hfail changes s1); [done|].
    destruct Hgo as [-> | ->]; [done|apply andb_false_r].
Qed.

(** ** More on the classifier and the fingerprint *)

(** X6. The order of the protocol table decides nothing: a line matches
    the prefix of at most one entry, so the loop over the table finds the
    same protocol (or none) whatever the order of the entries. *)
Theorem match_protocol_any_order (tbl : list (list N * list N)) (line : text) :
  tbl ≡ₚ protocols ->
  fst <$> List.find (fun e => Str.startswith (lower line) (snd e)) tbl
  = match_protocol line.
Proof.
  intros Hperm.
  destruct (List.find _ tbl) as [e|] eqn:Hf.
  - apply find_some in Hf as [He Hs]. apply list_elem_of_In in He.
    rewrite Hperm in He. destruct e as [proto prefix].
    symmetry. by eapply match_protocol_prefix.
  - destruct (match_protocol line) as [proto|] eqn:Hm; [|done].
    apply match_protocol_Some in Hm as [prefix [Hin Hs]].
    rewrite <- Hperm in Hin. apply list_elem_of_In in Hin.
    pose proof (find_none _ _ Hf _ Hin) as Hn. cbn [snd] in Hn. congruence.
Qed.

Lemma read_bytes_view fs1 fs2 (p : path) :
  hash_view (fs1 !! p) = hash_view (fs2 !! p) ->
  FS.read_bytes fs1 p = FS.read_bytes fs2 p
  \/ (is_ok (FS.read_bytes fs1 p) = false /\ is_ok (FS.read_bytes fs2 p) = false).
Proof.
  unfold FS.read_bytes. destruct p as [|c p]; [by left|].
  destruct (fs1 !! (c :: p)) as [[|d1 [|] w1]|], (fs2 !! (c :: p)) as [[|d2 [|] w2]|];
    simpl; intros H; try done; try (by right); try (by left).
  injection H as ->. by left.
Qed.

Lemma hash_view_is_Some e1 e2 :
  hash_view e1 = hash_view e2 -> is_Some e1 <-> is_Some e2.
Proof.
  destruct e1 as [[|? ? ?]|], e2 as [[|? ? ?]|]; simpl; intros H; try done;
    split; intros _; by eexists.
Qed.

(** X7. The fingerprint sees only whether the directory exists and is a
    directory, which of its entries have a name ending in .txt, .yaml or
    .yml, and the bytes of those of them it can read.  Two file systems
    that agree on that have the same fingerprint, whatever else differs:
    entries with other names, the content of entries it cannot read, write
    permissions. *)
Theorem fingerprint_blind_spots (fs1 fs2 : gmap (list (list N)) node)
    (d : path) :
  kind_of (fs1 !! d) = kind_of (fs2 !! d) ->
  (forall n ext,
      ext ∈ [txt ".txt"; txt ".yaml"; txt ".yml"] ->
      Str.endswith n ext = true ->
      hash_view (fs1 !! (d ++ [n])) = hash_view (fs2 !! (d ++ [n]))) ->
  fingerprint fs1 d = fingerprint fs2 d.
Proof.
  intros Hkind Hview. unfold fingerprint.
  assert (FS.exists_ fs1 d = FS.exists_ fs2 d) as ->.
  { unfold FS.exists_. destruct d; [done|].
    by destruct (fs1 !! _) as [[]|], (fs2 !! _) as [[]|]. }
  destruct (FS.exists_ fs2 d); [|done]. do 2 f_equal.
  assert (FS.is_dir fs1 d = FS.is_dir fs2 d) as Hdir.
  { unfold FS.is_dir. destruct d; [done|].
    by destruct (fs1 !! _) as [[]|], (fs2 !! _) as [[]|]. }
  assert (hashed_files fs1 d = hashed_files fs2 d) as ->.
  { unfold hashed_files. apply flat_map_ext_elem. intros ext Hext.
    apply sorted_glob_ext. intros n. rewrite !elem_of_glob, Hdir.
    split; intros [Hn [Hd Hs]]; (split; [done|]); (split; [done|]);
      by eapply hash_view_is_Some; [|done]; rewrite (Hview n ext). }
  unfold hash_input. apply flat_map_ext_elem. intros file Hfile.
  unfold hashed_files in Hfile. apply list_elem_of_In, in_flat_map in Hfile.
  destruct Hfile as [ext [Hext Hfile]]. apply list_elem_of_In in Hext, Hfile.
  apply elem_of_sorted_glob in Hfile as [n [-> [Hn _]]].
  destruct (read_bytes_view fs1 fs2 (d ++ [n]) (Hview n ext Hext Hn))
    as [->|[H1 H2]]; [done|].
  by destruct (FS.read_bytes fs1 _), (FS.read_bytes fs2 _).
Qed.

(** ** The merger and the classifier together *)

Lemma filter_flat_map {A B} (P : B -> Prop) `{!forall x, Decision (P x)}
    (f : A -> list B) (l : list A) :
  filter P (flat_map f l) = flat_map (fun x => filter P (f x)) l.
Proof.
  induction l as [|x l IH]; [done|]. simpl. by rewrite filter_app, IH.
Qed.

Lemma translated_trimmed_content fs file :
  translated (default [] (trimmed_content fs file)).
Proof.
  unfold trimmed_content. destruct (FS.read_decoded fs file) as [t|e];
    [|constructor].
  cbn [default]. apply Forall_strip. unfold translated.
  apply Forall_concat. apply (translated_readlines t []). constructor.
Qed.

Lemma provenance_line file_name :
  one_line file_name ->
  Str.readlines_from [] (provenance file_name ++ [10%N])
  = [provenance file_name ++ [10%N]]
  /\ entries [provenance file_name ++ [10%N]] = [].
Proof.
  intros Hn. split.
  - apply (readlines_one_line (provenance file_name) []).
    unfold provenance. apply Forall_app. split; [by apply (bool_decide_unpack _)|].
    apply Forall_app. split; [done|]. by apply (bool_decide_unpack _).
  - unfold entries. cbn [fmap list_fmap].
    rewrite (strip_app_blank _ [10%N]) by (by repeat constructor).
    unfold provenance. change (txt "# === " ++ file_name ++ txt " ===")
      with (35%N :: (txt " === " ++ file_name ++ txt " ===")).
    unfold Str.strip. cbn [Str.lstrip].
    change (Str.isspace 35) with false. cbn iota.
    rewrite rstrip_cons_nonspace by done. done.
Qed.

(** The lines the classifier keeps of a merged document are those of the
    blocks, block after block: the headers and the empty lines between the
    blocks add none. *)
Lemma entries_blocks (blocks : list (list N * list N)) :
  Forall (fun b => one_line (fst b) /\ translated (snd b)) blocks ->
  entries (Str.readlines
             (Str.join NL (flat_map (fun b => [provenance (fst b); snd b; []])
                                    blocks)))
  = flat_map (fun b => entries (Str.readlines (snd b))) blocks.
Proof.
  induction 1 as [|[n c] blocks [Hn Hc] _ IH]; [done|].
  cbn [flat_map app fst snd] in *.
  destruct (provenance_line n Hn) as [Hline Hskip].
  assert (forall X, entries (Str.readlines (provenance n ++ NL ++ c ++ NL ++ X))
                    = entries (Str.readlines c) ++ entries (Str.readlines X)) as Hblock.
  { intros X. unfold Str.readlines, NL. cbn [app].
    rewrite readlines_from_app_nl, entries_app, Hline, Hskip. cbn [app].
    unfold Str.readlines. rewrite readlines_from_app_nl, entries_app. f_equal.
    apply (entries_app_blank c [] [10%N]); [done|by repeat constructor|].
    by repeat constructor. }
  destruct blocks as [|[n' c'] blocks'].
  - cbn [flat_map Str.join app]. exact (Hblock []).
  - cbn [flat_map app fst snd] in *.
    change (Str.join NL (provenance n :: c :: [] :: provenance n' :: c' :: []
                         :: flat_map (fun b => [provenance (fst b); snd b; []]) blocks'))
      with (provenance n ++ NL ++ c ++ NL ++ [] ++ NL
            ++ Str.join NL (provenance n' :: c' :: []
                 :: flat_map (fun b => [provenance (fst b); snd b; []]) blocks')).
    cbn [app]. rewrite Hblock. f_equal.
    unfold NL at 1. cbn [app].
    change (Str.readlines (10%N :: ?X)) with ([10%N] :: Str.readlines X).
    rewrite entries_cons_app, IH. done.
Qed.

Lemma readlines_one_line_nil x : forall cur,
  one_line x -> Str.readlines_from cur x = match cur ++ x with
                                           | [] => []
                                           | _ :: _ => [cur ++ x]
                                           end.
Proof.
  induction x as [|c x IH]; intros cur Hx.
  - rewrite app_nil_r. by destruct cur.
  - inversion Hx as [|? ? Hc Hx']; subst. cbn [Str.readlines_from].
    unfold is_break in Hc. apply orb_false_iff in Hc as [-> ->].
    rewrite IH by done. rewrite <- app_assoc. cbn [app].
    by destruct cur.
Qed.

(** Translating the newlines of a text does not change its lines. *)
Lemma readlines_concat s : forall cur,
  one_line cur ->
  Str.readlines (concat (Str.readlines_from cur s)) = Str.readlines_from cur s.
Proof.
  assert (forall cur Z, one_line cur ->
            Str.readlines ((cur ++ [10%N]) ++ Z)
            = (cur ++ [10%N]) :: Str.readlines Z) as Hline.
  { intros cur Z Hcur. unfold Str.readlines. rewrite <- app_assoc. cbn [app].
    rewrite readlines_from_app_nl, readlines_one_line by done. done. }
  induction s as [s IH] using (induction_ltof1 _ (@length N));
    unfold ltof in IH; intros cur Hcur.
  destruct s as [|c s].
  - cbn [Str.readlines_from]. destruct cur as [|d cur]; [done|].
    cbn [concat]. rewrite app_nil_r. unfold Str.readlines.
    by rewrite readlines_one_line_nil.
  - cbn [Str.readlines_from].
    destruct (N.eqb_spec c 10) as [->|Hc10].
    { cbn [concat]. rewrite Hline by done. f_equal.
      apply IH; [simpl; lia|constructor]. }
    destruct (N.eqb_spec c 13) as [->|Hc13].
    { cbn [concat]. rewrite Hline by done. f_equal.
      apply IH; [|constructor].
      destruct s as [|d s]; [simpl; lia|].
      destruct (N.eq_dec d 10%N) as [->|Hd]; [simpl; lia|].
      assert (match d :: s with 10%N :: r' => r' | _ => d :: s end = d :: s) as ->.
      { destruct d as [|p]; [done|].
        repeat (destruct p as [p|p|]; try done). }
      simpl; lia. }
    apply IH; [simpl; lia|]. apply Forall_app. split; [done|].
    constructor; [|constructor]. unfold is_break.
    by destruct (N.eqb_spec c 10), (N.eqb_spec c 13).
Qed.

(** White space before the first character of a line that is being read
    does not change the lines the classifier keeps. *)
Lemma entries_blank_cur x : forall w cur,
  translated x -> blank w ->
  entries (Str.readlines_from (w ++ cur) x) = entries (Str.readlines_from cur x).
Proof.
  induction x as [|c x IH]; intros w cur Hx Hw.
  - rewrite !entries_readlines_nil. unfold entries. simpl.
    by rewrite strip_blank_app.
  - inversion Hx as [|? ? Hc13 Hx']; subst. cbn [Str.readlines_from].
    destruct (N.eqb_spec c 10) as [->|_].
    + rewrite (entries_cons_app _ (Str.readlines_from [] x)).
      rewrite (entries_cons_app (cur ++ _) (Str.readlines_from [] x)).
      f_equal. unfold entries. simpl. rewrite <- app_assoc.
      by rewrite strip_blank_app.
    + destruct (N.eqb_spec c 13) as [->|_]; [done|].
      rewrite <- app_assoc. by apply IH.
Qed.

Lemma entries_blank_app w : forall x,
  blank w -> translated w -> translated x ->
  entries (Str.readlines (w ++ x)) = entries (Str.readlines x).
Proof.
  induction w as [|c w IH]; intros x Hw Ht Hx; [done|].
  inversion Hw as [|? ? Hc Hw']; inversion Ht as [|? ? Hc13 Ht']; subst.
  unfold Str.readlines. rewrite <- app_comm_cons. cbn [Str.readlines_from].
  destruct (N.eqb_spec c 10) as [->|_].
  - rewrite entries_cons_app. by apply (IH x).
  - destruct (N.eqb_spec c 13) as [->|_]; [done|].
    change ([] ++ [c]) with ([c] ++ @nil N).
    rewrite (entries_blank_cur (w ++ x) [c] []).
    + by apply (IH x).
    + apply Forall_app. by split.
    + by repeat constructor.
Qed.

Lemma lstrip_split x : exists w, blank w /\ x = w ++ Str.lstrip x.
Proof.
  induction x as [|c x [w [Hw IH]]]; [exists []; split; [constructor|done]|].
  simpl. destruct (Str.isspace c) eqn:Hc.
  - exists (c :: w). split; [by constructor|]. by rewrite <- app_comm_cons, <- IH.
  - exists []. split; [constructor|done].
Qed.

Lemma rstrip_split x : exists w, blank w /\ x = Str.rstrip x ++ w.
Proof.
  induction x as [|c x [w [Hw IH]]]; [exists []; split; [constructor|done]|].
  rewrite rstrip_cons.
  destruct (Str.rstrip x) as [|z zs] eqn:Hx.
  - destruct (Str.isspace c) eqn:Hc.
    + exists (c :: w). split; [by constructor|]. cbn [app] in *. by rewrite <- IH.
    + exists w. split; [done|]. cbn [app] in *. by rewrite <- IH.
  - exists w. split; [done|]. cbn [app] in *. by rewrite <- IH.
Qed.

(** Trimming a whole text does not change the lines the classifier keeps
    of it. *)
Lemma entries_strip t :
  translated t -> entries (Str.readlines (Str.strip t)) = entries (Str.readlines t).
Proof.
  intros Ht. unfold Str.strip.
  destruct (lstrip_split t) as [w [Hw Heq]].
  destruct (rstrip_split (Str.lstrip t)) as [w' [Hw' Heq']].
  assert (translated (Str.lstrip t)) as Hl by by apply Forall_lstrip.
  assert (translated (Str.rstrip (Str.lstrip t))) as Hr by by apply Forall_rstrip.
  assert (translated w) as Htw.
  { rewrite Heq in Ht. by apply Forall_app in Ht as [? _]. }
  assert (translated w') as Htw'.
  { rewrite Heq' in Hl. by apply Forall_app in Hl as [_ ?]. }
  rewrite Heq at 2. rewrite entries_blank_app by done.
  rewrite Heq' at 2. unfold Str.readlines.
  by rewrite entries_app_blank.
Qed.

(** The lines the classifier keeps of the merged document are those it
    keeps of the files the merger takes, file after file. *)
Lemma entries_merged_document fs self :
  Forall (fun file => one_line (name file)) (merged_files fs self) ->
  entries (Str.readlines (merged_document fs self))
  = flat_map (fun file => entries (file_lines fs file)) (merged_files fs self).
Proof.
  intros Hnames. unfold merged_document.
  pose proof (entries_blocks
                ((fun file => (name file, default [] (trimmed_content fs file)))
                   <$> merged_files fs self)) as Hblocks.
  rewrite !flat_map_concat_map, <- !list_fmap_compose, <- !flat_map_concat_map
    in Hblocks.
  unfold block. unfold compose in Hblocks. cbn [fst snd] in Hblocks.
  rewrite Hblocks.
  - apply flat_map_ext_elem. intros file _.
    unfold trimmed_content, file_lines.
    destruct (FS.read_decoded fs file) as [t|e]; [|done]. cbn [default id].
    rewrite entries_strip.
    + f_equal. apply (readlines_concat t []). constructor.
    + unfold translated. apply Forall_concat.
      apply (translated_readlines t []). constructor.
  - apply Forall_fmap. eapply Forall_impl; [exact Hnames|].
    intros file Hn. split; [done|apply translated_trimmed_content].
Qed.

(** X8. Classifying commutes with merging.  When no file name holds a line
    break, each bucket of the merged document is the concatenation, in the
    order of the file names, of the buckets of the files the merger takes,
    each classified on its own: the provenance headers, the trimming of
    the texts and the empty lines between the blocks add and remove
    nothing. *)
Theorem merged_document_buckets (fs : gmap (list (list N)) node)
    (self : NodeProcessor) (b : option (list N)) :
  Forall (fun file => one_line (name file)) (merged_files fs self) ->
  bucket (Str.readlines (merged_document fs self)) b
  = flat_map (fun file => bucket (file_lines fs file) b) (merged_files fs self).
Proof.
  intros Hnames. rewrite !bucket_filter, entries_merged_document by done.
  rewrite filter_flat_map. apply flat_map_ext_elem. intros file _.
  by rewrite bucket_filter.
Qed.

(** ** From the input files to the bucket files *)

Lemma open_w_Dir fs (p : path) d :
  fs !! p = Some Dir -> is_ok (FS.open_w fs p d) = false.
Proof. intros Hp. unfold FS.open_w. destruct p; [done|]. by rewrite Hp. Qed.

Lemma bucket_file_neq_hb_file self b :
  b ∈ bucket_ids -> bucket_file self b <> hb_file self.
Proof.
  intros Hb Heq. unfold bucket_file, hb_file in Heq.
  apply app_inv_head in Heq. injection Heq as Heq. revert b Hb Heq.
  apply (Forall_forall
           (fun b => match b with
                     | Some proto => proto ++ txt ".txt"
                     | None => txt "other.txt"
                     end <> txt "hb.txt")).
  apply (bool_decide_unpack _). by vm_compute.
Qed.

(** The merger followed by the classifier. *)
Lemma merge_then_split self s f s1 :
  merge_files self s = (Ok f, s1) ->
  (forall d r w, st_fs s !! hb_file self = Some (File d r w) -> r = true) ->
  Forall (fun file => one_line (name file)
                      /\ Forall (fun c => scalar_value c = true) (name file))
         (merged_files (st_fs s) self) ->
  (forall b, b ∈ bucket_ids ->
     flat_map (fun file => bucket (file_lines (st_fs s) file) b)
              (merged_files (st_fs s) self) <> [] ->
     is_ok (FS.open_w (st_fs s) (bucket_file self b) []) = true) ->
  file_data (st_fs s1) (hb_file self)
  = Some (Utf8.encode (merged_document (st_fs s) self))
  /\ forall b, b ∈ bucket_ids ->
       let content :=
         flat_map (fun file => bucket (file_lines (st_fs s) file) b)
                  (merged_files (st_fs s) self) in
       let after := st_fs (snd (split_by_protocol self f s1)) in
       after !! hb_file self = st_fs s1 !! hb_file self
       /\ (content <> [] ->
           file_data after (bucket_file self b)
           = Some (Utf8.encode (Str.join NL content)))
       /\ (content = [] ->
           after !! bucket_file self b = st_fs s !! bucket_file self b).
Proof.
  intros Hmerge Hread Hnames Hopen.
  assert (Forall (fun file => one_line (name file)) (merged_files (st_fs s) self))
    as Hlines by (eapply Forall_impl; [exact Hnames|]; by intros ? [? _]).
  assert (Forall (fun file => Forall (fun c => scalar_value c = true) (name file))
                 (merged_files (st_fs s) self))
    as Hscalar by (eapply Forall_impl; [exact Hnames|]; by intros ? [_ ?]).
  apply merge_files_Ok in Hmerge as [-> [n [Hn Hfs1]]].
  pose proof (open_w_data _ _ _ _ Hn) as Hdata. rewrite <- Hfs1 in Hdata.
  split; [done|].
  assert (FS.read_decoded (st_fs s1) (hb_file self)
          = Ok (merged_document (st_fs s) self)) as Hdoc.
  { pose proof (open_w_Ok _ _ _ _ Hn) as [Hne [r [-> [Hnew Hold]]]].
    assert (r = true) as ->.
    { destruct (st_fs s !! hb_file self) as [[|d0 r0 w0]|] eqn:Hhb.
      - apply (open_w_Dir _ _ (Utf8.encode (merged_document (st_fs s) self)))
          in Hhb. by rewrite Hn in Hhb.
      - rewrite (Hold d0 r0 w0 eq_refl). by eapply Hread.
      - by apply Hnew. }
    unfold FS.read_decoded, FS.read_bytes.
    destruct (hb_file self) as [|x p] eqn:Hp; [done|].
    rewrite Hfs1, lookup_insert_eq.
    by rewrite decode_encode by by apply merged_document_scalar. }
  intros b Hb content after.
  assert (bucket (Str.readlines (merged_document (st_fs s) self)) b = content)
    as Hbucket.
  { rewrite !bucket_filter, entries_merged_document by done.
    rewrite filter_flat_map. apply flat_map_ext_elem. intros file _.
    by rewrite bucket_filter. }
  assert (forall p, p <> hb_file self -> st_fs s1 !! p = st_fs s !! p) as Hsame.
  { intros p Hp. rewrite Hfs1. by rewrite lookup_insert_ne. }
  set (lines := Str.readlines (merged_document (st_fs s) self)) in *.
  set (s2 := State (st_fs s1) (st_log s1 ++ [(INFO, MsgSplitStart)])).
  assert (forall b', b' ∈ bucket_ids -> bucket lines b' <> [] ->
            is_ok (FS.open_w (st_fs s2) (bucket_file self b') []) = true) as Hw.
  { intros b' Hb' Hne. cbn [st_fs s2]. rewrite Hfs1.
    destruct (bucket_file_output self b') as [x Hx].
    rewrite is_ok_open_w_insert.
    - apply Hopen; [done|]. revert Hne. unfold lines.
      rewrite !bucket_filter, entries_merged_document by done.
      rewrite filter_flat_map. intros Hne Heq. apply Hne. rewrite <- Heq.
      apply flat_map_ext_elem. intros file _. by rewrite bucket_filter.
    - intros Heq. by apply (bucket_file_neq_hb_file self b').
    - rewrite Hx, parent_snoc, hb_file_output.
      apply output_file_neq_output_dir. }
  destruct (write_buckets_ok self lines s2 (readlines_encodable _ _ _ Hdoc) Hw)
    as [s3 [Hwrite Hfiles]].
  pose proof (write_buckets_frame self lines) as Hframe.
  assert (after = st_fs s3) as ->.
  { unfold after. rewrite split_by_protocol_spec, Hdoc. cbv zeta.
    fold lines s2. by rewrite Hwrite. }
  split; [|split].
  - specialize (Hframe (hb_file self) s2). rewrite Hwrite in Hframe.
    cbn [snd] in Hframe. apply Hframe.
    intros b' Hb' _. by apply bucket_file_neq_hb_file.
  - intros Hne. rewrite <- Hbucket. apply Hfiles; [done|]. by rewrite Hbucket.
  - intros Hnil. specialize (Hframe (bucket_file self b) s2).
    rewrite Hwrite in Hframe. cbn [snd] in Hframe.
    rewrite Hframe.
    + cbn [st_fs s2]. apply Hsame. by apply bucket_file_neq_hb_file.
    + intros b' Hb' Hne Heq.
      rewrite (bucket_file_inj self b' b Hb' Hb Heq) in Hne.
      by rewrite Hbucket in Hne.
Qed.

Lemma filter_bool_ext {A} (f g : A -> bool) (l : list A) :
  (forall x, x ∈ l -> f x = g x) ->
  filter (fun x => f x = true) l = filter (fun x => g x = true) l.
Proof.
  induction l as [|x l IH]; intros Hfg; [done|].
  rewrite !filter_cons. rewrite IH by (intros y Hy; apply Hfg; by right).
  rewrite (Hfg x) by by left. by destruct (decide (g x = true)).
Qed.

(** The merger looks at the text files of the watched directory only. *)
Lemma merger_ext fs1 fs2 self :
  FS.sorted_glob fs1 (nodes_dir self) (txt ".txt")
  = FS.sorted_glob fs2 (nodes_dir self) (txt ".txt") ->
  (forall file, file ∈ FS.sorted_glob fs2 (nodes_dir self) (txt ".txt") ->
                FS.read_decoded fs1 file = FS.read_decoded fs2 file) ->
  merged_files fs1 self = merged_files fs2 self
  /\ merged_document fs1 self = merged_document fs2 self
  /\ forall file, file ∈ merged_files fs2 self ->
                  file_lines fs1 file = file_lines fs2 file.
Proof.
  intros Hglob Hread.
  assert (merged_files fs1 self = merged_files fs2 self) as Hfiles.
  { unfold merged_files. rewrite Hglob. apply filter_bool_ext.
    intros file Hfile. unfold contributes, trimmed_content.
    by rewrite Hread. }
  assert (forall file, file ∈ merged_files fs2 self ->
            FS.read_decoded fs1 file = FS.read_decoded fs2 file) as Hread'.
  { intros file Hfile. apply Hread. unfold merged_files in Hfile.
    by apply list_elem_of_filter in Hfile as [_ ?]. }
  split; [done|]. split.
  - unfold merged_document. rewrite Hfiles. f_equal.
    apply flat_map_ext_elem. intros file Hfile.
    unfold block, trimmed_content. by rewrite Hread'.
  - intros file Hfile. unfold file_lines. by rewrite Hread'.
Qed.

Lemma merger_insert fs p v self :
  p <> nodes_dir self -> Str.endswith (name p) (txt ".txt") = false ->
  merged_files (<[p:=v]> fs) self = merged_files fs self
  /\ merged_document (<[p:=v]> fs) self = merged_document fs self
  /\ forall file, file ∈ merged_files fs self ->
                  file_lines (<[p:=v]> fs) file = file_lines fs file.
Proof.
  intros Hne Hext. apply merger_ext.
  - by apply sorted_glob_insert.
  - intros file Hfile. apply read_decoded_insert. intros ->.
    apply elem_of_sorted_glob in Hfile as [n [-> [Hn _]]].
    rewrite name_snoc in Hext. congruence.
Qed.

Lemma bucket_file_neq_report_file self b :
  b ∈ bucket_ids -> bucket_file self b <> report_file self.
Proof.
  intros Hb Heq. unfold bucket_file, report_file in Heq.
  apply app_inv_head in Heq. injection Heq as Heq. revert b Hb Heq.
  apply (Forall_forall
           (fun b => match b with
                     | Some proto => proto ++ txt ".txt"
                     | None => txt "other.txt"
                     end <> txt "REPORT.md")).
  apply (bool_decide_unpack _). by vm_compute.
Qed.

Lemma hb_file_neq_report_file self : hb_file self <> report_file self.
Proof.
  unfold hb_file, report_file. intros Heq. apply app_inv_head in Heq.
  revert Heq. apply (bool_decide_unpack _). by vm_compute.
Qed.

(** X9. A run that goes past the change check, on a file system where
    hb.txt and the files of the buckets that get lines can be written,
    hb.txt (when it is there already) can be read, and the names of the
    merged files are encodable and hold no line break, ends with
      - hb.txt holding the merged document of the input files;
      - for each bucket that gets a line from some input file, its file
        holding, joined by newlines, the lines of that bucket from each
        merged input file, in the order of the file names;
      - the file of any other bucket as it was before the run,
    whether or not the report that follows succeeds. *)
Theorem run_sorts_the_inputs (self : NodeProcessor) (force : bool) (s : state)
    (changes : bool * list N) (s1 : state) :
  check_changes self (started s) = (Ok changes, s1) ->
  fst changes = true \/ force = true ->
  let fs := st_fs s in
  let content b :=
    flat_map (fun file => bucket (file_lines fs file) b) (merged_files fs self) in
  Forall (fun file => one_line (name file)
                      /\ Forall (fun c => scalar_value c = true) (name file))
         (merged_files fs self) ->
  is_ok (FS.open_w fs (hb_file self) []) = true ->
  (forall d r w, fs !! hb_file self = Some (File d r w) -> r = true) ->
  (forall b, b ∈ bucket_ids -> content b <> [] ->
             is_ok (FS.open_w fs (bucket_file self b) []) = true) ->
  let after := st_fs (snd (run self force s)) in
  file_data after (hb_file self) = Some (Utf8.encode (merged_document fs self))
  /\ forall b, b ∈ bucket_ids ->
       (content b <> [] ->
        file_data after (bucket_file self b)
        = Some (Utf8.encode (Str.join NL (content b))))
       /\ (content b = [] -> after !! bucket_file self b = fs !! bucket_file self b).
Proof.
  intros Hcheck Hgo fs content Hnames Hhb Hread Hopen after.
  destruct changes as [changed h].
  pose proof (check_changes_Ok _ _ _ _ _ Hcheck) as [_ Hfs1].
  cbn [st_fs started] in Hfs1.
  fold fs in Hfs1. cbn [fst] in Hgo.
  set (s2 := log_entry s1 INFO MsgProcessing).
  assert (st_fs s2 = <[hash_file self := File (Utf8.encode h) true true]> fs)
    as Hfs2 by done.
  assert (forall x, st_fs s2 !! (output_dir self ++ [x])
                    = fs !! (output_dir self ++ [x])) as Hout.
  { intros x. rewrite Hfs2. rewrite lookup_insert_ne; [done|].
    intros Heq. symmetry in Heq. by apply output_file_neq_hash_file in Heq. }
  assert (forall x d, is_ok (FS.open_w (st_fs s2) (output_dir self ++ [x]) d)
                      = is_ok (FS.open_w fs (output_dir self ++ [x]) [])) as Hw.
  { intros x d. rewrite Hfs2, is_ok_open_w_insert.
    - apply is_ok_open_w.
    - intros Heq. symmetry in Heq. by apply output_file_neq_hash_file in Heq.
    - rewrite parent_snoc. unfold hash_file, output_dir. intros Heq.
      apply app_inv_head in Heq. revert Heq.
      apply (bool_decide_unpack _). by vm_compute. }
  destruct (merger_insert fs (hash_file self) (File (Utf8.encode h) true true) self)
    as [Hfiles [Hdoc Hlines]].
  { apply hash_file_neq_nodes_dir. }
  { unfold hash_file. rewrite name_snoc. by vm_compute. }
  rewrite <- Hfs2 in Hfiles, Hdoc, Hlines.
  assert (forall b,
            flat_map (fun file => bucket (file_lines (st_fs s2) file) b)
                     (merged_files (st_fs s2) self) = content b) as Hcontent.
  { intros b. rewrite Hfiles. apply flat_map_ext_elem. intros file Hfile.
    by rewrite Hlines. }
  assert (after = st_fs (snd (match merge_files self s2 with
                              | (Raise e, s3) =>
                                  (Ok false, log_entry s3 ERROR (MsgRunFailed e))
                              | (Ok merged_file, s3) =>
                                  match generate_report self
                                          (snd (split_by_protocol self merged_file s3))
                                  with
                                  | (Raise e, s5) =>
                                      (Ok false, log_entry s5 ERROR (MsgRunFailed e))
                                  | (Ok _, s5) => (Ok true, log_entry s5 INFO MsgDone)
                                  end
                              end))) as ->.
  { unfold after. rewrite run_spec, Hcheck. cbn [fst].
    destruct Hgo as [-> | ->]; by rewrite ?andb_false_r. }
  destruct (merge_files self s2) as [[f|e] s3] eqn:Hmerge.
  2:{ apply merge_files_Raise in Hmerge as [[_ Hraise]|[_ [Henc _]]].
      - rewrite hb_file_output in Hraise.
        specialize (Hw (txt "hb.txt") []).
        rewrite Hraise, <- hb_file_output, Hhb in Hw. done.
      - assert (encodable (merged_document (st_fs s2) self) = true) as Hdoc2.
        { apply encodable_Forall, merged_document_scalar. rewrite Hfiles.
          eapply Forall_impl; [exact Hnames|]. by intros ? [_ ?]. }
        by rewrite Hdoc2 in Henc. }
  destruct (merge_then_split self s2 f s3 Hmerge) as [Hdata Hbuckets].
  { intros d r w. rewrite hb_file_output, Hout, <- hb_file_output. apply Hread. }
  { by rewrite Hfiles. }
  { intros b Hb. rewrite Hcontent.
    destruct (bucket_file_output self b) as [x Hx]. rewrite Hx, Hw, <- Hx.
    by apply Hopen. }
  pose proof (generate_report_frame self (snd (split_by_protocol self f s3)))
    as Hreport.
  assert (forall p, p <> report_file self ->
            st_fs (snd (match generate_report self
                                (snd (split_by_protocol self f s3)) with
                        | (Raise e, s5) =>
                            (Ok false, log_entry s5 ERROR (MsgRunFailed e))
                        | (Ok _, s5) => (Ok true, log_entry s5 INFO MsgDone)
                        end)) !! p
            = st_fs (snd (split_by_protocol self f s3)) !! p) as Hend.
  { intros p Hp. rewrite <- (Hreport p Hp).
    by destruct (generate_report self _) as [ [ [] | e ] s5 ]. }
  split.
  - unfold file_data. rewrite Hend by apply hb_file_neq_report_file.
    destruct (Hbuckets None) as [-> _]; [apply elem_of_bucket_ids; by left|].
    fold (file_data (st_fs s3) (hb_file self)). by rewrite Hdata, Hdoc.
  - intros b Hb. destruct (Hbuckets b Hb) as [_ [Hfull Hnone]].
    rewrite Hcontent in Hfull, Hnone.
    destruct (bucket_file_output self b) as [x Hx].
    split.
    + intros Hne. unfold file_data.
      rewrite Hend by by apply bucket_file_neq_report_file.
      by apply Hfull.
    + intros Hnil. rewrite Hend by by apply bucket_file_neq_report_file.
      rewrite Hnone by done. by rewrite Hx, Hout.
Qed.

(** ** Reading a bucket file back *)

(** Every line of a text is free of line breaks, its terminator apart. *)
Lemma one_line_strip_readlines s : forall cur,
  one_line cur -> Forall (fun l => one_line (Str.strip l)) (Str.readlines_from cur s).
Proof.
  assert (forall cur, one_line cur -> one_line (Str.strip (cur ++ [10%N]))) as Hnl.
  { intros cur Hcur. rewrite strip_app_blank by (by repeat constructor).
    by apply Forall_strip. }
  induction s as [s IH] using (induction_ltof1 _ (@length N));
    unfold ltof in IH; intros cur Hcur.
  destruct s as [|c s].
  - destruct cur; [constructor|].
    constructor; [by apply Forall_strip|constructor].
  - cbn [Str.readlines_from].
    destruct (N.eqb_spec c 10) as [->|Hc10].
    { constructor; [by apply Hnl|]. apply IH; [simpl; lia|constructor]. }
    destruct (N.eqb_spec c 13) as [->|Hc13].
    { constructor; [by apply Hnl|]. apply IH; [|constructor].
      destruct s as [|d s]; [simpl; lia|].
      destruct (N.eq_dec d 10%N) as [->|Hd]; [simpl; lia|].
      assert (match d :: s with 10%N :: r' => r' | _ => d :: s end = d :: s) as ->.
      { destruct d as [|p]; [done|].
        repeat (destruct p as [p|p|]; try done). }
      simpl; lia. }
    apply IH; [simpl; lia|]. apply Forall_app. split; [done|].
    constructor; [|constructor]. unfold is_break.
    by destruct (N.eqb_spec c 10), (N.eqb_spec c 13).
Qed.

(** The lines of a bucket are trimmed, not empty, and free of line
    breaks. *)
Lemma entries_lines doc :
  Forall (fun l => one_line l /\ Str.strip l = l /\ kept l = true)
         (entries (Str.readlines doc)).
Proof.
  apply Forall_forall. intros l Hl. unfold entries in Hl.
  apply list_elem_of_filter in Hl as [Hkept Hl].
  apply list_elem_of_fmap in Hl as [raw [-> Hraw]].
  split; [|split; [apply strip_idemp|done]].
  pose proof (one_line_strip_readlines doc []) as Hlines.
  rewrite Forall_forall in Hlines. apply Hlines; [constructor|done].
Qed.

(** Joining with newlines and splitting into lines again gives the lines
    back, up to the terminators. *)
Lemma strip_readlines_join (B : list (list N)) :
  Forall (fun l => one_line l /\ Str.strip l = l /\ kept l = true) B ->
  Str.strip <$> Str.readlines (Str.join NL B) = B.
Proof.
  induction 1 as [|x B [Hx [Hs Hk]] HB IH]; [done|].
  cbn [Str.join]. destruct B as [|y B].
  - unfold Str.readlines. rewrite readlines_one_line_nil by done.
    cbn [app]. destruct x as [|c x]; [done|]. cbn [fmap list_fmap]. by rewrite Hs.
  - unfold Str.readlines, NL. cbn [app].
    rewrite readlines_from_app_nl, readlines_one_line by done.
    cbn [app]. rewrite fmap_cons.
    rewrite strip_app_blank by (by repeat constructor).
    rewrite Hs. f_equal. exact IH.
Qed.

Lemma filter_all {A} (P : A -> Prop) `{!forall x, Decision (P x)} (l : list A) :
  Forall P l -> filter P l = l.
Proof.
  induction 1 as [|x l Hx _ IH]; [done|].
  rewrite filter_cons. destruct (decide (P x)); [by rewrite IH|done].
Qed.

Lemma length_filter_fmap {A B} (f : A -> B) (g : B -> bool) (l : list A) :
  length (List.filter (fun x => g (f x)) l) = length (List.filter g (f <$> l)).
Proof.
  induction l as [|x l IH]; [done|]. rewrite fmap_cons. cbn [List.filter].
  destruct (g (f x)); simpl; by rewrite IH.
Qed.

Lemma entries_join_bucket doc b :
  let B := bucket (Str.readlines doc) b in
  entries (Str.readlines (Str.join NL B)) = B
  /\ line_count (Str.join NL B) = length B.
Proof.
  intros B.
  assert (Forall (fun l => one_line l /\ Str.strip l = l /\ kept l = true) B)
    as Hlines.
  { unfold B. rewrite bucket_filter. apply Forall_forall. intros l Hl.
    apply list_elem_of_filter in Hl as [_ Hl].
    pose proof (entries_lines doc) as He. rewrite Forall_forall in He.
    by apply He. }
  split.
  - unfold entries. rewrite strip_readlines_join by done.
    apply filter_all. eapply Forall_impl; [exact Hlines|]. by intros l [_ [_ ?]].
  - unfold line_count.
    rewrite (length_filter_fmap Str.strip (fun l => negb (is_nil l))).
    rewrite strip_readlines_join by done. f_equal.
    clear -Hlines. induction Hlines as [|x B [_ [_ Hk]] _ IH]; [done|].
    cbn [List.filter]. unfold kept in Hk.
    destruct (is_nil x); [done|]. cbn [negb]. by rewrite IH.
Qed.

(** X10. A bucket file reads back as the bucket.  Where the file of a
    bucket holds what the classifier writes for it and can be read, the
    lines of the file are classified into that same bucket, all of them
    and in order, and into no other bucket; and the line count the report
    gives for the file is the number of lines of the bucket. *)
Theorem bucket_file_reads_back (self : NodeProcessor)
    (fs fs' : gmap (list (list N)) node) (input_file : list (list N))
    (doc : list N) (b : option (list N)) (w : bool) :
  FS.read_decoded fs input_file = Ok doc ->
  let B := bucket (Str.readlines doc) b in
  fs' !! bucket_file self b = Some (File (Utf8.encode (Str.join NL B)) true w) ->
  bucket (file_lines fs' (bucket_file self b)) b = B
  /\ (forall b', b' <> b -> bucket (file_lines fs' (bucket_file self b)) b' = [])
  /\ counted fs' (bucket_file self b) = length B.
Proof.
  intros Hdoc B Hfile.
  destruct (entries_join_bucket doc b) as [Hentries Hcount]. fold B in Hentries, Hcount.
  assert (Forall (fun c => scalar_value c = true) doc) as Hscalar.
  { unfold FS.read_decoded in Hdoc.
    destruct (FS.read_bytes fs input_file) as [d|e]; [|done].
    destruct (Utf8.decode d) as [t|] eqn:Ht; [|done].
    injection Hdoc as <-. by eapply decode_scalar. }
  assert (FS.read_decoded fs' (bucket_file self b) = Ok (Str.join NL B)) as Hread.
  { unfold FS.read_decoded, FS.read_bytes.
    destruct (bucket_file_output self b) as [x Hx].
    destruct (bucket_file self b) as [|y p] eqn:Hp; [by destruct (output_dir self)|].
    rewrite Hfile. rewrite decode_encode; [done|].
    apply Forall_join; [by repeat constructor|].
    unfold B. rewrite bucket_filter. apply Forall_forall. intros l Hl.
    apply list_elem_of_filter in Hl as [_ Hl]. unfold entries in Hl.
    apply list_elem_of_filter in Hl as [_ Hl].
    apply list_elem_of_fmap in Hl as [raw [-> Hraw]].
    apply Forall_strip.
    assert (Forall (Forall (fun c => scalar_value c = true)) (Str.readlines doc))
      as Hl by (apply Forall_readlines; [done|constructor|done]).
    rewrite Forall_forall in Hl. by apply Hl. }
  unfold file_lines, counted. rewrite Hread.
  split; [|split; [|done]].
  - rewrite bucket_filter, Hentries. unfold B. rewrite bucket_filter.
    rewrite list_filter_filter. apply list_filter_iff. intros l. split; [by intros [? _]|by intros ?].
  - intros b' Hb'. rewrite bucket_filter, Hentries. unfold B.
    rewrite bucket_filter, list_filter_filter. apply filter_none.
    intros l _ [H1 H2]. congruence.
Qed.

(** ** When the marker fails *)

Lemma open_w_Raise fs p d d' e :
  FS.open_w fs p d = Raise e -> FS.open_w fs p d' = Raise e.
Proof.
  unfold FS.open_w. destruct p; [done|].
  destruct (fs !! _) as [[|? ? [|]]|]; try done.
  by destruct (FS.is_dir _ _).
Qed.

(** X11. The change check is outside the handler of [run].  When the
    marker is there and cannot be read (it is a directory, unreadable or
    holds bytes its decoder rejects: the marker is opened with the codec
    of the locale, taken here to be UTF-8), or can be read and cannot be
    written, the exception leaves [run] whether or not the run is forced:
    no stage runs, the file system apart from the log file is as it was,
    and the process ends with status 1. *)
Theorem run_stops_at_a_broken_marker (self : NodeProcessor) (force : bool)
    (s : state) (e : exn) :
  (FS.exists_ (st_fs s) (hash_file self) = true
   /\ FS.read_decoded (st_fs s) (hash_file self) = Raise e)
  \/ (is_ok (read_marker (st_fs s) (hash_file self)) = true
      /\ FS.open_w (st_fs s) (hash_file self) [] = Raise e) ->
  exists s',
    run self force s = (Raise e, s')
    /\ (forall p, p <> log_file self -> st_fs s' !! p = st_fs s !! p)
    /\ main force (base_dir self) s = (1%N, s').
Proof.
  intros Hbroken.
  destruct (check_changes_spec self (started s)) as [log0 Hspec].
  cbn [st_fs started] in Hspec.
  assert (check_changes self (started s) = (Raise e, State (st_fs s) log0))
    as Hcheck.
  { rewrite Hspec. destruct Hbroken as [[Hex Hread]|[Hok Hopen]].
    - unfold read_marker. by rewrite Hex, Hread.
    - destruct (read_marker _ _) as [last|e']; [|done].
      by rewrite (open_w_Raise _ _ _ _ _ Hopen). }
  assert (run self force s = (Raise e, State (st_fs s) log0)) as Hrun.
  { by rewrite run_spec, Hcheck. }
  exists (State (st_fs s) log0). split; [done|]. split; [done|].
  unfold main. by rewrite (self_eta self), Hrun.
Qed.

(** ** Properties of the constructor *)

Lemma make_directories_unbound base dirs s :
  make_directories base None dirs s =
    match dirs with
    | [] => (Returned tt, s)
    | (_, YStr r) :: _ =>
        match mkdir (fst (full_path base r)) (snd (full_path base r)) s with
        | (Some f, s1) => (Raised f, s1)
        | (None, s1) => (Raised AttributeError, s1)
        end
    | (_, YBytes _) :: _ => (Raised TypeError, s)
    | (_, YMap _) :: _ | (_, YOther) :: _ => (Raised AttributeError, s)
    end.
Proof. by destruct dirs as [|[key [items|r|b|]] rest]. Qed.

Lemma init_directories_unbound base c s :
  init_directories base c None s =
    match directories (cfg_main c) with
    | Some dirs => make_directories base None dirs s
    | None => (Raised AttributeError, s)
    end.
Proof.
  unfold init_directories, directories.
  destruct (cfg_main c) as [main|r|b|]; try done.
  by destruct (dict_get main _ _).
Qed.

Lemma init_directories_Returned base c s s' :
  init_directories base c None s = (Returned tt, s') <->
  directories (cfg_main c) = Some [] /\ s' = s.
Proof.
  rewrite init_directories_unbound.
  destruct (directories (cfg_main c)) as [dirs|]; [|by split; [|intros [? _]]].
  rewrite make_directories_unbound.
  destruct dirs as [|[key [items|r|b|]] rest]; try (by split; [|intros [? _]]).
  - split; [by intros [= <-]|by intros [_ ->]].
  - destruct (mkdir _ _ s) as [[f|] s1]; by split; [|intros [? _]].
Qed.

Lemma load_file_state base filename s r s' :
  load_file base filename s = (r, s') -> s' = s.
Proof.
  unfold load_file, read_text.
  destruct (FS.exists_ _ _); [|by intros [= _ <-]].
  destruct (FS.read_decoded _ _) as [t|e]; [|by intros [= _ <-]].
  destruct (safe_load _); by intros [= _ <-].
Qed.

Lemma load_config_Returned base s c s' :
  load_config base s = (Returned c, s') ->
  s' = s /\ load_file base (txt "config.yml") s = (Returned (cfg_main c), s).
Proof.
  unfold load_config, and_then.
  destruct (load_file base (txt "config.yml") s) as [[v1|f] s1] eqn:H1; [|done].
  apply load_file_state in H1 as H1'. subst s1.
  destruct (load_file base (txt "tasks.yml") s) as [[v2|f] s2] eqn:H2; [|done].
  apply load_file_state in H2 as H2'. subst s2.
  destruct (load_file base (txt "triggers.yml") s) as [[v3|f] s3] eqn:H3; [|done].
  apply load_file_state in H3 as H3'. subst s3.
  destruct (load_file base (txt "secrets.yml") s) as [[v4|f] s4] eqn:H4; [|done].
  apply load_file_state in H4 as H4'. subst s4.
  by intros [= <- <-].
Qed.

(** X12. [init_directories] as the constructor calls it, with
    [self.logger] not yet bound.  It returns only when the main
    configuration is a mapping whose [directories] entry is missing or an
    empty mapping, and then it changes nothing.  With one directory or
    more configured it never returns: after the mkdir of the first entry
    (and of no other) it raises AttributeError, or what that mkdir raised;
    a first entry that is no str raises before any mkdir; and so does a
    main configuration, or a [directories] entry, that is no mapping. *)
Theorem init_directories_before_the_logger (base : list (list N)) (c : config)
    (s : state) :
  let out := init_directories base c None s in
  (fst out = Returned tt <-> directories (cfg_main c) = Some [])
  /\ (fst out = Returned tt -> snd out = s)
  /\ (forall key r rest,
        directories (cfg_main c) = Some ((key, YStr r) :: rest) ->
        let made := mkdir (fst (full_path base r)) (snd (full_path base r)) s in
        out = (Raised (default AttributeError (fst made)), snd made))
  /\ (forall key v rest,
        directories (cfg_main c) = Some ((key, v) :: rest) ->
        (forall r, v <> YStr r) ->
        out = (Raised (match v with YBytes _ => TypeError | _ => AttributeError end),
               s))
  /\ (directories (cfg_main c) = None -> out = (Raised AttributeError, s)).
Proof.
  intros out.
  assert ((fst out = Returned tt <-> directories (cfg_main c) = Some [])
          /\ (fst out = Returned tt -> snd out = s)) as [H1 H2].
  { unfold out. rewrite init_directories_unbound.
    destruct (directories (cfg_main c)) as [dirs|]; [|by split; [split|]].
    rewrite make_directories_unbound.
    destruct dirs as [|[key [items|r|b|]] rest]; try (by split; [split|]).
    destruct (mkdir _ _ s) as [[f|] s1]; by split; [split|]. }
  split; [done|]. split; [done|]. split; [|split].
  - intros key r rest Hd made. unfold out.
    rewrite init_directories_unbound, Hd, make_directories_unbound.
    fold made. by destruct made as [[f|] s1].
  - intros key v rest Hd Hv. unfold out.
    rewrite init_directories_unbound, Hd, make_directories_unbound.
    destruct v as [items|r|b|]; try done. by destruct (Hv r).
  - intros Hd. unfold out. by rewrite init_directories_unbound, Hd.
Qed.

(** X13. The constructor returns only for a configuration without
    directories: when [NodeProcessor(config_dir)] returns, config.yml is
    missing or its document is a mapping whose [directories] entry is
    missing or an empty mapping, and the file system is as
    [setup_logging] left it.  When config.yml is there and loads to
    anything else (an empty document, a list, a mapping that configures a
    directory), the constructor raises, no stage runs and the process
    ends with status 1. *)
Theorem constructor_takes_no_directories (config_dir : list (list N))
    (force : bool) (s : state) :
  (forall processor s',
      init config_dir s = (Returned processor, s') ->
      processor = {| base_dir := config_dir |}
      /\ exists c,
          load_config config_dir s = (Returned c, s)
          /\ directories (cfg_main c) = Some []
          /\ setup_logging config_dir c s = (None, s')
          /\ (FS.exists_ (st_fs s) (config_dir ++ [txt "config.yml"]) = false ->
              cfg_main c = YMap []))
  /\ (forall t v,
        FS.exists_ (st_fs s) (config_dir ++ [txt "config.yml"]) = true ->
        read_text (config_dir ++ [txt "config.yml"]) s = (Ok t, s) ->
        safe_load t = Some v ->
        directories v <> Some [] ->
        exists f s',
          init config_dir s = (Raised f, s')
          /\ start force config_dir s = (1%N, s')).
Proof.
  split.
  - intros processor s'. unfold init, and_then.
    destruct (load_config config_dir s) as [[c|f] s1] eqn:Hload; [|done].
    destruct (load_config_Returned _ _ _ _ Hload) as [-> Hmain].
    destruct (init_directories config_dir c None s) as [[[]|f] s2] eqn:Hdirs;
      [|done].
    apply init_directories_Returned in Hdirs as [Hd ->].
    destruct (setup_logging config_dir c s) as [[f|] s3] eqn:Hlog; [done|].
    intros [= <- <-]. split; [done|]. exists c. repeat (split; [done|]).
    intros Hmissing. unfold load_file in Hmain. rewrite Hmissing in Hmain.
    by injection Hmain as <-.
  - intros t v Hexists Hread Hparse Hd.
    assert (exists f s', init config_dir s = (Raised f, s')) as [f [s' Hinit]].
    { unfold init, and_then.
      destruct (load_config config_dir s) as [[c|f] s1] eqn:Hload;
        [|by eexists _, _].
      destruct (load_config_Returned _ _ _ _ Hload) as [-> Hmain].
      unfold load_file in Hmain. rewrite Hexists, Hread, Hparse in Hmain.
      injection Hmain as Hmain.
      destruct (init_directories config_dir c None s) as [[[]|f] s2] eqn:Hdirs;
        [|by eexists _, _].
      apply init_directories_Returned in Hdirs as [Hd' _].
      by rewrite <- Hmain in Hd'. }
    exists f, s'. split; [done|]. unfold start. by rewrite Hinit.
Qed.

(** ** Running again *)

Lemma write_all_app ws1 : forall ws2 fs,
  write_all (ws1 ++ ws2) fs
  = match write_all ws1 fs with
    | (None, fs1) => write_all ws2 fs1
    | (Some e, fs1) => (Some e, fs1)
    end.
Proof.
  induction ws1 as [|[p d] ws1 IH]; intros ws2 fs; [done|].
  cbn [app write_all]. by destruct (FS.open_w fs p d).
Qed.

Lemma write_all_frame ws : forall fs p,
  p ∉ ws.*1 -> snd (write_all ws fs) !! p = fs !! p.
Proof.
  induction ws as [|[q d] ws IH]; intros fs p Hp; [done|].
  rewrite fmap_cons in Hp. apply not_elem_of_cons in Hp as [Hne Hp].
  cbn [write_all]. destruct (FS.open_w fs q d) as [n|e]; [|done].
  rewrite IH by done. by apply lookup_insert_ne.
Qed.

(** Performing a list of writes on a file system that already holds what
    they left gives the same outcome and changes nothing. *)
Lemma write_all_again ws : forall fs fs',
  NoDup ws.*1 ->
  (forall p q, p ∈ ws.*1 -> q ∈ ws.*1 -> p <> parent q) ->
  (forall p, p ∈ ws.*1 ->
     fs' !! p = snd (write_all ws fs) !! p
     /\ fs' !! parent p = snd (write_all ws fs) !! parent p) ->
  write_all ws fs' = (fst (write_all ws fs), fs').
Proof.
  induction ws as [|[p d] ws IH]; intros fs fs' Hnd Hpar Hsame; [done|].
  rewrite fmap_cons in Hnd, Hpar, Hsame. cbn [fst] in Hnd, Hpar, Hsame.
  apply NoDup_cons in Hnd as [Hp Hnd].
  destruct (Hsame p) as [H1 H2]; [by left|]. cbn [write_all] in *.
  destruct (FS.open_w fs p d) as [n|e] eqn:Hopen.
  - rewrite write_all_frame in H1 by done. rewrite lookup_insert_eq in H1.
    pose proof (open_w_Ok _ _ _ _ Hopen) as [Hne [r [-> _]]].
    assert (FS.open_w fs' p d = Ok (File d r true)) as ->.
    { unfold FS.open_w. destruct p; [done|]. by rewrite H1. }
    rewrite insert_id by done. apply IH; [done| |].
    + intros a b Ha Hb. apply Hpar; by right.
    + intros q Hq. apply Hsame. by right.
  - cbn [snd] in H1, H2.
    rewrite (open_w_ext fs' fs p d H1 H2), Hopen. done.
Qed.

Lemma write_protocols_write_all out pc protos : forall s,
  (forall proto, encodable (Str.join NL (default [] (pc !! proto))) = true) ->
  let ws :=
    flat_map (fun proto => if is_nil (default [] (pc !! proto)) then []
                           else [(out ++ [proto ++ txt ".txt"],
                                  Utf8.encode (Str.join NL (default [] (pc !! proto))))])
             protos in
  fst (write_protocols out pc protos s)
  = match fst (write_all ws (st_fs s)) with None => Ok tt | Some e => Raise e end
  /\ st_fs (snd (write_protocols out pc protos s)) = snd (write_all ws (st_fs s)).
Proof.
  induction protos as [|proto protos IH]; intros s Henc; [done|].
  cbn [write_protocols flat_map]. unfold bind at 1 3.
  rewrite write_protocol_step by apply Henc.
  destruct (default [] (pc !! proto)) as [|l lines] eqn:Hl; cbn [is_nil app].
  - by apply IH.
  - cbn [write_all].
    destruct (FS.open_w _ _ _) as [n|e]; [|done].
    by apply (IH (State _ _)).
Qed.

Lemma write_buckets_write_all self lines s :
  Forall (fun l => encodable l = true) lines ->
  let ws := bucket_writes self lines in
  fst (write_buckets self (fst (classify lines)) (snd (classify lines)) s)
  = match fst (write_all ws (st_fs s)) with None => Ok tt | Some e => Raise e end
  /\ st_fs (snd (write_buckets self (fst (classify lines)) (snd (classify lines)) s))
     = snd (write_all ws (st_fs s)).
Proof.
  intros Hlines ws. unfold ws, bucket_writes, writes_of, bucket_ids.
  rewrite flat_map_app, write_all_app.
  rewrite flat_map_concat_map, <- list_fmap_compose, <- flat_map_concat_map.
  unfold compose. cbn [bucket bucket_file flat_map]. rewrite app_nil_r.
  destruct (write_protocols_write_all (output_dir self) (fst (classify lines))
              (fst <$> protocols) s) as [H1 H2].
  { intros proto. by apply (bucket_encodable lines (Some proto)). }
  rewrite flat_map_concat_map, <- list_fmap_compose, <- flat_map_concat_map in H1, H2.
  unfold compose in H1, H2.
  unfold write_buckets, bind.
  destruct (write_protocols _ _ _ s) as [[[]|e] s1]; cbn [fst snd] in H1, H2.
  - destruct (write_all _ (st_fs s)) as [[e|] fs1]; [done|]. cbn [snd] in H2.
    subst fs1.
    destruct (snd (classify lines)) as [|l others] eqn:Ho; cbn [is_nil]; [done|].
    rewrite write_text_spec
      by (rewrite <- Ho; apply (bucket_encodable lines None Hlines)).
    cbn [write_all]. by destruct (FS.open_w _ _ _).
  - destruct (write_all _ (st_fs s)) as [[e'|] fs1]; [|done].
    cbn [snd] in H2. by injection H1 as ->.
Qed.

Lemma elem_of_writes_of self lines ids p d :
  (p, d) ∈ writes_of self lines ids <->
  exists b, b ∈ ids /\ bucket lines b <> [] /\ p = bucket_file self b
            /\ d = Utf8.encode (Str.join NL (bucket lines b)).
Proof.
  unfold writes_of. induction ids as [|b ids IH].
  - split; [by intros ?%elem_of_nil|]. by intros [b [?%elem_of_nil _]].
  - cbn [flat_map]. rewrite elem_of_app, IH. split.
    + intros [Hp|[b' [Hb' H]]].
      * destruct (bucket lines b) as [|l ls] eqn:Hl; cbn [is_nil] in Hp;
          [by apply elem_of_nil in Hp|].
        apply list_elem_of_singleton in Hp. injection Hp as -> ->.
        exists b. rewrite Hl. by split; [left|].
      * exists b'. by split; [right|].
    + intros [b' [[->|Hb']%elem_of_cons [Hne [-> ->]]]].
      * left. destruct (bucket lines b); [done|]. cbn [is_nil].
        by apply list_elem_of_singleton.
      * right. by exists b'.
Qed.

Lemma writes_of_paths self lines ids p :
  p ∈ (writes_of self lines ids).*1 ->
  exists b, b ∈ ids /\ bucket lines b <> [] /\ p = bucket_file self b.
Proof.
  intros [[q d] [-> Hin]]%list_elem_of_fmap.
  apply elem_of_writes_of in Hin as [b [Hb [Hne [-> _]]]]. by exists b.
Qed.

Lemma writes_of_NoDup self lines ids :
  NoDup ids -> (forall b, b ∈ ids -> b ∈ bucket_ids) ->
  NoDup (writes_of self lines ids).*1.
Proof.
  induction ids as [|b ids IH]; intros Hnd Hsub; [constructor|].
  apply NoDup_cons in Hnd as [Hb Hnd].
  change (writes_of self lines (b :: ids))
    with ((if is_nil (bucket lines b) then []
           else [(bucket_file self b, Utf8.encode (Str.join NL (bucket lines b)))])
          ++ writes_of self lines ids).
  assert (NoDup (writes_of self lines ids).*1) as IH'
    by (apply IH; [done|intros; apply Hsub; by right]).
  destruct (is_nil (bucket lines b)); [done|].
  cbn [app]. rewrite fmap_cons. cbn [fst]. apply NoDup_cons. split; [|done].
  intros Hin. apply writes_of_paths in Hin as [b' [Hb' [_ Heq]]].
  apply bucket_file_inj in Heq; [by subst|apply Hsub; by left|apply Hsub; by right].
Qed.

Lemma bucket_writes_paths self lines p :
  p ∈ (bucket_writes self lines).*1 ->
  exists b, b ∈ bucket_ids /\ p = bucket_file self b.
Proof.
  intros Hp. apply writes_of_paths in Hp as [b [Hb [_ ->]]]. by exists b.
Qed.

Lemma bucket_writes_NoDup self lines : NoDup (bucket_writes self lines).*1.
Proof. by apply writes_of_NoDup; [apply bucket_ids_NoDup|]. Qed.

Lemma read_decoded_ext fs1 fs2 (p : path) :
  fs1 !! p = fs2 !! p -> FS.read_decoded fs1 p = FS.read_decoded fs2 p.
Proof.
  intros H. unfold FS.read_decoded, FS.read_bytes. destruct p; [done|].
  by rewrite H.
Qed.

(** The classifier, run on a file system that holds what it left, changes
    nothing. *)
Lemma split_by_protocol_again self input_file s t :
  (forall b, b ∈ bucket_ids -> bucket_file self b <> input_file) ->
  (forall p, p = input_file \/ p = output_dir self
             \/ (exists b, b ∈ bucket_ids /\ p = bucket_file self b) ->
     st_fs t !! p = st_fs (snd (split_by_protocol self input_file s)) !! p) ->
  st_fs (snd (split_by_protocol self input_file t)) = st_fs t.
Proof.
  intros Hinput Hsame.
  assert (FS.read_decoded (st_fs t) input_file
          = FS.read_decoded (st_fs s) input_file) as Hread.
  { apply read_decoded_ext. rewrite Hsame by by left.
    by apply split_by_protocol_frame. }
  rewrite split_by_protocol_spec in Hsame. rewrite split_by_protocol_spec, Hread.
  destruct (FS.read_decoded (st_fs s) input_file) as [doc|e] eqn:Hdoc; [|done].
  cbv zeta in *.
  pose proof (readlines_encodable _ _ _ Hdoc) as Hlines.
  set (lines := Str.readlines doc) in *.
  set (s1 := State (st_fs s) (st_log s ++ [(INFO, MsgSplitStart)])) in *.
  set (t1 := State (st_fs t) (st_log t ++ [(INFO, MsgSplitStart)])).
  destruct (write_buckets_write_all self lines s1 Hlines) as [_ Hs].
  destruct (write_buckets_write_all self lines t1 Hlines) as [_ Ht].
  assert (forall p, p = input_file \/ p = output_dir self
                    \/ (exists b, b ∈ bucket_ids /\ p = bucket_file self b) ->
            st_fs t !! p = snd (write_all (bucket_writes self lines) (st_fs s)) !! p)
    as Hsame'.
  { intros p Hp. rewrite (Hsame p Hp). cbn [st_fs s1] in Hs. rewrite <- Hs.
    by destruct (write_buckets _ _ _ s1) as [[[]|e] s2]. }
  assert (st_fs (snd (write_buckets self (fst (classify lines))
                        (snd (classify lines)) t1)) = st_fs t) as Hfix.
  { rewrite Ht. cbn [st_fs t1].
    rewrite (write_all_again _ (st_fs s) (st_fs t)); [done| | |].
    - apply bucket_writes_NoDup.
    - intros p q Hp Hq.
      apply bucket_writes_paths in Hp as [b [_ ->]].
      apply bucket_writes_paths in Hq as [b' [_ ->]].
      destruct (bucket_file_output self b) as [x ->].
      destruct (bucket_file_output self b') as [y ->].
      rewrite parent_snoc. apply snoc_neq_self.
    - intros p Hp. apply bucket_writes_paths in Hp as [b [Hb ->]]. split.
      + apply Hsame'. right. right. by exists b.
      + destruct (bucket_file_output self b) as [x ->]. rewrite parent_snoc.
        apply Hsame'. right. by left. }
  by destruct (write_buckets _ _ _ t1) as [[[]|e] t2].
Qed.

Lemma merger_agree fs1 fs2 self :
  (forall p, p = nodes_dir self \/ (exists n, p = nodes_dir self ++ [n]) ->
             fs1 !! p = fs2 !! p) ->
  merged_document fs1 self = merged_document fs2 self.
Proof.
  intros Hsame. apply merger_ext.
  - apply sorted_glob_ext. intros n. rewrite !elem_of_glob.
    assert (FS.is_dir fs1 (nodes_dir self) = FS.is_dir fs2 (nodes_dir self)) as ->.
    { unfold FS.is_dir. destruct (nodes_dir self) eqn:Hd; [done|].
      rewrite <- Hd. by rewrite Hsame by by left. }
    by rewrite (Hsame (nodes_dir self ++ [n])) by (right; by exists n).
  - intros file Hfile. apply elem_of_sorted_glob in Hfile as [n [-> _]].
    apply read_decoded_ext. apply Hsame. right. by exists n.
Qed.

(** The merger, run on a file system that holds what it left, has the same
    outcome and changes nothing. *)
Lemma merge_files_again self s t :
  (forall p, p = hb_file self \/ p = output_dir self \/ p = nodes_dir self
             \/ (exists n, p = nodes_dir self ++ [n]) ->
     st_fs t !! p = st_fs (snd (merge_files self s)) !! p) ->
  fst (merge_files self t) = fst (merge_files self s)
  /\ st_fs (snd (merge_files self t)) = st_fs t.
Proof.
  intros Hsame.
  assert (forall p, p = nodes_dir self \/ (exists n, p = nodes_dir self ++ [n]) ->
            st_fs (snd (merge_files self s)) !! p = st_fs s !! p) as Hinput.
  { intros p Hp. apply merge_files_frame. intros Heq. symmetry in Heq.
    revert Heq. rewrite hb_file_output.
    apply output_file_not_watched. destruct Hp as [->|[x ->]]; [by left|right].
    split; [by destruct (nodes_dir self)|apply parent_snoc]. }
  assert (merged_document (st_fs t) self = merged_document (st_fs s) self) as Hdoc.
  { apply merger_agree. intros p Hp. rewrite <- Hinput by done.
    apply Hsame. destruct Hp as [->|Hp]; [right; right; by left|by do 3 right]. }
  pose proof (Hsame (hb_file self) (or_introl eq_refl)) as Hhb.
  pose proof (Hsame (output_dir self) (or_intror (or_introl eq_refl))) as Hout.
  destruct (merge_files_spec self s) as [log_s Hs].
  destruct (merge_files_spec self t) as [log_t Ht].
  cbv zeta in Hs, Ht.
  fold (merged_document (st_fs s) self) in Hs.
  fold (merged_document (st_fs t) self) in Ht.
  rewrite Hdoc in Ht.
  rewrite Hs in Hhb, Hout. rewrite Hs, Ht.
  destruct (FS.open_w (st_fs s) _ _) as [n|e] eqn:Hopen.
  - pose proof (open_w_Ok _ _ _ _ Hopen) as [Hne [r [-> _]]].
    destruct (encodable (merged_document (st_fs s) self));
      cbn [snd st_fs set_data] in Hhb, Hout; rewrite lookup_insert_eq in Hhb;
      (assert (FS.open_w (st_fs t) (hb_file self) [] = Ok (File [] r true)) as ->;
       [unfold FS.open_w; destruct (hb_file self); [done|]; by rewrite Hhb|]);
      cbn [fst snd st_fs set_data]; (split; [done|]); by apply insert_id.
  - cbn [snd st_fs] in Hhb, Hout.
    rewrite (open_w_ext (st_fs t) (st_fs s)), Hopen; [done|done|].
    by rewrite hb_file_output, parent_snoc.
Qed.

Lemma report_files_outcome fs files : forall w w',
  snd (report_files fs files w) = snd (report_files fs files w').
Proof.
  induction files as [|file files IH]; intros w w'; [done|].
  cbn [report_files]. destruct (FS.read_decoded fs file); [|done].
  destruct (encodable (name file)); [apply IH|done].
Qed.

Lemma generate_report_outcome self s :
  fst (generate_report self s) = report_outcome (st_fs s) self.
Proof.
  rewrite generate_report_spec. unfold report_outcome.
  destruct (FS.open_w _ _ _) as [opened|e]; [|done]. cbv zeta.
  unfold report_result.
  rewrite (report_files_outcome _ _ _ []).
  by destruct (snd (report_files _ _ [])).
Qed.

Lemma report_outcome_again self s :
  report_outcome (st_fs (snd (generate_report self s))) self
  = report_outcome (st_fs s) self.
Proof.
  rewrite generate_report_spec. unfold report_outcome at 2.
  destruct (FS.open_w (st_fs s) _ _) as [opened|e] eqn:Hopen;
    [|cbn [snd]; unfold report_outcome; by rewrite Hopen].
  cbv zeta.
  assert (forall x, report_outcome (<[report_file self := set_data opened x]> (st_fs s))
                      self
                    = match snd (report_files (<[report_file self := opened]> (st_fs s))
                                   (FS.sorted_glob (<[report_file self := opened]> (st_fs s))
                                      (output_dir self) (txt ".txt")) []) with
                      | Some e => Raise e
                      | None => Ok tt
                      end) as Hagain.
  { intros x. unfold report_outcome.
    pose proof (open_w_Ok _ _ _ _ Hopen) as [Hne [r [-> _]]]. cbn [set_data].
    assert (FS.open_w (<[report_file self := File x r true]> (st_fs s))
              (report_file self) [] = Ok (File [] r true)) as ->.
    { unfold FS.open_w. destruct (report_file self); [done|].
      by rewrite lookup_insert_eq. }
    by rewrite insert_insert_eq. }
  destruct (snd (report_result _ self)); cbn [snd st_fs log_entry]; apply Hagain.
Qed.

(** After a run the marker is settled: the change check of the next run
    finds no change and leaves the file system alone. *)
Lemma check_changes_after_run self force s b s1 t :
  run self force s = (Ok b, s1) ->
  st_fs t = st_fs s1 ->
  exists h log', check_changes self t = (Ok (false, h), State (st_fs t) log').
Proof.
  intros Hrun Ht.
  pose proof (run_fs self force s) as Hfs. rewrite Hrun in Hfs.
  destruct (check_changes self (started s)) as [[[changed h]|e] sc] eqn:Hcheck;
    [|by destruct Hfs].
  destruct Hfs as [b' [s' [[= <- <-] [Hframe _]]]].
  apply check_changes_Ok in Hcheck as [Hh Hsc].
  exists h. apply check_changes_settled.
  - rewrite Ht, Hframe, Hsc.
    + apply lookup_insert_eq.
    + intros Heq. symmetry in Heq. by apply output_file_neq_hash_file in Heq.
    + intros b0 _ Heq. by apply output_file_neq_hash_file in Heq.
    + intros Heq. symmetry in Heq. by apply output_file_neq_hash_file in Heq.
  - rewrite Ht. rewrite (fingerprint_ext _ (st_fs sc)).
    + rewrite Hsc, Hh. apply fingerprint_insert;
        [apply hash_file_neq_nodes_dir|apply hash_file_not_hashed].
    + intros p Hp. apply Hframe.
      * intros ->. by eapply output_file_not_watched.
      * intros b0 _ Heq. by eapply output_file_not_watched.
      * intros ->. by eapply output_file_not_watched.
Qed.

(** The stages of a forced run, on the state a forced run has left: the
    change check, the merger and the classifier change nothing, and the
    reporter ends as it did. *)
Lemma run_again_stages self s b s1 t :
  run self true s = (Ok b, s1) ->
  st_fs t = st_fs s1 ->
  exists h tc,
    check_changes self t = (Ok (false, h), tc)
    /\ st_fs tc = st_fs t
    /\ forall t2, st_fs t2 = st_fs t ->
         match merge_files self t2 with
         | (Raise e, t3) => b = false /\ st_fs t3 = st_fs t
         | (Ok f, t3) =>
             st_fs (snd (split_by_protocol self f t3)) = st_fs t
             /\ b = is_ok (report_outcome (st_fs t) self)
         end.
Proof.
  intros Hrun Ht.
  destruct (check_changes_after_run self true s b s1 t Hrun Ht) as [h [log' Hc]].
  exists h, (State (st_fs t) log'). split; [done|]. split; [done|].
  intros t2 Ht2. rewrite run_spec in Hrun.
  destruct (check_changes self (started s)) as [[changes|e] sc]; [|done].
  rewrite andb_false_r in Hrun.
  set (s2 := log_entry sc INFO MsgProcessing) in *.
  assert (forall x p, p = nodes_dir self \/ (exists n, p = nodes_dir self ++ [n]) ->
            output_dir self ++ [x] <> p) as Hwatched.
  { intros x p Hp. apply output_file_not_watched.
    destruct Hp as [->|[n ->]]; [by left|right].
    split; [by destruct (nodes_dir self)|apply parent_snoc]. }
  destruct (merge_files self s2) as [[f|e] s3] eqn:Hmerge.
  - pose proof (merge_files_Ok _ _ _ _ Hmerge) as [-> _].
    set (s4 := snd (split_by_protocol self (hb_file self) s3)) in *.
    assert (exists r s5, generate_report self s4 = (r, s5)
                         /\ b = is_ok r /\ st_fs s1 = st_fs s5)
      as [r [s5 [Hreport [Hb Hs1]]]].
    { destruct (generate_report self s4) as [[[]|e] s5];
        injection Hrun as <- <-; by eexists _, _. }
    assert (forall p, p <> report_file self -> st_fs t !! p = st_fs s4 !! p)
      as Hafter.
    { intros p Hp. rewrite Ht, Hs1.
      pose proof (generate_report_frame self s4 p Hp) as Hf.
      by rewrite Hreport in Hf. }
    destruct (merge_files_again self s2 t2) as [Hm1 Hm2].
    { intros p Hp. rewrite Ht2, Hmerge. cbn [snd].
      assert (p <> report_file self) as Hrep.
      { unfold report_file.
        destruct Hp as [->|[->|Hp]].
        - apply hb_file_neq_report_file.
        - intros Heq. symmetry in Heq. by apply output_file_neq_output_dir in Heq.
        - intros ->. by eapply (Hwatched (txt "REPORT.md")). }
      rewrite Hafter by done. unfold s4.
      apply split_by_protocol_frame. intros b0 Hb0 Heq.
      destruct Hp as [->|[->|Hp]].
      + by apply bucket_file_neq_hb_file in Heq.
      + destruct (bucket_file_output self b0) as [x Hx]. rewrite Hx in Heq.
        by apply output_file_neq_output_dir in Heq.
      + destruct (bucket_file_output self b0) as [x Hx]. rewrite Hx in Heq.
        by eapply Hwatched. }
    rewrite Hmerge in Hm1. cbn [fst] in Hm1.
    destruct (merge_files self t2) as [[f|e] t3]; [|done].
    injection Hm1 as ->. cbn [snd] in Hm2. split.
    + rewrite (split_by_protocol_again self (hb_file self) s3 t3).
      * by rewrite Hm2.
      * intros b0 Hb0. by apply bucket_file_neq_hb_file.
      * intros p Hp. rewrite Hm2, Ht2. fold s4. apply Hafter.
        destruct Hp as [->|[->|[b0 [Hb0 ->]]]].
        -- apply hb_file_neq_report_file.
        -- intros Heq. symmetry in Heq. unfold report_file in Heq.
           by apply output_file_neq_output_dir in Heq.
        -- by apply bucket_file_neq_report_file.
    + rewrite Hb, Ht, Hs1.
      pose proof (report_outcome_again self s4) as Hagain.
      rewrite Hreport in Hagain. cbn [snd] in Hagain. rewrite Hagain.
      by rewrite <- generate_report_outcome, Hreport.
  - injection Hrun as <- <-. cbn [st_fs log_entry] in Ht.
    destruct (merge_files_again self s2 t2) as [Hm1 Hm2].
    { intros p _. by rewrite Ht2, Ht, Hmerge. }
    rewrite Hmerge in Hm1. cbn [fst] in Hm1.
    destruct (merge_files self t2) as [[f|e'] t3]; [done|].
    cbn [snd] in Hm2. split; [done|]. by rewrite Hm2.
Qed.

(** ** What is fed to the hash *)

Lemma sorted_glob_known fs d ext (names : list (list N)) :
  NoDup names -> Sorted FS.name_le names ->
  (forall n, n ∈ FS.glob fs d ext <-> n ∈ names) ->
  FS.sorted_glob fs d ext = (fun n => d ++ [n]) <$> names.
Proof.
  intros Hnd Hsorted Hnames. unfold FS.sorted_glob. f_equal.
  apply (Sorted_unique FS.name_le); try apply Sorted_merge_sort; try apply _;
    [done|].
  rewrite merge_sort_Permutation.
  by apply NoDup_Permutation; [apply NoDup_glob| |].
Qed.

Lemma endswith_txt_only n ext :
  Str.endswith n (txt ".txt") = true -> ext ∈ [txt ".yaml"; txt ".yml"] ->
  Str.endswith n ext = false.
Proof.
  unfold Str.endswith. intros Hn Hext.
  destruct (rev n) as [|c r]; [done|].
  assert (c = 116%N) as ->.
  { change (rev (txt ".txt")) with [116; 120; 116; 46]%N in Hn.
    cbn [Str.startswith] in Hn. apply andb_true_iff in Hn as [Hc _].
    symmetry. by apply N.eqb_eq. }
  apply elem_of_cons in Hext as [->|Hext];
    [|apply list_elem_of_singleton in Hext as ->]; done.
Qed.

(** X15. What is fed to the hash has no separators: the bytes of a file
    and its name, file after file.  A directory with the files [n1]
    (holding [x]) and [n2] (holding [y]), where the name [n1] can be
    encoded in UTF-8, and the same directory with the one file [n2]
    holding [x], the encoded name [n1] and [y] in a row, have the same
    fingerprint, whatever the hash function: the change check cannot tell
    them apart. *)
Theorem fingerprint_joins_files (fs : gmap (list (list N)) node)
    (d : list (list N)) (n1 n2 : list N) (x y : list N) (w1 w2 w3 : bool) :
  FS.is_dir fs d = true ->
  (forall n, fs !! (d ++ [n]) = None) ->
  Str.endswith n1 (txt ".txt") = true ->
  Str.endswith n2 (txt ".txt") = true ->
  n1 <> n2 ->
  Str.leb n1 n2 = true ->
  encodable n1 = true ->
  fingerprint (<[d ++ [n2] := File y true w2]>
                 (<[d ++ [n1] := File x true w1]> fs)) d
  = fingerprint (<[d ++ [n2] := File (x ++ Utf8.encode n1 ++ y) true w3]> fs) d.
Proof.
  intros Hdir Hempty Hn1 Hn2 Hne Hle Henc.
  set (fs1 := <[d ++ [n2] := File y true w2]> (<[d ++ [n1] := File x true w1]> fs)).
  set (fs2 := <[d ++ [n2] := File (x ++ Utf8.encode n1 ++ y) true w3]> fs).
  assert (forall n m : list N, d ++ [n] <> d ++ [m] <-> n <> m) as Hsnoc.
  { intros n m. split; [by intros H ->|]. intros H Heq.
    apply app_inv_head in Heq. by injection Heq. }
  assert (forall n, d ++ [n] <> d) as Hd by apply snoc_neq_self.
  assert (FS.is_dir fs1 d = true /\ FS.is_dir fs2 d = true) as [Hdir1 Hdir2].
  { unfold fs1, fs2. by rewrite !is_dir_insert. }
  assert (FS.exists_ fs d = true) as Hex.
  { unfold FS.is_dir in Hdir. unfold FS.exists_. destruct d; [done|].
    by destruct (fs !! _). }
  assert (forall n, is_Some (fs1 !! (d ++ [n])) <-> n = n1 \/ n = n2) as Hin1.
  { intros n. unfold fs1.
    destruct (decide (n = n2)) as [->|H2].
    { rewrite lookup_insert_eq. split; [by right|by eexists]. }
    rewrite lookup_insert_ne by by apply Hsnoc.
    destruct (decide (n = n1)) as [->|H1].
    { rewrite lookup_insert_eq. split; [by left|by eexists]. }
    rewrite lookup_insert_ne by by apply Hsnoc.
    rewrite Hempty. split; [by intros [? ?]|by intros [?|?]]. }
  assert (forall n, is_Some (fs2 !! (d ++ [n])) <-> n = n2) as Hin2.
  { intros n. unfold fs2.
    destruct (decide (n = n2)) as [->|H2].
    { rewrite lookup_insert_eq. split; [done|by eexists]. }
    rewrite lookup_insert_ne by by apply Hsnoc.
    rewrite Hempty. split; [by intros [? ?]|done]. }
  assert (txt ".yaml" ∈ [txt ".yaml"; txt ".yml"]) as Hyaml by by left.
  assert (txt ".yml" ∈ [txt ".yaml"; txt ".yml"]) as Hyml by (right; by left).
  assert (hashed_files fs1 d = [d ++ [n1]; d ++ [n2]]) as Hfiles1.
  { unfold hashed_files. cbn [flat_map].
    rewrite (sorted_glob_known fs1 d (txt ".txt") [n1; n2]).
    - rewrite (sorted_glob_known fs1 d (txt ".yaml") []),
        (sorted_glob_known fs1 d (txt ".yml") []); [done|constructor|constructor| |
                                                   constructor|constructor|].
      + intros n. rewrite elem_of_glob, Hin1. split; [|by intros ?%elem_of_nil].
        intros [Hn [_ [->| ->]]].
        * by rewrite (endswith_txt_only _ _ Hn1 Hyml) in Hn.
        * by rewrite (endswith_txt_only _ _ Hn2 Hyml) in Hn.
      + intros n. rewrite elem_of_glob, Hin1. split; [|by intros ?%elem_of_nil].
        intros [Hn [_ [->| ->]]].
        * by rewrite (endswith_txt_only _ _ Hn1 Hyaml) in Hn.
        * by rewrite (endswith_txt_only _ _ Hn2 Hyaml) in Hn.
    - apply NoDup_cons. split; [|apply NoDup_singleton].
      by intros ->%list_elem_of_singleton.
    - apply Sorted_cons; [apply Sorted_cons; constructor|].
      constructor. unfold FS.name_le. by rewrite Hle.
    - intros n. rewrite elem_of_glob, Hin1, Hdir1.
      rewrite elem_of_cons, list_elem_of_singleton.
      split; [by intros [_ [_ ?]]|]. intros [->| ->]; by repeat split; auto. }
  assert (hashed_files fs2 d = [d ++ [n2]]) as Hfiles2.
  { unfold hashed_files. cbn [flat_map].
    rewrite (sorted_glob_known fs2 d (txt ".txt") [n2]).
    - rewrite (sorted_glob_known fs2 d (txt ".yaml") []),
        (sorted_glob_known fs2 d (txt ".yml") []); [done|constructor|constructor| |
                                                   constructor|constructor|].
      + intros n. rewrite elem_of_glob, Hin2. split; [|by intros ?%elem_of_nil].
        intros [Hn [_ ->]]. by rewrite (endswith_txt_only _ _ Hn2 Hyml) in Hn.
      + intros n. rewrite elem_of_glob, Hin2. split; [|by intros ?%elem_of_nil].
        intros [Hn [_ ->]]. by rewrite (endswith_txt_only _ _ Hn2 Hyaml) in Hn.
    - apply NoDup_singleton.
    - apply Sorted_cons; constructor.
    - intros n. rewrite elem_of_glob, Hin2, Hdir2, list_elem_of_singleton.
      split; [by intros [_ [_ ?]]|]. by intros ->. }
  assert (forall fs' n data r w, fs' !! (d ++ [n]) = Some (File data r w) ->
            FS.read_bytes fs' (d ++ [n]) = if r then Ok data else Raise PermissionError)
    as Hread.
  { intros fs' n data r w Hf. unfold FS.read_bytes.
    destruct (d ++ [n]) eqn:Hp; [by destruct d|]. by rewrite Hf. }
  unfold fingerprint. unfold fs1 at 1, fs2 at 1.
  rewrite !exists_insert, Hex by done. do 2 f_equal.
  rewrite Hfiles1, Hfiles2. unfold hash_input. cbn [flat_map].
  rewrite (Hread fs1 n1 x true w1), (Hread fs1 n2 y true w2),
    (Hread fs2 n2 (x ++ Utf8.encode n1 ++ y) true w3).
  - rewrite !name_snoc, !app_nil_r. unfold str_encode. rewrite Henc.
    destruct (encodable n2); by rewrite <- !app_assoc.
  - unfold fs2. by rewrite lookup_insert_eq.
  - unfold fs1. by rewrite lookup_insert_eq.
  - unfold fs1. rewrite lookup_insert_ne by by apply Hsnoc.
    by rewrite lookup_insert_eq.
Qed.

(** ** A write of the classifier fails *)

Lemma write_all_ok ws : forall fs,
  NoDup ws.*1 ->
  (forall p q, p ∈ ws.*1 -> q ∈ ws.*1 -> p <> parent q) ->
  (forall p, p ∈ ws.*1 -> is_ok (FS.open_w fs p []) = true) ->
  fst (write_all ws fs) = None
  /\ forall p d, (p, d) ∈ ws -> file_data (snd (write_all ws fs)) p = Some d.
Proof.
  induction ws as [|[p d] ws IH]; intros fs Hnd Hpar Hopen.
  - split; [done|]. by intros ? ? ?%elem_of_nil.
  - rewrite fmap_cons in Hnd, Hpar, Hopen. cbn [fst] in Hnd, Hpar, Hopen.
    apply NoDup_cons in Hnd as [Hp Hnd]. cbn [write_all].
    assert (is_ok (FS.open_w fs p d) = true) as Hok.
    { rewrite (is_ok_open_w _ _ _ []). apply Hopen. by left. }
    destruct (FS.open_w fs p d) as [n|e] eqn:Hn; [|done].
    destruct (IH (<[p := n]> fs)) as [IH1 IH2]; [done| | |].
    + intros a b Ha Hb. apply Hpar; by right.
    + intros q Hq. rewrite is_ok_open_w_insert.
      * apply Hopen. by right.
      * by intros ->.
      * apply Hpar; [by left|by right].
    + split; [done|]. intros q d' [[= -> ->]|Hin]%elem_of_cons.
      * unfold file_data. rewrite write_all_frame by done.
        by apply open_w_data in Hn.
      * by apply IH2.
Qed.

(** X16. The classifier stops at the first bucket file it cannot write.
    With the merged file readable, a bucket with lines whose file cannot
    be opened, and the files of the buckets with lines before it in the
    order of the table (other.txt last) writable: the buckets before it
    have their files written, the path of the failing bucket and of every
    bucket after it is untouched, writable or not, and the classifier
    logs the error and returns. *)
Theorem split_by_protocol_stops_at_first_failure (self : NodeProcessor)
    (input_file : list (list N)) (s : state) (doc : list N)
    (before after : list (option (list N))) (b : option (list N)) (e : exn) :
  FS.read_decoded (st_fs s) input_file = Ok doc ->
  bucket_ids = before ++ b :: after ->
  bucket (Str.readlines doc) b <> [] ->
  FS.open_w (st_fs s) (bucket_file self b) [] = Raise e ->
  (forall b', b' ∈ before -> bucket (Str.readlines doc) b' <> [] ->
              is_ok (FS.open_w (st_fs s) (bucket_file self b') []) = true) ->
  let s' := snd (split_by_protocol self input_file s) in
  fst (split_by_protocol self input_file s) = Ok tt
  /\ (forall b', b' ∈ before -> bucket (Str.readlines doc) b' <> [] ->
        file_data (st_fs s') (bucket_file self b')
        = Some (Utf8.encode (Str.join NL (bucket (Str.readlines doc) b'))))
  /\ (forall b', b' = b \/ b' ∈ after ->
        st_fs s' !! bucket_file self b' = st_fs s !! bucket_file self b')
  /\ last (st_log s') = Some (ERROR, MsgSplitFailed e).
Proof.
  intros Hread Hids Hne Hfail Hopen s'.
  set (lines := Str.readlines doc) in *.
  pose proof bucket_ids_NoDup as Hnd. rewrite Hids in Hnd.
  apply NoDup_app in Hnd as [Hnd_before [Hdisjoint Hnd_rest]].
  apply NoDup_cons in Hnd_rest as [Hb_after _].
  assert (forall b', b' ∈ before -> b' ∈ bucket_ids) as Hsub_before.
  { intros b' Hb'. rewrite Hids. apply elem_of_app. by left. }
  assert (b ∈ bucket_ids) as Hb.
  { rewrite Hids. apply elem_of_app. right. by left. }
  assert (forall b', b' ∈ after -> b' ∈ bucket_ids) as Hsub_after.
  { intros b' Hb'. rewrite Hids. apply elem_of_app. right. by right. }
  set (fs := st_fs s) in *.
  assert (bucket_writes self lines
          = writes_of self lines before
            ++ (bucket_file self b, Utf8.encode (Str.join NL (bucket lines b)))
               :: writes_of self lines after) as Hws.
  { unfold bucket_writes, writes_of. rewrite Hids, flat_map_app. cbn [flat_map].
    destruct (bucket lines b); [done|]. done. }
  assert (forall p q, p ∈ (writes_of self lines before).*1 ->
                      q ∈ (writes_of self lines before).*1 -> p <> parent q) as Hpar.
  { intros p q Hp Hq.
    apply writes_of_paths in Hp as [b1 [_ [_ ->]]].
    apply writes_of_paths in Hq as [b2 [_ [_ ->]]].
    destruct (bucket_file_output self b1) as [x ->].
    destruct (bucket_file_output self b2) as [y ->].
    rewrite parent_snoc. apply snoc_neq_self. }
  destruct (write_all_ok (writes_of self lines before) fs) as [Hok Hdata].
  { by apply writes_of_NoDup. }
  { exact Hpar. }
  { intros p Hp. apply writes_of_paths in Hp as [b' [Hb' [Hne' ->]]].
    by apply Hopen. }
  destruct (write_all (writes_of self lines before) fs) as [r fsk] eqn:Hbefore.
  cbn [fst snd] in Hok, Hdata. subst r.
  assert (forall p, p ∉ (writes_of self lines before).*1 -> fsk !! p = fs !! p)
    as Hframe.
  { intros p Hp. pose proof (write_all_frame _ fs p Hp) as Hf.
    by rewrite Hbefore in Hf. }
  assert (forall b', b' = b \/ b' ∈ after ->
            bucket_file self b' ∉ (writes_of self lines before).*1) as Hlater.
  { intros b' Hb' Hin. apply writes_of_paths in Hin as [b1 [Hb1 [_ Heq]]].
    assert (b' ∈ b :: after) as Hrest
      by (destruct Hb' as [->|?]; [by left|by right]).
    apply bucket_file_inj in Heq.
    - subst b1. by apply (Hdisjoint b').
    - destruct Hb' as [->|?]; [done|by apply Hsub_after].
    - by apply Hsub_before. }
  assert (write_all (bucket_writes self lines) fs = (Some e, fsk)) as Hall.
  { rewrite Hws, write_all_app, Hbefore. cbn [write_all].
    rewrite (open_w_ext fsk fs).
    - by rewrite (open_w_Raise _ _ _ _ _ Hfail).
    - apply Hframe, Hlater. by left.
    - destruct (bucket_file_output self b) as [x ->]. rewrite parent_snoc.
      apply Hframe. intros Hin. apply writes_of_paths in Hin as [b1 [_ [_ Heq]]].
      destruct (bucket_file_output self b1) as [y Hy]. rewrite Hy in Heq.
      symmetry in Heq. by apply snoc_neq_self in Heq. }
  unfold fs in Hread.
  unfold s'. rewrite split_by_protocol_spec, Hread. cbv zeta. fold lines.
  set (s1 := State (st_fs s) (st_log s ++ [(INFO, MsgSplitStart)])).
  destruct (write_buckets_write_all self lines s1
              (readlines_encodable _ _ _ Hread)) as [H1 H2].
  cbn [st_fs s1] in H1, H2. fold fs in H1, H2. rewrite Hall in H1, H2.
  cbn [fst snd] in H1, H2.
  destruct (write_buckets _ _ _ s1) as [[[]|e'] s2]; cbn [fst snd] in H1, H2;
    [done|].
  injection H1 as ->. cbn [fst snd st_fs st_log]. rewrite H2.
  split; [done|]. split; [|split].
  - intros b' Hb' Hne'. apply Hdata. apply elem_of_writes_of. by exists b'.
  - intros b' Hb'. by apply Hframe, Hlater.
  - by rewrite last_snoc.
Qed.

(** ** When a stage fails *)

(** Writes that all succeed were all possible at the start. *)
Lemma write_all_opens ws : forall fs,
  NoDup ws.*1 ->
  (forall p q, p ∈ ws.*1 -> q ∈ ws.*1 -> p <> parent q) ->
  fst (write_all ws fs) = None ->
  forall p, p ∈ ws.*1 -> is_ok (FS.open_w fs p []) = true.
Proof.
  induction ws as [|[p d] ws IH]; intros fs Hnd Hpar Hnone q Hq.
  - by apply elem_of_nil in Hq.
  - rewrite fmap_cons in Hnd, Hpar, Hq. cbn [fst] in Hnd, Hpar, Hq.
    apply NoDup_cons in Hnd as [Hp Hnd]. cbn [write_all] in Hnone.
    destruct (FS.open_w fs p d) as [n|e] eqn:Hn; [|done].
    apply elem_of_cons in Hq as [->|Hq].
    + by rewrite (is_ok_open_w _ _ _ d), Hn.
    + rewrite <- (is_ok_open_w_insert fs p n q []).
      * apply (IH (<[p:=n]> fs)); [done| |done|done].
        intros a b Ha Hb. apply Hpar; by right.
      * by intros ->.
      * apply Hpar; [by left|by right].
Qed.

(** C2, as the code has it.  An exception that leaves the merger or the
    reporter is caught by [run]: it is logged, no later stage runs, and
    [run] returns False.  A merger that raises has changed no path other
    than hb.txt (and the log file): when hb.txt could be opened, the
    exception is [UnicodeEncodeError] and hb.txt is left empty.  An
    exception inside the classifier is caught and logged by the
    classifier, which returns normally, whether the merged file cannot be
    read (nothing but the log changes) or the file of a bucket that has
    lines cannot be written (the last line of the log is the ERROR line
    of the classifier): [run] goes on to the report, returns True when
    the report succeeds and False, after logging the error, when the
    report raises. *)
Theorem run_stage_failures (self : NodeProcessor) (force : bool) (s : state)
    (changes : bool * text) (s1 : state) :
  check_changes self (started s) = (Ok changes, s1) ->
  fst changes = true \/ force = true ->
  let s2 := log_entry s1 INFO MsgProcessing in
  (forall e s3,
      merge_files self s2 = (Raise e, s3) ->
      run self force s = (Ok false, log_entry s3 ERROR (MsgRunFailed e))
      /\ (forall p, p <> hb_file self -> p <> log_file self ->
                    st_fs s3 !! p = st_fs s2 !! p)
      /\ (is_ok (FS.open_w (st_fs s2) (hb_file self) []) = true ->
          e = UnicodeEncodeError
          /\ file_data (st_fs s3) (hb_file self) = Some []))
  /\ (forall merged_file s3,
        merge_files self s2 = (Ok merged_file, s3) ->
        exists s4,
          split_by_protocol self merged_file s3 = (Ok tt, s4)
          /\ (forall e, FS.read_decoded (st_fs s3) merged_file = Raise e ->
                (forall p, p <> log_file self -> st_fs s4 !! p = st_fs s3 !! p)
                /\ st_log s4 = st_log s3 ++ [(INFO, MsgSplitStart);
                                             (ERROR, MsgSplitFailed e)])
          /\ (forall doc b,
                FS.read_decoded (st_fs s3) merged_file = Ok doc ->
                b ∈ bucket_ids ->
                bucket (Str.readlines doc) b <> [] ->
                is_ok (FS.open_w (st_fs s3) (bucket_file self b) []) = false ->
                exists e, last (st_log s4) = Some (ERROR, MsgSplitFailed e))
          /\ (forall s5, generate_report self s4 = (Ok tt, s5) ->
                run self force s = (Ok true, log_entry s5 INFO MsgDone))
          /\ (forall e s5, generate_report self s4 = (Raise e, s5) ->
                run self force s
                = (Ok false, log_entry s5 ERROR (MsgRunFailed e)))).
Proof.
  intros Hcheck Hgo s2.
  assert (negb (fst changes) && negb force = false) as Hskip.
  { destruct Hgo as [-> | ->]; [done|]. by rewrite andb_false_r. }
  rewrite run_spec, Hcheck, Hskip. fold s2. split.
  - intros e s3 Hmerge. rewrite Hmerge. split; [done|]. split.
    + intros p Hp _. pose proof (merge_files_frame self s2 p Hp) as Hf.
      by rewrite Hmerge in Hf.
    + intros Hopen.
      apply merge_files_Raise in Hmerge
        as [[_ Hfail]|[-> [_ [opened [Ho ->]]]]]; [by rewrite Hfail in Hopen|].
      split; [done|]. by apply open_w_data.
  - intros merged_file s3 Hmerge. rewrite Hmerge.
    exists (snd (split_by_protocol self merged_file s3)).
    split; [apply split_by_protocol_returns|]. split; [|split; [|split]].
    + intros e Hread. rewrite split_by_protocol_spec, Hread. cbn [snd st_fs st_log].
      split; [done|]. by rewrite <- app_assoc.
    + intros doc b Hread Hb Hne Hfail.
      rewrite split_by_protocol_spec, Hread. cbv zeta.
      pose proof (readlines_encodable _ _ _ Hread) as Hlines.
      set (lines := Str.readlines doc) in *.
      set (s3' := State (st_fs s3) (st_log s3 ++ [(INFO, MsgSplitStart)])).
      destruct (write_buckets_write_all self lines s3' Hlines) as [H1 _].
      cbn [st_fs s3'] in H1.
      destruct (fst (write_all (bucket_writes self lines) (st_fs s3)))
        as [e|] eqn:Hall.
      * exists e.
        destruct (write_buckets _ _ _ s3') as [[[]|e'] s4]; cbn [fst] in H1; [done|].
        injection H1 as ->. cbn [snd st_log]. apply last_snoc.
      * assert (is_ok (FS.open_w (st_fs s3) (bucket_file self b) []) = true) as Hok;
          [|by rewrite Hok in Hfail].
        apply (write_all_opens (bucket_writes self lines) (st_fs s3)).
        -- apply bucket_writes_NoDup.
        -- intros p q Hp Hq.
           apply bucket_writes_paths in Hp as [b1 [_ ->]].
           apply bucket_writes_paths in Hq as [b2 [_ ->]].
           destruct (bucket_file_output self b1) as [x ->].
           destruct (bucket_file_output self b2) as [y ->].
           rewrite parent_snoc. apply snoc_neq_self.
        -- exact Hall.
        -- apply list_elem_of_fmap.
           exists (bucket_file self b, Utf8.encode (Str.join NL (bucket lines b))).
           split; [done|]. apply elem_of_writes_of. by exists b.
    + intros s5 Hrep. by rewrite Hrep.
    + intros e s5 Hrep. by rewrite Hrep.
Qed.

(** ** The log of the merger *)

Lemma merge_loop_cons file files merged_content s :
  merge_loop (file :: files) merged_content s
  = match FS.read_decoded (st_fs s) file with
    | Ok t =>
        let content := Str.strip (concat (Str.readlines t)) in
        merge_loop files
          (if is_nil content then merged_content
           else merged_content ++ [provenance (name file); content; []]) s
    | Raise e =>
        merge_loop files merged_content
          (State (st_fs s) (st_log s ++ [(ERROR, MsgMergeReadFailed file e)]))
    end.
Proof.
  cbn [merge_loop]. unfold bind, try_except, read_text, ret, logger.
  by destruct (FS.read_decoded (st_fs s) file).
Qed.

Lemma merge_loop_log files : forall merged_content s,
  st_fs (snd (merge_loop files merged_content s)) = st_fs s
  /\ st_log (snd (merge_loop files merged_content s))
     = st_log s ++ read_errors (st_fs s) files.
Proof.
  induction files as [|file files IH]; intros mc s.
  - cbn [merge_loop read_errors flat_map]. unfold ret. cbn [snd].
    by rewrite app_nil_r.
  - rewrite merge_loop_cons. cbn [read_errors flat_map].
    destruct (FS.read_decoded (st_fs s) file) as [t|e]; cbv zeta.
    + apply IH.
    + destruct (IH mc (State (st_fs s)
                         (st_log s ++ [(ERROR, MsgMergeReadFailed file e)])))
        as [H1 H2].
      cbn [st_fs st_log] in H1, H2. split; [exact H1|].
      rewrite H2. by rewrite <- app_assoc.
Qed.

(** X17. What the merger logs.  A *.txt entry of the nodes directory that
    cannot be read (no permission, a directory, bytes that are not UTF-8)
    does not stop the merger: it logs one ERROR line for it, naming the
    file and the exception, and goes on.  The log gains the opening line,
    these ERROR lines in the order of the names, and the closing line
    exactly when hb.txt could be opened for writing and the name of every
    file that contributes can be encoded in UTF-8 (otherwise the write
    raises and the merger logs no closing line); a file that is empty
    after trimming is skipped without a line. *)
Theorem merge_files_log (self : NodeProcessor) (s : state) :
  let fs := st_fs s in
  st_log (snd (merge_files self s))
  = st_log s
    ++ [(INFO, MsgMergeStart)]
    ++ read_errors fs (FS.sorted_glob fs (nodes_dir self) (txt ".txt"))
    ++ (if is_ok (FS.open_w fs (hb_file self) [])
           && forallb (fun file => encodable (name file)) (merged_files fs self)
        then [(INFO, MsgMerged (hb_file self))] else []).
Proof.
  intros fs. rewrite <- encodable_merged_document.
  unfold merge_files, bind at 1, logger at 1.
  unfold bind at 1, get_fs. cbn [st_fs st_log]. fold fs.
  set (s0 := State fs (st_log s ++ [(INFO, MsgMergeStart)])).
  destruct (merge_loop_log (FS.sorted_glob fs (nodes_dir self) (txt ".txt")) [] s0)
    as [Hfs Hlog].
  destruct (merge_loop_spec (FS.sorted_glob fs (nodes_dir self) (txt ".txt")) [] s0)
    as [s1 [Hloop _]].
  unfold bind at 1. rewrite Hloop in Hfs, Hlog |- *. cbn [snd st_fs st_log s0] in Hfs, Hlog.
  unfold bind at 1. cbn [app st_fs s0]. fold (hb_file self).
  fold (merged_files fs self). fold (merged_document fs self).
  unfold write_text, str_encode. rewrite Hfs.
  destruct (FS.open_w fs (hb_file self) []) as [n|e]; cbn [is_ok andb].
  - destruct (encodable (merged_document fs self)).
    + unfold bind, logger, ret. cbn [snd st_log]. rewrite Hlog.
      by rewrite <- !app_assoc.
    + cbn [snd st_log]. rewrite Hlog, app_nil_r. by rewrite <- !app_assoc.
  - cbn [snd]. rewrite Hlog, app_nil_r. by rewrite <- !app_assoc.
Qed.

End Runner.

(** ** Two runs *)

(** X14. A forced run can be repeated.  On the state a forced run has
    left, a second forced run, at whatever time, returns what the first
    returned and leaves every path other than REPORT.md and the log file
    as it found it: the marker, hb.txt and the bucket files are written
    again with the same content, and a stage that failed fails again. *)
Theorem forced_run_twice (sha256 : list N -> list N)
    (lower_nonascii : list N -> N -> list N -> list N) (now later : list N)
    (log_file : NodeProcessor -> list (list N))
    (self : NodeProcessor) (s : state) (b : bool) (s1 : state) :
  run sha256 lower_nonascii now self true s = (Ok b, s1) ->
  exists s2,
    run sha256 lower_nonascii later self true s1 = (Ok b, s2)
    /\ forall p, p <> report_file self -> p <> log_file self ->
                 st_fs s2 !! p = st_fs s1 !! p.
Proof.
  intros Hrun.
  destruct (run_again_stages sha256 lower_nonascii now self s b s1
              (started later s1) Hrun eq_refl)
    as [h [tc [Hcheck [Htc Hstages]]]].
  cbn [st_fs started] in Htc, Hstages.
  rewrite run_spec, Hcheck. cbn [fst negb andb].
  specialize (Hstages (log_entry tc INFO MsgProcessing) Htc).
  destruct (merge_files self (log_entry tc INFO MsgProcessing)) as [[f|e] t3].
  - destruct Hstages as [Hsplit Hb].
    pose proof (generate_report_outcome later self
                  (snd (split_by_protocol lower_nonascii self f t3))) as Hout.
    pose proof (generate_report_frame later self
                  (snd (split_by_protocol lower_nonascii self f t3))) as Hframe.
    rewrite Hsplit in Hout. rewrite <- Hout in Hb.
    destruct (generate_report later self _) as [[[]|e] t5];
      cbn [fst snd is_ok] in Hb, Hframe; subst b;
      (eexists; split; [done|]); intros p Hp _; cbn [st_fs log_entry];
      by rewrite Hframe, Hsplit.
  - destruct Hstages as [-> Hfs]. eexists. split; [done|].
    intros p _ _. cbn [st_fs log_entry]. by rewrite Hfs.
Qed.

(** ** The model at work

    The statements below run the model on the sample file systems. *)

Example strip_sample : Str.strip (txt "  vless://a b  ") = txt "vless://a b".
Proof. reflexivity. Qed.

Example readlines_sample :
  Str.readlines ([97; 13; 10; 98; 13; 99; 10; 10; 100]%N)
  = [[97; 10]; [98; 10]; [99; 10]; [10]; [100]]%N.
Proof. reflexivity. Qed.

Example decode_sample :
  Utf8.decode [0xE8; 0x8A; 0x82; 0x41]%N = Some [0x8282; 0x41]%N
  /\ Utf8.decode [0xC0; 0x80]%N = None
  /\ Utf8.encode [0x8282; 0x41]%N = [0xE8; 0x8A; 0x82; 0x41]%N.
Proof. by vm_compute. Qed.

Example fingerprint_sample :
  fingerprint sample_digest sample_fs [txt "nodes"] = txt "3e9d"
  /\ fingerprint sample_digest sample_fs [txt "missing"] = txt "empty".
Proof. by vm_compute. Qed.

(** A file name that cannot be encoded.  The fingerprint is fed the
    bytes of the file and not its name, and the failure is logged; the
    merger opens hb.txt, raises and logs no closing line; the reporter
    stops at the file. *)
Example calculate_hash_surrogate :
  calculate_hash sample_digest [txt "nodes"] (State surrogate_fs [])
  = (Ok (hexlify (sample_digest (Utf8.encode (txt "ss://x
")))),
     State surrogate_fs
       [(ERROR, MsgHashReadFailed [txt "nodes"; surrogate_name] UnicodeEncodeError)]).
Proof. by vm_compute. Qed.

Example merge_files_surrogate :
  fst (merge_files hb (State surrogate_fs [])) = Raise UnicodeEncodeError
  /\ st_log (snd (merge_files hb (State surrogate_fs []))) = [(INFO, MsgMergeStart)].
Proof. by vm_compute. Qed.

Example generate_report_surrogate :
  fst (generate_report sample_now hb
         (State (<[ [txt "hb"; txt "output"; surrogate_name] := File [] true true ]>
                   sample_fs) []))
  = Raise UnicodeEncodeError.
Proof. by vm_compute. Qed.

Lemma merge_files_blocks_witness :
  is_ok (FS.open_w sample_fs (hb_file hb) []) = true
  /\ (exists s',
        merge_files hb (State sample_fs []) = (Ok (hb_file hb), s')
        /\ file_data (st_fs s') (hb_file hb)
           = Some (Utf8.encode (txt "# === a.txt ===
VMESS://abc
# comment

# === b.txt ===
ss://def
junkline
")))
  /\ header_count (merged_document sample_fs hb) [txt "nodes"; txt "a.txt"] = 1.
Proof.
  split; [by vm_compute|].
  destruct (merge_files_blocks hb (State sample_fs []))
    as [_ [_ [_ [_ [Hwritten [_ Hcount]]]]]]; [by vm_compute|].
  split.
  - destruct Hwritten as [s' [H1 H2]]; [by vm_compute|].
    exists s'. split; [exact H1|]. rewrite H2. by vm_compute.
  - cbn [st_fs] in Hcount. unfold merged_document, block.
    rewrite Hcount.
    + by vm_compute.
    + unfold one_line. apply (bool_decide_unpack _). by vm_compute.
    + apply (bool_decide_unpack _). by vm_compute.
Defined.

(** The merged document is not one header a file.  On [header_fs] the
    text of a.txt holds a line that reads as the header of b.txt, and the
    document has two such lines.  On [surrogate_fs], where hb.txt can be
    opened and the one file has text, the name of the file cannot be
    encoded: the merger raises and hb.txt is left with no header at all. *)
Lemma merge_files_headers_repeat_or_fail :
  [txt "nodes"; txt "b.txt"] ∈ merged_files header_fs hb
  /\ header_count (merged_document header_fs hb) [txt "nodes"; txt "b.txt"] = 2
  /\ is_ok (FS.open_w surrogate_fs (hb_file hb) []) = true
  /\ merged_files surrogate_fs hb = [[txt "nodes"; surrogate_name]]
  /\ fst (merge_files hb (State surrogate_fs [])) = Raise UnicodeEncodeError
  /\ file_data (st_fs (snd (merge_files hb (State surrogate_fs [])))) (hb_file hb)
     = Some [].
Proof.
  repeat split; try (by vm_compute); apply (bool_decide_unpack _); by vm_compute.
Qed.

(** A path that holds a regular file: no directory exists there, and the
    fingerprint is a digest, not the text "empty". *)
Lemma calculate_hash_of_a_regular_file :
  FS.is_dir file_fs [txt "nodes"] = false
  /\ fst (calculate_hash sample_digest [txt "nodes"] (State file_fs []))
     = Ok (txt "0000")
  /\ txt "0000" = hexlify (sample_digest []).
Proof. by vm_compute. Qed.

Lemma split_by_protocol_writes_witness :
  exists s',
    split_by_protocol ascii_only hb (hb_file hb) (State merged_fs []) = (Ok tt, s')
    /\ file_data (st_fs s') (bucket_file hb (Some (txt "vmess")))
       = Some (Utf8.encode (txt "VMESS://abc"))
    /\ file_data (st_fs s') (bucket_file hb None)
       = Some (Utf8.encode (txt "junkline"))
    /\ file_data (st_fs s') (bucket_file hb (Some (txt "vless")))
       = Some (Utf8.encode (txt "vless://old"))
    /\ st_fs s' !! bucket_file hb (Some (txt "trojan")) = None.
Proof.
  destruct (split_by_protocol_writes ascii_only hb (hb_file hb) (State merged_fs [])
              (txt "# === a.txt ===
VMESS://abc
# comment

# === b.txt ===
ss://def
junkline
")) as [s' [H1 [H2 [H3 _]]]].
  - by vm_compute.
  - intros b Hb _. revert b Hb. apply Forall_forall.
    apply (bool_decide_unpack _). by vm_compute.
  - exists s'. split; [exact H1|]. split; [|split; [|split]].
    + destruct (H2 (Some (txt "vmess"))) as [-> _]; [| |by vm_compute].
      * apply (bool_decide_unpack _). by vm_compute.
      * by vm_compute.
    + destruct (H2 None) as [-> _]; [| |by vm_compute].
      * apply (bool_decide_unpack _). by vm_compute.
      * by vm_compute.
    + unfold file_data. rewrite (H3 (Some (txt "vless"))).
      * by vm_compute.
      * apply (bool_decide_unpack _). by vm_compute.
      * by vm_compute.
    + rewrite (H3 (Some (txt "trojan"))).
      * by vm_compute.
      * apply (bool_decide_unpack _). by vm_compute.
      * by vm_compute.
Defined.

Lemma run_stage_failures_witness :
  fst (run sample_digest ascii_only sample_now hb false (State unreadable_fs []))
  = Ok false.
Proof.
  pose (s := State unreadable_fs []).
  pose (s1 := snd (check_changes sample_digest hb (started sample_now s))).
  pose (s3 := snd (merge_files hb (log_entry s1 INFO MsgProcessing))).
  pose (s4 := snd (split_by_protocol ascii_only hb (hb_file hb) s3)).
  pose (s5 := snd (generate_report sample_now hb s4)).
  destruct (run_stage_failures sample_digest ascii_only sample_now sample_log_file
              hb false s
              (true, fingerprint sample_digest unreadable_fs (nodes_dir hb)) s1)
    as [_ Hmerged].
  { vm_compute. reflexivity. }
  { by left. }
  destruct (Hmerged (hb_file hb) s3) as [s4' [Hsplit [_ [_ [_ Hreport]]]]].
  { vm_compute. reflexivity. }
  assert (s4' = s4) as ->.
  { unfold s4. by rewrite Hsplit. }
  fold s. rewrite (Hreport PermissionError s5); [done|].
  vm_compute. reflexivity.
Defined.

(** The classifier fails and the run goes on.  On [locked_fs] the
    classifier cannot write vless.txt: it logs the error, the report is
    written and [run] returns True.  On [unreadable_fs] the classifier
    cannot open the merged file: it logs the error and the reporter still
    runs (it creates REPORT.md) before [run] returns. *)
Lemma run_goes_on_after_classifier_error :
  fst (run sample_digest ascii_only sample_now hb false (State locked_fs []))
  = Ok true
  /\ (ERROR, MsgSplitFailed PermissionError)
     ∈ st_log (snd (run sample_digest ascii_only sample_now hb false
                      (State locked_fs [])))
  /\ (INFO, MsgDone)
     ∈ st_log (snd (run sample_digest ascii_only sample_now hb false
                      (State locked_fs [])))
  /\ FS.read_decoded
       (st_fs (snd (merge_files hb (State unreadable_fs [])))) (hb_file hb)
     = Raise PermissionError
  /\ (ERROR, MsgSplitFailed PermissionError)
     ∈ st_log (snd (run sample_digest ascii_only sample_now hb false
                      (State unreadable_fs [])))
  /\ unreadable_fs !! (output_dir hb ++ [txt "REPORT.md"]) = None
  /\ is_Some (st_fs (snd (run sample_digest ascii_only sample_now hb false
                             (State unreadable_fs [])))
                !! (output_dir hb ++ [txt "REPORT.md"])).
Proof.
  repeat split; try (by vm_compute); apply (bool_decide_unpack _); by vm_compute.
Qed.

Lemma check_changes_overwrites_marker_witness :
  exists h s1 s2,
    check_changes sample_digest hb (State sample_fs []) = (Ok (true, h), s1)
    /\ file_data (st_fs s1) (hash_file hb) = Some (Utf8.encode h)
    /\ check_changes sample_digest hb s1 = (Ok (false, h), s2).
Proof.
  pose (h := fingerprint sample_digest sample_fs (nodes_dir hb)).
  pose (s1 := snd (check_changes sample_digest hb (State sample_fs []))).
  assert (check_changes sample_digest hb (State sample_fs []) = (Ok (true, h), s1))
    as Hcheck.
  { vm_compute. reflexivity. }
  destruct (check_changes_overwrites_marker sample_digest hb (State sample_fs []))
    as [Hfirst _].
  destruct (Hfirst true h s1 Hcheck) as [_ [Hmarker Hnext]].
  destruct (Hnext s1) as [s2 Hsecond]; [done|done|].
  exists h, s1, s2. split; [exact Hcheck|]. split; [exact Hmarker|exact Hsecond].
Defined.

Lemma split_by_protocol_keeps_stale_files_witness :
  file_data
    (st_fs (snd (split_by_protocol ascii_only hb (hb_file hb) (State merged_fs []))))
    (bucket_file hb (Some (txt "vless")))
  = Some (Utf8.encode (txt "vless://old")).
Proof.
  destruct (split_by_protocol_keeps_stale_files ascii_only hb (hb_file hb)
              (State merged_fs [])) as [Hstale _].
  destruct (Hstale (txt "# === a.txt ===
VMESS://abc
# comment

# === b.txt ===
ss://def
junkline
") (Some (txt "vless"))) as [_ ->].
  - by vm_compute.
  - apply (bool_decide_unpack _). by vm_compute.
  - by vm_compute.
  - by vm_compute.
Defined.

Lemma main_exit_status_witness :
  fst (main sample_digest ascii_only sample_now false [txt "hb"] (State sample_fs []))
  = 0%N
  /\ fst (main sample_digest ascii_only sample_now false [txt "hb"]
            (snd (main sample_digest ascii_only sample_now false [txt "hb"]
                    (State sample_fs []))))
     = 1%N.
Proof.
  destruct (main_exit_status sample_digest ascii_only sample_now)
    as [Hzero [Hone _]].
  split.
  - apply Hzero. by vm_compute.
  - apply Hone. by vm_compute.
Defined.

Lemma generate_report_writes_witness :
  exists s',
    generate_report sample_now hb (State merged_fs []) = (Ok tt, s')
    /\ file_data (st_fs s') (report_file hb)
       = Some (Utf8.encode
                 (report_header sample_now 3 2
                  ++ report_entry (hb_file hb) 6
                  ++ report_entry (bucket_file hb (Some (txt "vless"))) 1)).
Proof.
  destruct (generate_report_writes sample_now sample_log_file hb (State merged_fs []))
    as [s' [H1 [H2 _]]].
  - by vm_compute.
  - apply Forall_forall. apply (bool_decide_unpack _). by vm_compute.
  - apply Forall_forall. apply (bool_decide_unpack _). by vm_compute.
  - exists s'. split; [exact H1|]. rewrite H2. by vm_compute.
Defined.

Lemma run_consumes_the_change_witness :
  let s1 := snd (run sample_digest ascii_only sample_now hb false
                   (State sample_fs [])) in
  exists s2,
    run sample_digest ascii_only sample_now hb false s1 = (Ok false, s2)
    /\ st_fs s2 !! hb_file hb = st_fs s1 !! hb_file hb.
Proof.
  intros s1.
  assert (run sample_digest ascii_only sample_now hb false (State sample_fs [])
          = (Ok true, s1)) as Hrun.
  { vm_compute. reflexivity. }
  destruct (run_consumes_the_change sample_digest ascii_only sample_now
              sample_log_file hb false
              (State sample_fs []) true s1 Hrun s1) as [s2 [H1 [H2 _]]];
    [done|done|].
  exists s2. split; [exact H1|]. apply H2. by vm_compute.
Defined.

Lemma run_fails_without_output_directory_witness :
  fst (main sample_digest ascii_only sample_now true [txt "hb"] (State bare_fs []))
  = 1%N.
Proof.
  destruct (run_fails_without_output_directory sample_digest ascii_only sample_now
              sample_log_file hb true (State bare_fs [])) as [_ [Hmain _]].
  - by vm_compute.
  - by vm_compute.
  - exact Hmain.
Defined.

Lemma match_protocol_any_order_witness :
  fst <$> List.find (fun e => Str.startswith (lower ascii_only (txt "SSR://x")) (snd e))
                    (reverse protocols)
  = Some (txt "ssr").
Proof.
  rewrite (match_protocol_any_order ascii_only (reverse protocols)).
  - by vm_compute.
  - apply reverse_Permutation.
Defined.

Lemma fingerprint_blind_spots_witness :
  fingerprint sample_digest sample_fs [txt "nodes"]
  = fingerprint sample_digest
      (<[ [txt "nodes"; txt "notes.md"] := File [35%N] true true ]> sample_fs)
      [txt "nodes"].
Proof.
  apply fingerprint_blind_spots.
  - by vm_compute.
  - intros n ext Hext Hn. rewrite lookup_insert_ne; [done|].
    intros Heq. injection Heq as <-. revert ext Hext Hn.
    apply (Forall_forall
             (fun ext => Str.endswith (txt "notes.md") ext <> true)).
    apply (bool_decide_unpack _). by vm_compute.
Defined.

Lemma merged_document_buckets_witness :
  bucket ascii_only (Str.readlines (merged_document sample_fs hb)) None
  = [txt "junkline"].
Proof.
  rewrite merged_document_buckets.
  - by vm_compute.
  - unfold one_line. apply (bool_decide_unpack _). by vm_compute.
Defined.

Lemma run_sorts_the_inputs_witness :
  let after := st_fs (snd (run sample_digest ascii_only sample_now hb false
                             (State sample_fs []))) in
  file_data after (bucket_file hb (Some (txt "vmess")))
  = Some (Utf8.encode (txt "VMESS://abc"))
  /\ after !! bucket_file hb (Some (txt "vless")) = None.
Proof.
  intros after. unfold after.
  pose (s1 := snd (check_changes sample_digest hb
                     (started sample_now (State sample_fs [])))).
  destruct (run_sorts_the_inputs sample_digest ascii_only sample_now hb false
              (State sample_fs [])
              (true, fingerprint sample_digest sample_fs (nodes_dir hb)) s1)
    as [_ Hbuckets].
  - vm_compute. reflexivity.
  - by left.
  - unfold one_line. apply (bool_decide_unpack _). by vm_compute.
  - by vm_compute.
  - intros d r w Hhb. by vm_compute in Hhb.
  - intros b Hb _. revert b Hb. apply Forall_forall.
    apply (bool_decide_unpack _). by vm_compute.
  - split.
    + destruct (Hbuckets (Some (txt "vmess"))) as [-> _]; [| |by vm_compute].
      * apply (bool_decide_unpack _). by vm_compute.
      * by vm_compute.
    + destruct (Hbuckets (Some (txt "vless"))) as [_ ->].
      * apply (bool_decide_unpack _). by vm_compute.
      * by vm_compute.
      * by vm_compute.
Defined.

Lemma bucket_file_reads_back_witness :
  let fs' := st_fs (snd (split_by_protocol ascii_only hb (hb_file hb)
                           (State merged_fs []))) in
  bucket ascii_only (file_lines fs' (bucket_file hb None)) None = [txt "junkline"]
  /\ counted fs' (bucket_file hb None) = 1.
Proof.
  intros fs'.
  destruct (bucket_file_reads_back ascii_only hb merged_fs fs' (hb_file hb)
              (txt "# === a.txt ===
VMESS://abc
# comment

# === b.txt ===
ss://def
junkline
") None true) as [H1 [_ H2]].
  - by vm_compute.
  - by vm_compute.
  - rewrite H1, H2. by vm_compute.
Defined.

Lemma run_stops_at_a_broken_marker_witness :
  fst (run sample_digest ascii_only sample_now hb true
         (State (<[ hash_file hb := Dir ]> sample_fs) []))
  = Raise IsADirectoryError.
Proof.
  destruct (run_stops_at_a_broken_marker sample_digest ascii_only sample_now
              sample_log_file hb true
              (State (<[ hash_file hb := Dir ]> sample_fs) []) IsADirectoryError)
    as [s' [-> _]]; [|done].
  left. split; by vm_compute.
Defined.

Lemma generate_report_stops_at_unreadable_file_witness :
  exists s',
    generate_report sample_now hb (State unreadable_fs []) = (Raise PermissionError, s')
    /\ file_data (st_fs s') (report_file hb)
       = Some (Utf8.encode (report_header sample_now 3 1)).
Proof.
  destruct (generate_report_stops_at_unreadable_file sample_now hb
              (State unreadable_fs [])) as [Hstop _].
  destruct (Hstop [] (hb_file hb) [] PermissionError) as [s' [H1 [H2 _]]].
  - by vm_compute.
  - by vm_compute.
  - intros file Hfile. by apply elem_of_nil in Hfile.
  - left. by vm_compute.
  - exists s'. split; [exact H1|]. rewrite H2. by vm_compute.
Defined.

Lemma run_changes_only_its_files_witness :
  st_fs (snd (run sample_digest ascii_only sample_now hb true (State sample_fs [])))
    !! [txt "nodes"; txt "a.txt"]
  = sample_fs !! [txt "nodes"; txt "a.txt"].
Proof.
  destruct (run_changes_only_its_files sample_digest ascii_only sample_now
              sample_log_file hb true (State sample_fs [])) as [_ [_ Hinput]].
  apply (Hinput (txt "a.txt") (txt ".txt")).
  - apply (bool_decide_unpack _). by vm_compute.
  - by vm_compute.
  - by vm_compute.
Defined.

Lemma init_directories_before_the_logger_witness :
  init_directories sample_mkdir [txt "hb"]
    (Config (YMap [(YStr (txt "directories"),
                    YMap [(YStr (txt "out"), YStr (txt "./output"));
                          (YStr (txt "logs"), YStr (txt "../logs"))])])
            (YMap []) (YMap []) (YMap []))
    None (State bare_fs [])
  = (Raised AttributeError, State (<[ [txt "hb"; txt "output"] := Dir ]> bare_fs) []).
Proof.
  destruct (init_directories_before_the_logger sample_mkdir [txt "hb"]
              (Config (YMap [(YStr (txt "directories"),
                              YMap [(YStr (txt "out"), YStr (txt "./output"));
                                    (YStr (txt "logs"), YStr (txt "../logs"))])])
                      (YMap []) (YMap []) (YMap []))
              (State bare_fs [])) as [_ [_ [Hfirst _]]].
  rewrite (Hfirst (YStr (txt "out")) (txt "./output")
             [(YStr (txt "logs"), YStr (txt "../logs"))]).
  - by vm_compute.
  - by vm_compute.
Defined.

Lemma constructor_takes_no_directories_witness :
  fst (start sample_digest ascii_only sample_now sample_safe_load sample_mkdir
         sample_setup_logging true [txt "hb"] (State configured_fs [])) = 1%N
  /\ fst (start sample_digest ascii_only sample_now sample_safe_load sample_mkdir
            sample_setup_logging true [txt "hb"] (State empty_config_fs [])) = 1%N
  /\ fst (start sample_digest ascii_only sample_now sample_safe_load sample_mkdir
            sample_setup_logging true [txt "hb"] (State logging_config_fs [])) = 0%N.
Proof.
  split; [|split].
  - destruct (constructor_takes_no_directories sample_digest ascii_only sample_now
                sample_safe_load sample_mkdir sample_setup_logging [txt "hb"] true
                (State configured_fs [])) as [_ Hfails].
    destruct (Hfails (txt "directories:
  out: ./output
") (YMap [(YStr (txt "directories"),
           YMap [(YStr (txt "out"), YStr (txt "./output"))])]))
      as [f [s' [_ ->]]]; by vm_compute.
  - destruct (constructor_takes_no_directories sample_digest ascii_only sample_now
                sample_safe_load sample_mkdir sample_setup_logging [txt "hb"] true
                (State empty_config_fs [])) as [_ Hfails].
    destruct (Hfails [] YOther) as [f [s' [_ ->]]]; by vm_compute.
  - by vm_compute.
Defined.

Lemma forced_run_twice_witness :
  let s1 := snd (run sample_digest ascii_only sample_now hb true
                   (State sample_fs [])) in
  let s2 := snd (run sample_digest ascii_only (txt "2024-01-02 00:00:00") hb true
                   s1) in
  fst (run sample_digest ascii_only (txt "2024-01-02 00:00:00") hb true s1) = Ok true
  /\ st_fs s2 !! bucket_file hb None = st_fs s1 !! bucket_file hb None
  /\ st_fs s2 !! report_file hb <> st_fs s1 !! report_file hb.
Proof.
  intros s1 s2.
  assert (run sample_digest ascii_only sample_now hb true (State sample_fs [])
          = (Ok true, s1)) as Hrun.
  { vm_compute. reflexivity. }
  destruct (forced_run_twice sample_digest ascii_only sample_now
              (txt "2024-01-02 00:00:00") sample_log_file hb (State sample_fs [])
              true s1 Hrun)
    as [s2' [Hsecond Hframe]].
  unfold s2. rewrite Hsecond. cbn [fst snd]. split; [done|]. split.
  - apply Hframe; by vm_compute.
  - replace s2' with (snd (run sample_digest ascii_only (txt "2024-01-02 00:00:00")
                             hb true s1)) by by rewrite Hsecond.
    by vm_compute.
Defined.

Lemma fingerprint_joins_files_witness :
  fingerprint sample_digest
    (<[ [txt "nodes"; txt "b.txt"] := File (txt "ss://b") true true ]>
       (<[ [txt "nodes"; txt "a.txt"] := File (txt "ss://a") true true ]>
          {[ [txt "nodes"] := Dir ]}))
    [txt "nodes"]
  = fingerprint sample_digest
      (<[ [txt "nodes"; txt "b.txt"] := File (txt "ss://aa.txtss://b") true true ]>
         {[ [txt "nodes"] := Dir ]})
      [txt "nodes"].
Proof.
  apply (fingerprint_joins_files sample_digest {[ [txt "nodes"] := Dir ]}
           [txt "nodes"] (txt "a.txt") (txt "b.txt") (txt "ss://a") (txt "ss://b")).
  - by vm_compute.
  - intros n. apply lookup_singleton_ne. intros Heq.
    by apply (f_equal length) in Heq.
  - by vm_compute.
  - by vm_compute.
  - by vm_compute.
  - by vm_compute.
  - by vm_compute.
Defined.

Lemma split_by_protocol_stops_at_first_failure_witness :
  let s := snd (merge_files hb (State locked_fs [])) in
  let s' := snd (split_by_protocol ascii_only hb (hb_file hb) s) in
  bucket ascii_only (Str.readlines (merged_document locked_fs hb))
         (Some (txt "vmess")) = [txt "VMESS://abc"]
  /\ st_fs s' !! bucket_file hb (Some (txt "vmess")) = None
  /\ last (st_log s') = Some (ERROR, MsgSplitFailed PermissionError).
Proof.
  intros s s'. split; [by vm_compute|].
  destruct (split_by_protocol_stops_at_first_failure ascii_only hb (hb_file hb) s
              (merged_document locked_fs hb) [] (tail bucket_ids)
              (Some (txt "vless")) PermissionError)
    as [_ [_ [Hlater Hlog]]].
  - by vm_compute.
  - by vm_compute.
  - by vm_compute.
  - by vm_compute.
  - by intros b' Hb'%elem_of_nil.
  - split; [|exact Hlog]. unfold s'. rewrite (Hlater (Some (txt "vmess"))).
    + by vm_compute.
    + right. apply (bool_decide_unpack _). by vm_compute.
Defined.

Lemma merge_files_log_witness :
  st_log (snd (merge_files hb
                 (State (<[ [txt "nodes"; txt "z.txt"] := File [255%N] true true ]>
                           sample_fs) [])))
  = [(INFO, MsgMergeStart);
     (ERROR, MsgMergeReadFailed [txt "nodes"; txt "z.txt"] UnicodeDecodeError);
     (INFO, MsgMerged (hb_file hb))].
Proof.
  pose proof (merge_files_log hb
                (State (<[ [txt "nodes"; txt "z.txt"] := File [255%N] true true ]>
                          sample_fs) [])) as Hlog.
  cbv zeta in Hlog. rewrite Hlog. by vm_compute.
Defined.
